(** * ChatGPT-Chrome-Extension-Automator: a shallow embedding

    The development follows the scripts of the extension:

    - the service worker's [INJECT_PROSEMIRROR_SCRIPT] handler and the
      routine it injects, [injectProseMirrorCode] with [checkObject]
      (modules [Broker] and [Injection], first part of [background.js]);
    - the content script: [handlePrompt], [setProseMirrorContent] and
      [waitForResponse] with its [checkCompletion] closure
      (modules [Orchestrator] and [Detector]);
    - the class [ChatGPTAPI] of [chatgpt-api.js] (module [Facade]);
    - the popup's [DOMContentLoaded] handler with [executePrompt]
      (module [Popup], last part of [background.js]).

    JavaScript callbacks that the browser runs later (timers, message
    callbacks, promise continuations) are functions on an explicit state;
    what the browser hands to them (a DOM snapshot, a list of tabs, a
    [lastError]) is an argument. The definitions come first; the
    properties follow, in the modules [DetectorLaws], [BrokerLaws],
    [FacadeLaws] and [OrchestratorLaws], and further ones in
    [DetectorMore], [InjectionLaws], [OrchestratorMore],
    [FacadeMore] and [PopupLaws]. *)

From Stdlib Require Import NArith Ascii String Lia.
From stdpp Require Import base list gmap strings.

Open Scope nat_scope.

(** ** JavaScript strings and the few string operations the code uses *)

Module JS.

(** A string is its sequence of UTF-16 code units. *)
Definition jsstring := list N.

Fixpoint js (s : string) : jsstring :=
  match s with
  | EmptyString => []
  | String a s' => N_of_ascii a :: js s'
  end.

(** [WhiteSpace] and [LineTerminator] code units, which
    [String.prototype.trim] strips. *)
Definition isWhiteSpace (c : N) : bool :=
  (List.existsb (N.eqb c)
     [0x09; 0x0A; 0x0B; 0x0C; 0x0D; 0x20; 0xA0; 0x1680;
      0x2028; 0x2029; 0x202F; 0x205F; 0x3000; 0xFEFF]
   || ((0x2000 <=? c) && (c <=? 0x200A)))%N.

Fixpoint trimStart (s : jsstring) : jsstring :=
  match s with
  | c :: s' => if isWhiteSpace c then trimStart s' else s
  | [] => []
  end.

Definition trim (s : jsstring) : jsstring :=
  rev (trimStart (rev (trimStart s))).

Fixpoint startsWith (s pat : jsstring) : bool :=
  match pat, s with
  | [], _ => true
  | p :: pat', c :: s' => N.eqb p c && startsWith s' pat'
  | _ :: _, [] => false
  end.

(** [s.includes(pat)] *)
Fixpoint includes (s pat : jsstring) : bool :=
  startsWith s pat ||
  match s with
  | [] => false
  | _ :: s' => includes s' pat
  end.

(** [a || b] on strings: the empty string is falsy. *)
Definition or_else (a b : jsstring) : jsstring :=
  match a with [] => b | _ => a end.

(** The part of an element that the scripts read. A property that is
    [undefined] on the element is the empty string here: both are falsy
    and the code only reads them under [||] or a truthiness test. *)
Record Element := {
  textContent : jsstring;
  innerText : jsstring
}.

(** [el.textContent || el.innerText || ''] *)
Definition visibleText (el : Element) : jsstring :=
  or_else (textContent el) (or_else (innerText el) []).

(** [content.trim().length > 0] *)
Definition nonBlank (s : jsstring) : bool := 0 <? length (trim s).

End JS.
Import JS.

(** ** Messages on the extension's bus ([request.action]) *)

Inductive Message :=
| PROMPT_CHATGPT (prompt : jsstring)
| INJECT_PROSEMIRROR_SCRIPT (promptText : jsstring)
| CAPTURED_RESPONSE (text : jsstring).

(** ** The completion detector: [waitForResponse] *)

Module Detector.

Record Button := { disabled : bool }.

(** What the selectors of one [checkCompletion] call find in the page. *)
Record Document := {
  (** [button[data-testid="send-button"]] *)
  sendButton_testid : option Button;
  (** [button[aria-label*="Send" i], ...] *)
  sendButton_aria : option Button;
  (** [button[title*="Send" i], ...] *)
  sendButton_title : option Button;
  (** [button[type="submit"]] *)
  sendButton_submit : option Button;
  (** [button[aria-label*="Stop"], ..., [data-testid="stop-button"]] *)
  stopButton_label : bool;
  (** [button[aria-label*="stop generating" i], button[title*="Stop" i]] *)
  stopButton_title : bool;
  (** [.result-streaming, [class*="streaming"], [class*="Streaming"]] *)
  streamingIndicator : bool;
  (** [.markdown, [class*="markdown"], [data-testid="conversation-turn-block"]] *)
  markdownBlocks : list Element;
  (** [[class*="Message"], [class*="message"], [class*="Response"], ...] *)
  messageBlocks : list Element
}.

(** The variables [waitForResponse] declares and its closures share.
    [observer] and [intervalId] are [true] while the handle is held
    (non-null). *)
Record State := {
  checkCount : nat;
  streamingDetected : bool;
  lastResponseLength : nat;
  stableCount : nat;
  observer : bool;
  intervalId : bool;
  isComplete : bool
}.

Definition maxChecks : nat := 300.
Definition requiredStableChecks : nat := 3.

Definition timeoutText : jsstring := js "Response timeout - please check manually".

Definition cleanup (s : State) : State :=
  {| checkCount := checkCount s;
     streamingDetected := streamingDetected s;
     lastResponseLength := lastResponseLength s;
     stableCount := stableCount s;
     observer := false;
     intervalId := false;
     isComplete := isComplete s |}.

Definition sendButton (doc : Document) : option Button :=
  match sendButton_testid doc with
  | Some b => Some b
  | None =>
      match sendButton_aria doc with
      | Some b => Some b
      | None =>
          match sendButton_title doc with
          | Some b => Some b
          | None => sendButton_submit doc
          end
      end
  end.

(** [hasStopButton]: [stopButton !== null] *)
Definition hasStopButton (doc : Document) : bool :=
  stopButton_label doc || stopButton_title doc.

Definition responses (doc : Document) : list Element :=
  match markdownBlocks doc with
  | [] => messageBlocks doc
  | _ :: _ => markdownBlocks doc
  end.

(** [responses[responses.length - 1]], [null] when there is none *)
Definition lastResponse (doc : Document) : option Element :=
  last (responses doc).

Definition currentResponseLength (doc : Document) : nat :=
  match lastResponse doc with
  | Some el => length (innerText el)
  | None => 0
  end.

(** [if (stopButton && !streamingDetected) streamingDetected = true]:
    the flag after the assignment. *)
Definition streamingAfter (streaming : bool) (doc : Document) : bool :=
  if hasStopButton doc && negb streaming then true else streaming.

(** The conjunction [completionConditionsMet], given the value of
    [streamingDetected] when it is evaluated. *)
Definition completionConditionsMet (streaming : bool) (doc : Document) : bool :=
  streaming
  && negb (hasStopButton doc)
  && negb (streamingIndicator doc)
  && bool_decide (is_Some (lastResponse doc))
  && (0 <? currentResponseLength doc)
  && match sendButton doc with
     | None => true
     | Some b => negb (disabled b)
     end.

(** [lastResponse.innerText || lastResponse.textContent || ''] *)
Definition responseText (doc : Document) : jsstring :=
  match lastResponse doc with
  | Some el => or_else (innerText el) (or_else (textContent el) [])
  | None => []
  end.

(** One call of [checkCompletion]: the new state and the messages it
    sends with [chrome.runtime.sendMessage]. *)
Definition checkCompletion (doc : Document) (s : State) : State * list Message :=
  if isComplete s then (s, [])
  else
    let count := S (checkCount s) in
    if maxChecks <? count then
      (cleanup
         {| checkCount := count;
            streamingDetected := streamingDetected s;
            lastResponseLength := lastResponseLength s;
            stableCount := stableCount s;
            observer := observer s;
            intervalId := intervalId s;
            isComplete := false |},
       [CAPTURED_RESPONSE timeoutText])
    else
      let streaming := streamingAfter (streamingDetected s) doc in
      let len := currentResponseLength doc in
      if completionConditionsMet streaming doc then
        if len =? lastResponseLength s then
          let stable := S (stableCount s) in
          if requiredStableChecks <=? stable then
            (cleanup
               {| checkCount := count;
                  streamingDetected := streaming;
                  lastResponseLength := lastResponseLength s;
                  stableCount := stable;
                  observer := observer s;
                  intervalId := intervalId s;
                  isComplete := true |},
             [CAPTURED_RESPONSE (responseText doc)])
          else
            ({| checkCount := count;
                streamingDetected := streaming;
                lastResponseLength := lastResponseLength s;
                stableCount := stable;
                observer := observer s;
                intervalId := intervalId s;
                isComplete := false |}, [])
        else
          ({| checkCount := count;
              streamingDetected := streaming;
              lastResponseLength := len;
              stableCount := 0;
              observer := observer s;
              intervalId := intervalId s;
              isComplete := false |}, [])
      else
        ({| checkCount := count;
            streamingDetected := streaming;
            lastResponseLength :=
              if 0 <? len then len else lastResponseLength s;
            stableCount := 0;
            observer := observer s;
            intervalId := intervalId s;
            isComplete := false |}, []).

(** The two schedulers that call [checkCompletion] after the first,
    immediate call. The browser runs a [MutationObserver] callback only
    while the observer is connected and an interval callback only until
    [clearInterval]. *)
Inductive Trigger := Mutation | Interval.

Definition fire (t : Trigger) (doc : Document) (s : State) : State * list Message :=
  match t with
  | Mutation =>
      if observer s then checkCompletion doc s else (s, [])
  | Interval =>
      if intervalId s then
        let r := checkCompletion doc s in
        (if isComplete (fst r) then cleanup (fst r) else fst r, snd r)
      else (s, [])
  end.

(** The state [waitForResponse] has built when it makes its first call:
    both handles are set. *)
Definition armed : State :=
  {| checkCount := 0;
     streamingDetected := false;
     lastResponseLength := 0;
     stableCount := 0;
     observer := true;
     intervalId := true;
     isComplete := false |}.

Fixpoint run (ticks : list (Trigger * Document)) (s : State) : State * list Message :=
  match ticks with
  | [] => (s, [])
  | (t, doc) :: ticks' =>
      let r := fire t doc s in
      let r' := run ticks' (fst r) in
      (fst r', snd r ++ snd r')
  end.

(** [waitForResponse()] on a page showing [first] at the immediate check
    and then [later] at the following callbacks: tick 1 is the immediate
    check, tick [k + 1] the [k]-th callback. *)
Definition waitForResponse (first : Document) (later : list (Trigger * Document))
  : State * list Message :=
  let r := checkCompletion first armed in
  let r' := run later (fst r) in
  (fst r', snd r ++ snd r').

(** The detector after its first [k] ticks ([1 <= k]). *)
Definition afterTick (k : nat) (first : Document) (later : list (Trigger * Document))
  : State * list Message :=
  waitForResponse first (take (k - 1) later).

(** The pages the callbacks of a run see. *)
Definition pages (ticks : list (Trigger * Document)) : list Document :=
  map snd ticks.

(** No tick of a run recognises a completion candidate:
    [completionConditionsMet] is false at every evaluation, starting with
    [streamingDetected = streaming]. *)
Fixpoint neverCandidate (streaming : bool) (docs : list Document) : bool :=
  match docs with
  | [] => true
  | doc :: docs' =>
      negb (completionConditionsMet (streamingAfter streaming doc) doc)
      && neverCandidate (streamingAfter streaming doc) docs'
  end.

(** A tick's stop control and response length. *)
Definition observed (stop : bool) (len : nat) (doc : Document) : Prop :=
  hasStopButton doc = stop /\ currentResponseLength doc = len.

(** The send control is absent or enabled and nothing carries a
    streaming class. *)
Definition quiescent (doc : Document) : bool :=
  negb (streamingIndicator doc)
  && match sendButton doc with
     | None => true
     | Some b => negb (disabled b)
     end.

(** Pages for simulated runs: no send control, no streaming class, an
    optional stop control and the given [.markdown] blocks. *)
Definition page (stop : bool) (blocks : list Element) : Document :=
  {| sendButton_testid := None;
     sendButton_aria := None;
     sendButton_title := None;
     sendButton_submit := None;
     stopButton_label := stop;
     stopButton_title := false;
     streamingIndicator := false;
     markdownBlocks := blocks;
     messageBlocks := [] |}.

Definition block (text : string) : Element :=
  {| textContent := js text; innerText := js text |}.

(** A response block without text. *)
Definition emptyBlock : Element :=
  {| textContent := []; innerText := [] |}.

(** Generation running, no answer text yet (length 0). *)
Definition streamingPage : Document := page true [emptyBlock].

(** Generation over, a 12-character answer. *)
Definition answerPage : Document := page false [block "Hello world!"].

(** A page on which nothing ever appears. *)
Definition idlePage : Document := page false [].

(** Every tick shows a block with text, of another length than the
    tick before ([prev] is the length before the first of [docs]). *)
Fixpoint keepsChanging (prev : nat) (docs : list Document) : bool :=
  match docs with
  | [] => true
  | doc :: docs' =>
      (0 <? currentResponseLength doc)
      && negb (currentResponseLength doc =? prev)
      && keepsChanging (currentResponseLength doc) docs'
  end.

(** Both handles held and the detector not complete. *)
Definition live (s : State) : Prop :=
  isComplete s = false /\ observer s = true /\ intervalId s = true.

(** Both handles released. *)
Definition released (s : State) : Prop :=
  observer s = false /\ intervalId s = false.

(** The simulated run of the stability law: generation running with no
    text for two ticks, then the finished 12-character answer. *)
Definition stabilityRun : list (Trigger * Document) :=
  [(Interval, streamingPage); (Interval, answerPage);
   (Interval, answerPage); (Interval, answerPage)].

(** A page that stays empty, polled [n] more times. *)
Definition idleRun (n : nat) : list (Trigger * Document) :=
  replicate n (Interval, idlePage).

(** A run with every control toggling over empty blocks. *)
Definition emptyRun : list (Trigger * Document) :=
  [(Mutation, idlePage); (Interval, page false [emptyBlock]);
   (Interval, streamingPage); (Mutation, page false [emptyBlock; emptyBlock]);
   (Interval, page false [emptyBlock]); (Interval, page false [emptyBlock]);
   (Interval, page false [emptyBlock]); (Interval, page false [emptyBlock])].

(** An answer that grows at each of four ticks. *)
Definition growing : list (Trigger * Document) :=
  [(Interval, page true [block "He"]); (Mutation, page false [block "Hell"]);
   (Interval, page false [block "Hello"]); (Interval, page false [block "Hello w"])].

End Detector.

(** ** The service worker: the [INJECT_PROSEMIRROR_SCRIPT] handler *)

Module Broker.

Inductive Method := direct_api | dom_manipulation.

(** A result object; a property the object does not have is [None].
    The injected routine writes [{success: true, method}] or [{error}]
    to [window.__prosemirrorResult]; the handler also builds
    [{success: false, error}]. *)
Record InjectionResult := {
  success : option bool;
  method : option Method;
  error : option jsstring
}.

(** The target page as the handler's later scripts find it: after the
    injected routine has run, when the 500 ms timer has fired. *)
Record Page := {
  (** [window.__prosemirrorResult] *)
  prosemirrorResult : option InjectionResult;
  (** [document.querySelector('#prompt-textarea')] *)
  promptTextarea : option Element
}.

(** A value that a script returns or that [sendResponse] is given. *)
#[warnings="-register-all"] Inductive Value :=
| Undefined
| Null
| Bool (b : bool)
| Num (n : Z)
| Str (s : jsstring)
| Obj (props : list (string * Value)).

(** [v.key]: [undefined] when [v] has no such property. The handler
    reads properties only behind [!v ||] or [v &&], so never off
    [null]. *)
Definition get (key : string) (v : Value) : Value :=
  match v with
  | Obj props =>
      match List.find (fun p => String.eqb (fst p) key) props with
      | Some p => snd p
      | None => Undefined
      end
  | _ => Undefined
  end.

Definition truthy (v : Value) : bool :=
  match v with
  | Undefined | Null => false
  | Bool b => b
  | Num n => negb (n =? 0)%Z
  | Str s => match s with [] => false | _ => true end
  | Obj _ => true
  end.

Definition ofMethod (m : Method) : Value :=
  match m with
  | direct_api => Str (js "direct_api")
  | dom_manipulation => Str (js "dom_manipulation")
  end.

(** The object of a result record, with the properties the record has,
    in the order the scripts write them. *)
Definition ofResult (r : InjectionResult) : Value :=
  Obj (match success r with Some b => [("success"%string, Bool b)] | None => [] end
       ++ match method r with Some m => [("method"%string, ofMethod m)] | None => [] end
       ++ match error r with Some e => [("error"%string, Str e)] | None => [] end).

(** How a [chrome.scripting.executeScript] promise settles: rejected
    with [error.message], or fulfilled with an array that holds one
    object for each frame the function ran in, here the one frame of
    [target: { tabId }]. *)
Inductive Execution :=
| Runs (documentId : jsstring) (frameId : Z)
| Rejects (message : jsstring).

(** The array of a fulfilled execution whose function returned [value]:
    the frame's object has the properties [documentId], [frameId] and
    [result], the return value being [result]. *)
Definition results (documentId : jsstring) (frameId : Z) (value : Value)
  : list Value :=
  [Obj [("documentId"%string, Str documentId); ("frameId"%string, Num frameId);
        ("result"%string, value)]].

(** The four script executions of one request. *)
Record Scripting := {
  inject : Execution;
  readMarker : Execution;
  probe : Execution;
  cleanup : Execution
}.

Definition failure (message : jsstring) : InjectionResult :=
  {| success := Some false; method := None; error := Some message |}.

Definition noResult : InjectionResult := failure (js "No result found").

Definition domSuccess : InjectionResult :=
  {| success := Some true; method := Some dom_manipulation; error := None |}.

(** [result.success] is truthy *)
Definition succeeded (result : InjectionResult) : bool :=
  match success result with
  | Some b => b
  | None => false
  end.

(** [content.trim().length > 0] of the probe script, [false] without a
    textarea. *)
Definition hasContent (page : Page) : bool :=
  match promptTextarea page with
  | Some textarea => nonBlank (visibleText textarea)
  | None => false
  end.

(** The script that reads the marker:
    [window.__prosemirrorResult || null]. *)
Definition readScript (page : Page) : Value :=
  match prosemirrorResult page with
  | Some r => ofResult r
  | None => Null
  end.

(** The probe script: [{ hasContent: ... }]. *)
Definition probeScript (page : Page) : Value :=
  Obj [("hasContent"%string, Bool (hasContent page))].

(** The cleanup script: [delete window.__prosemirrorResult]. *)
Definition deleteMarker (page : Page) : Page :=
  {| prosemirrorResult := None; promptTextarea := promptTextarea page |}.

(** [results && results[0] ? results[0] : null] *)
Definition first (results : list Value) : Value :=
  match results with
  | v :: _ => if truthy v then v else Null
  | [] => Null
  end.

(** [a || b] *)
Definition orElse (a b : Value) : Value := if truthy a then a else b.

(** The probe and the response after it; [fallback] is what
    [sendResponse] gets when [check.hasContent] is not truthy or the
    probe rejects. *)
Definition probeAndRespond (env : Scripting) (page : Page)
    (fallback : Value) : Value :=
  match probe env with
  | Runs documentId frameId =>
      let check := first (results documentId frameId (probeScript page)) in
      if truthy check && truthy (get "hasContent" check) then ofResult domSuccess
      else fallback
  | Rejects _ => fallback
  end.

(** The handler from the first [executeScript] on: the argument of
    [sendResponse] and the page it leaves. *)
Definition injectAndRetrieve (env : Scripting) (page : Page)
  : Value * Page :=
  match inject env with
  | Rejects message => (ofResult (failure message), page)
  | Runs _ _ =>
      match readMarker env with
      | Rejects message =>
          (probeAndRespond env page (ofResult (failure message)), page)
      | Runs documentId frameId =>
          let result := first (results documentId frameId (readScript page)) in
          if negb (truthy result) || negb (truthy (get "success" result)) then
            (probeAndRespond env page (orElse result (ofResult noResult)), page)
          else
            (result, match cleanup env with
                     | Runs _ _ => deleteMarker page
                     | Rejects _ => page
                     end)
      end
  end.

(** The listener: other actions get no response. *)
Definition onMessage (request : Message) (env : Scripting) (page : Page)
  : option Value * Page :=
  match request with
  | INJECT_PROSEMIRROR_SCRIPT _ =>
      (Some (fst (injectAndRetrieve env page)), snd (injectAndRetrieve env page))
  | _ => (None, page)
  end.

(** Every script execution of the request is carried out. *)
Definition allRun : Scripting :=
  {| inject := Runs (js "doc-1") 0; readMarker := Runs (js "doc-1") 0;
     probe := Runs (js "doc-1") 0; cleanup := Runs (js "doc-1") 0 |}.

Definition textarea (text : string) : Element :=
  {| textContent := js text; innerText := js text |}.

(** The editor took the text and the routine wrote its success. *)
Definition editorPage : Page :=
  {| prosemirrorResult :=
       Some {| success := Some true; method := Some direct_api; error := None |};
     promptTextarea := Some (textarea "hi") |}.

(** The routine gave up, the text showed up afterwards. *)
Definition lateContentPage : Page :=
  {| prosemirrorResult :=
       Some {| success := None; method := None;
               error := Some (js "DOM manipulation failed") |};
     promptTextarea := Some (textarea "hi") |}.

(** No marker and a textarea of blanks. *)
Definition blankPage : Page :=
  {| prosemirrorResult := None; promptTextarea := Some (textarea "  ") |}.

End Broker.

(** ** The injected routine: [injectProseMirrorCode] *)

Module Injection.

(** The objects [checkObject] walks, as finite trees: a primitive (with
    its truthiness) or an object, callable or not, with its properties
    in enumeration order, each key once. A non-enumerable property (a
    prototype method, say) can be read but is skipped by [for ... in]. *)
Inductive Value :=
| Primitive (truthy : bool)
| Object (callable : bool) (props : Props)
with Props :=
| PNil
| PCons (key : jsstring) (enumerable : bool) (value : Value) (rest : Props).

Scheme Value_ind2 := Induction for Value Sort Prop
  with Props_ind2 := Induction for Props Sort Prop.

Combined Scheme Value_Props_ind from Value_ind2, Props_ind2.

Fixpoint get (ps : Props) (k : jsstring) : Value :=
  match ps with
  | PNil => Primitive false
  | PCons k' _ v rest => if decide (k' = k) then v else get rest k
  end.

(** [v.k]; [undefined] on a primitive. *)
Definition prop (v : Value) (k : string) : Value :=
  match v with
  | Object _ ps => get ps (js k)
  | Primitive _ => Primitive false
  end.

Definition isTruthy (v : Value) : bool :=
  match v with
  | Primitive b => b
  | Object _ _ => true
  end.

(** [obj.dispatch && obj.state && obj.state.doc] *)
Definition viewShaped (obj : Value) : bool :=
  isTruthy (prop obj "dispatch")
  && isTruthy (prop obj "state")
  && isTruthy (prop (prop obj "state") "doc").

(** The keys [checkObject] descends into. *)
Definition qualifies (key : jsstring) : bool :=
  includes key (js "view")
  || includes key (js "prosemirror")
  || bool_decide (key = js "__view")
  || bool_decide (key = js "pmView").

Fixpoint checkObject (obj : Value) : option Value :=
  match obj with
  | Primitive _ => None
  | Object true _ => None
  | Object false ps =>
      if viewShaped obj then Some obj else checkProps ps
  end
with checkProps (ps : Props) : option Value :=
  match ps with
  | PNil => None
  | PCons key enumerable v rest =>
      if enumerable && qualifies key then
        match checkObject v with
        | Some result => Some result
        | None => checkProps rest
        end
      else checkProps rest
  end.

(** [v] is an enumerable property of [ps] under a key that qualifies. *)
Fixpoint child (ps : Props) (v : Value) : Prop :=
  match ps with
  | PNil => False
  | PCons key enumerable v' rest =>
      (enumerable = true /\ qualifies key = true /\ v' = v) \/ child rest v
  end.

(** [r] is [v] or lies below it along such properties of non-callable
    objects. *)
Inductive reaches : Value -> Value -> Prop :=
| reaches_here v : reaches v v
| reaches_below ps v r :
    child ps v -> reaches v r -> reaches (Object false ps) r.

(** What the routine meets in the page. [pmView] is the result of
    [findProseMirrorView] and [findError] the exception, if any, that
    escapes it; [dispatchError] is the exception, if any, of building
    and dispatching the transaction, [domError] the exception, if any,
    inside [setContentViaDOM]'s [try]; the two contents are the textarea
    as the 300 ms timer and the 200 ms timer after it find it. *)
Record Page := {
  textarea : bool;
  findError : option jsstring;
  pmView : option Value;
  dispatchError : option jsstring;
  domError : option jsstring;
  contentAt300 : Element;
  contentAt500 : Element
}.

(** [{ error: message }] *)
Definition failed (message : jsstring) : Broker.InjectionResult :=
  {| Broker.success := None; Broker.method := None;
     Broker.error := Some message |}.

Definition editorSuccess : Broker.InjectionResult :=
  {| Broker.success := Some true; Broker.method := Some Broker.direct_api;
     Broker.error := None |}.

(** [setContentViaDOM]: the assignments to [window.__prosemirrorResult],
    each with the time in ms after the call at which it is made. *)
Definition setContentViaDOM (page : Page) : list (nat * Broker.InjectionResult) :=
  match domError page with
  | Some message => [(0, failed (js "DOM manipulation error: " ++ message))]
  | None =>
      if nonBlank (visibleText (contentAt300 page)) then
        [(300, Broker.domSuccess)]
      else if nonBlank (visibleText (contentAt500 page)) then
        [(500, Broker.domSuccess)]
      else [(500, failed (js "DOM manipulation failed"))]
  end.

Definition injectProseMirrorCode (page : Page) : list (nat * Broker.InjectionResult) :=
  if negb (textarea page) then [(0, failed (js "Textarea not found"))]
  else
    match findError page with
    | Some message => [(0, failed message)]
    | None =>
        match pmView page with
        | Some view =>
            if isTruthy (prop view "dispatch") then
              match dispatchError page with
              | Some message => [(0, failed message)]
              | None => [(0, editorSuccess)]
              end
            else setContentViaDOM page
        | None => setContentViaDOM page
        end
    end.

(** [pmView && pmView.dispatch] *)
Definition usableView (page : Page) : bool :=
  match pmView page with
  | Some view => isTruthy (prop view "dispatch")
  | None => false
  end.

(** [window.__prosemirrorResult] at [time] ms, [before] being its value
    when the routine was called. *)
Definition markerAt (time : nat) (before : option Broker.InjectionResult)
    (writes : list (nat * Broker.InjectionResult)) : option Broker.InjectionResult :=
  fold_left (fun m w => if fst w <=? time then Some (snd w) else m) writes before.

(** A view as the editor exposes it: [dispatch] on the prototype,
    [state] with its [doc]. *)
Definition sampleView : Value :=
  Object false
    (PCons (js "state") true
       (Object false (PCons (js "doc") true (Object false PNil) PNil))
       (PCons (js "dispatch") false (Object true PNil) PNil)).

(** A component holding the view under [pmView], beside other fields. *)
Definition sampleHolder : Value :=
  Object false
    (PCons (js "children") true (Primitive true)
       (PCons (js "pmView") true sampleView PNil)).

(** The same view under [editorView]: the key has "View", not "view". *)
Definition hiddenHolder : Value :=
  Object false (PCons (js "editorView") true sampleView PNil).

End Injection.

(** ** The content script: [handlePrompt] and [setProseMirrorContent] *)

Module Orchestrator.

Inductive Effect :=
| ConsoleError (message : jsstring)
| Focus
| SendMessage (m : Message)
| Click
| DispatchEnter
| WaitForResponse.

(** What [chrome.runtime.sendMessage] does with the injection request:
    it runs the callback, with [chrome.runtime.lastError] set or not and
    a response or none, or it throws. *)
Inductive Reply :=
| Responds (lastError : option jsstring) (response : option Broker.Value)
| Throws.

(** The page during one [handlePrompt]: whether [#prompt-textarea]
    exists, the Broker's reply, the textarea when it is read again, and
    whether the send button exists when the 300 ms timer runs. *)
Record Page := {
  textareaFound : bool;
  reply : Reply;
  contentAtCheck : Element;
  sendButtonFound : bool
}.

Definition textareaMissing : jsstring :=
  js "ChatGPT Automator: Could not find textarea.".
Definition setFailed : jsstring :=
  js "ChatGPT Automator: Failed to set prompt text.".
Definition setError : jsstring :=
  js "ChatGPT Automator: Error setting content:".

Definition setProseMirrorContent (promptText : jsstring) (r : Reply)
    (textarea : Element) : bool * list Effect :=
  match r with
  | Throws => (false, [ConsoleError setError])
  | Responds lastError response =>
      let result :=
        match lastError with
        | Some message => Broker.ofResult (Broker.failure message)
        | None =>
            match response with
            | Some res =>
                Broker.orElse res (Broker.ofResult (Broker.failure (js "No response")))
            | None => Broker.ofResult (Broker.failure (js "No response"))
            end
        end in
      let contentCheck := visibleText textarea in
      (if 0 <? length (trim contentCheck) then true else false,
       [SendMessage (INJECT_PROSEMIRROR_SCRIPT promptText)])
  end.

Definition handlePrompt (promptText : jsstring) (page : Page) : list Effect :=
  if negb (textareaFound page) then [ConsoleError textareaMissing]
  else
    let r := setProseMirrorContent promptText (reply page) (contentAtCheck page) in
    Focus :: snd r ++
      (if negb (fst r) then [ConsoleError setFailed]
       else if sendButtonFound page then [Click; WaitForResponse]
       else [DispatchEnter; WaitForResponse]).

(** The content script's listener; it answers [{status: "started"}]
    at once. *)
Definition onMessage (request : Message) (page : Page) : list Effect :=
  match request with
  | PROMPT_CHATGPT prompt => handlePrompt prompt page
  | _ => []
  end.

(** The prompt was submitted: the button was clicked or Enter was
    dispatched. *)
Definition submitted (effects : list Effect) : bool :=
  existsb (fun e => match e with Click | DispatchEnter => true | _ => false end)
    effects.

(** The detector was started. *)
Definition detecting (effects : list Effect) : bool :=
  existsb (fun e => match e with WaitForResponse => true | _ => false end)
    effects.

(** The messages put on the bus. *)
Definition sent (effects : list Effect) : list Message :=
  omap (fun e => match e with SendMessage m => Some m | _ => None end) effects.

(** The Broker reports success, yet the textarea is empty when it is
    read again. *)
Definition falsePositivePage : Page :=
  {| textareaFound := true;
     reply := Responds None (Some (Broker.ofResult Broker.domSuccess));
     contentAtCheck := {| textContent := []; innerText := [] |};
     sendButtonFound := true |}.

(** The Broker reports a failure, yet the textarea shows the text. *)
Definition falseNegativePage : Page :=
  {| textareaFound := true;
     reply := Responds None
                (Some (Broker.ofResult (Broker.failure (js "DOM manipulation failed"))));
     contentAtCheck := Broker.textarea "hi";
     sendButtonFound := false |}.

(** [chrome.runtime.sendMessage] throws (the extension was reloaded,
    say) while the textarea shows the text. *)
Definition throwingPage : Page :=
  {| textareaFound := true;
     reply := Throws;
     contentAtCheck := Broker.textarea "hi";
     sendButtonFound := true |}.

(** The Broker reports a failure and the textarea holds two blanks. *)
Definition blanksPage : Page :=
  {| textareaFound := true;
     reply := Responds None
                (Some (Broker.ofResult (Broker.failure (js "DOM manipulation failed"))));
     contentAtCheck := Broker.textarea "  ";
     sendButtonFound := true |}.

End Orchestrator.

(** ** The caller's side: class [ChatGPTAPI] *)

Module Facade.

(** The values a caller may pass as [prompt]. *)
Inductive JSValue :=
| undefined
| null
| boolean (b : bool)
| number (n : Z)
| str (s : jsstring)
| object.

Definition truthy (v : JSValue) : bool :=
  match v with
  | undefined | null => false
  | boolean b => b
  | number n => negb (n =? 0)%Z
  | str s => match s with [] => false | _ => true end
  | object => true
  end.

(** The [Error]s the class creates, by message:
    - [NotInitialized]: "API not initialized. Call initialize() first."
    - [InvalidPrompt]: "Prompt must be a non-empty string"
    - [RequestTimeout t]: "Request timeout after t seconds"
    - [TabNotFound]: "ChatGPT tab not found. Please open ChatGPT in a
      browser tab."
    - [SendFailed m]: "Failed to send prompt: m. Please refresh the
      ChatGPT page."
    - [Thrown m]: an exception raised inside the [try] block by the
      progress callback or the browser. *)
Inductive Error :=
| NotInitialized
| InvalidPrompt
| RequestTimeout (seconds : Z)
| TabNotFound
| SendFailed (lastError : jsstring)
| Thrown (message : jsstring).

(** A call of the promise's [resolve] or [reject]. *)
Inductive Settle :=
| resolve (responseText : jsstring)
| reject (e : Error).

Record Tab := {
  id : nat;
  url : option jsstring
}.

Record Options := {
  (** [options.timeout], in seconds *)
  timeout : option Z
}.

(** Where the promise's async executor stands: suspended at
    [await this._getChatGPTTab()], waiting for the callback of
    [chrome.tabs.sendMessage], or done. *)
Inductive Stage := AwaitingTab | AwaitingAck | Finished.

(** The variables of one [sendPrompt] call that its closures
    ([responseHandler], the timer callback, the send callback) share. *)
Record Request := {
  prompt : jsstring;
  seconds : Z;
  resolved : bool;
  (** the timer behind [timeoutId] is still pending *)
  timer : bool;
  (** the calls of [resolve] and [reject], in order *)
  settled : list Settle;
  (** the calls of [onProgress], in order *)
  progress : list jsstring;
  stage : Stage
}.

(** The instance ([isInitialized], [messageListener],
    [responseListeners]) and what it has set up in the browser. A
    [responseHandler] closure is identified by the number of its request;
    the [Set] keeps insertion order. *)
Record World := {
  isInitialized : bool;
  messageListener : bool;
  responseListeners : list nat;
  requests : gmap nat Request;
  nextRequest : nat;
  (** listeners added to [chrome.runtime.onMessage] *)
  busListeners : nat;
  (** [chrome.tabs.sendMessage(tab.id, message, ...)] calls *)
  tabMessages : list (nat * Message)
}.

(** [new ChatGPTAPI()] in a fresh page. *)
Definition create : World :=
  {| isInitialized := false;
     messageListener := false;
     responseListeners := [];
     requests := ∅;
     nextRequest := 0;
     busListeners := 0;
     tabMessages := [] |}.

Definition initialize (w : World) : World :=
  if isInitialized w then w
  else
    {| isInitialized := true;
       messageListener := true;
       responseListeners := responseListeners w;
       requests := requests w;
       nextRequest := nextRequest w;
       busListeners :=
         if messageListener w then busListeners w else S (busListeners w);
       tabMessages := tabMessages w |}.

(** *** Updates of one request's variables *)

Definition withRequests (f : gmap nat Request -> gmap nat Request)
    (listeners : list nat -> list nat) (w : World) : World :=
  {| isInitialized := isInitialized w;
     messageListener := messageListener w;
     responseListeners := listeners (responseListeners w);
     requests := f (requests w);
     nextRequest := nextRequest w;
     busListeners := busListeners w;
     tabMessages := tabMessages w |}.

(** [resolved = true] *)
Definition markResolved (q : Request) : Request :=
  {| prompt := prompt q; seconds := seconds q; resolved := true;
     timer := timer q; settled := settled q; progress := progress q;
     stage := stage q |}.

(** [clearTimeout(timeoutId)], and the timer once it has fired *)
Definition clearTimeout (q : Request) : Request :=
  {| prompt := prompt q; seconds := seconds q; resolved := resolved q;
     timer := false; settled := settled q; progress := progress q;
     stage := stage q |}.

(** [resolve(...)] or [reject(...)] *)
Definition call (c : Settle) (q : Request) : Request :=
  {| prompt := prompt q; seconds := seconds q; resolved := resolved q;
     timer := timer q; settled := settled q ++ [c]; progress := progress q;
     stage := stage q |}.

(** [onProgress(...)] *)
Definition report (status : string) (q : Request) : Request :=
  {| prompt := prompt q; seconds := seconds q; resolved := resolved q;
     timer := timer q; settled := settled q; progress := progress q ++ [js status];
     stage := stage q |}.

Definition atStage (st : Stage) (q : Request) : Request :=
  {| prompt := prompt q; seconds := seconds q; resolved := resolved q;
     timer := timer q; settled := settled q; progress := progress q;
     stage := st |}.

(** Change request [r]'s variables and leave the listener set. *)
Definition update (r : nat) (f : Request -> Request) (w : World) : World :=
  withRequests (alter f r) (fun l => l) w.

(** [this.responseListeners.delete(responseHandler)] *)
Definition deleteListener (r : nat) (w : World) : World :=
  withRequests (fun m => m) (filter (fun h => h <> r)) w.

(** [this.responseListeners.add(responseHandler)] *)
Definition addListener (r : nat) (w : World) : World :=
  withRequests (fun m => m)
    (fun l => if decide (r ∈ l) then l else l ++ [r]) w.

(** *** The closures of [sendPrompt] *)

Definition responseHandler (r : nat) (responseText : jsstring) (w : World) : World :=
  match requests w !! r with
  | None => w
  | Some q =>
      if resolved q then w
      else
        deleteListener r
          (update r (fun q => call (resolve responseText)
                                (clearTimeout (markResolved q))) w)
  end.

(** The callback given to [setTimeout]. *)
Definition timeoutCallback (r : nat) (w : World) : World :=
  match requests w !! r with
  | None => w
  | Some q =>
      if resolved q then w
      else
        deleteListener r
          (update r (fun q => call (reject (RequestTimeout (seconds q)))
                                (markResolved q)) w)
  end.

(** The [catch (error)] block. *)
Definition catchBlock (r : nat) (e : Error) (w : World) : World :=
  match requests w !! r with
  | None => w
  | Some q =>
      if resolved q then w
      else
        deleteListener r
          (update r (fun q => call (reject e) (clearTimeout (markResolved q))) w)
  end.

(** [_getChatGPTTab]: [tabs] is [None] when [chrome.tabs.query] rejects. *)
Definition isChatGPT (tab : Tab) : bool :=
  match url tab with
  | Some u =>
      match u with
      | [] => false
      | _ => includes u (js "chatgpt.com") || includes u (js "chat.openai.com")
      end
  | None => false
  end.

Definition _getChatGPTTab (tabs : option (list Tab)) : option Tab :=
  match tabs with
  | Some l => List.find isChatGPT l
  | None => None
  end.

Definition postToTab (tab : Tab) (m : Message) (w : World) : World :=
  {| isInitialized := isInitialized w;
     messageListener := messageListener w;
     responseListeners := responseListeners w;
     requests := requests w;
     nextRequest := nextRequest w;
     busListeners := busListeners w;
     tabMessages := tabMessages w ++ [(id tab, m)] |}.

(** The [try] block after [await this._getChatGPTTab()] has resumed.
    [raised] is the exception, if any, that the caller's [onProgress]
    throws. *)
Definition afterTabLookup (r : nat) (tabs : option (list Tab))
    (raised : option jsstring) (w : World) : World :=
  match requests w !! r with
  | None => w
  | Some q =>
      match _getChatGPTTab tabs with
      | None =>
          if resolved q then update r (atStage Finished) w
          else
            (* resolved = true; clearTimeout; delete; throw: the
               exception lands in the catch block *)
            catchBlock r TabNotFound
              (deleteListener r
                 (update r (fun q => atStage Finished
                                       (clearTimeout (markResolved q))) w))
      | Some tab =>
          match raised with
          | Some message =>
              catchBlock r (Thrown message) (update r (atStage Finished) w)
          | None =>
              postToTab tab (PROMPT_CHATGPT (trim (prompt q)))
                (update r (fun q => atStage AwaitingAck
                                      (report "Sending prompt..." q)) w)
          end
      end
  end.

(** The callback of [chrome.tabs.sendMessage]. *)
Definition sendCallback (r : nat) (lastError : option jsstring) (w : World) : World :=
  match requests w !! r with
  | None => w
  | Some q =>
      match lastError with
      | Some message =>
          if resolved q then update r (atStage Finished) w
          else
            deleteListener r
              (update r (fun q => atStage Finished
                                    (call (reject (SendFailed message))
                                       (clearTimeout (markResolved q)))) w)
      | None =>
          update r (fun q => atStage Finished
                                (report "Waiting for response..." q)) w
      end
  end.

(** *** [sendPrompt] up to its first [await] *)

(** [!prompt || typeof prompt !== 'string' || prompt.trim().length === 0] *)
Definition invalidPrompt (p : JSValue) : bool :=
  negb (truthy p)
  || match p with str _ => false | _ => true end
  || match p with str s => length (trim s) =? 0 | _ => false end.

Definition promptString (p : JSValue) : jsstring :=
  match p with str s => s | _ => [] end.

(** [options.timeout || 300] *)
Definition timeoutOf (o : Options) : Z :=
  match timeout o with
  | Some t => if (t =? 0)%Z then 300%Z else t
  | None => 300%Z
  end.

(** The result is the error the returned promise is rejected with at
    once, or the number of the request whose promise is pending. *)
Definition sendPrompt (p : JSValue) (o : Options) (w : World)
  : World * (Error + nat) :=
  if negb (isInitialized w) then (w, inl NotInitialized)
  else if invalidPrompt p then (w, inl InvalidPrompt)
  else
    let r := nextRequest w in
    let q := {| prompt := promptString p; seconds := timeoutOf o;
                resolved := false; timer := true; settled := [];
                progress := []; stage := AwaitingTab |} in
    (addListener r
       {| isInitialized := isInitialized w;
          messageListener := messageListener w;
          responseListeners := responseListeners w;
          requests := <[r := q]> (requests w);
          nextRequest := S r;
          busListeners := busListeners w;
          tabMessages := tabMessages w |},
     inr r).

(** *** Messages from the bus *)

(** [forEach] over the listener set: a handler still in the set when
    its turn comes is called. *)
Fixpoint forEachListener (handlers : list nat) (responseText : jsstring)
    (w : World) : World :=
  match handlers with
  | [] => w
  | h :: handlers' =>
      forEachListener handlers' responseText
        (if decide (h ∈ responseListeners w) then responseHandler h responseText w
         else w)
  end.

Definition _handleResponse (responseText : jsstring) (w : World) : World :=
  forEachListener (responseListeners w) responseText w.

(** [this.messageListener] *)
Definition onMessage (message : Message) (w : World) : World :=
  match message with
  | CAPTURED_RESPONSE text => _handleResponse text w
  | _ => w
  end.

(** *** What the browser does with the instance *)

Inductive Event :=
(** the timer of request [r] fires *)
| TimerFires (r : nat)
(** [chrome.tabs.query] settles for request [r] *)
| TabsQueried (r : nat) (tabs : option (list Tab)) (raised : option jsstring)
(** the callback of [chrome.tabs.sendMessage] runs *)
| Acknowledged (r : nat) (lastError : option jsstring)
(** a message arrives on [chrome.runtime.onMessage] *)
| Received (m : Message).

(** A callback runs only where the browser can run it: a pending timer,
    an executor suspended at that point, a registered listener. *)
Definition step (e : Event) (w : World) : World :=
  match e with
  | TimerFires r =>
      match requests w !! r with
      | Some q =>
          if timer q then timeoutCallback r (update r clearTimeout w) else w
      | None => w
      end
  | TabsQueried r tabs raised =>
      match requests w !! r with
      | Some q =>
          match stage q with
          | AwaitingTab => afterTabLookup r tabs raised w
          | _ => w
          end
      | None => w
      end
  | Acknowledged r lastError =>
      match requests w !! r with
      | Some q =>
          match stage q with
          | AwaitingAck => sendCallback r lastError w
          | _ => w
          end
      | None => w
      end
  | Received m => Nat.iter (busListeners w) (onMessage m) w
  end.

Definition steps (events : list Event) (w : World) : World :=
  fold_left (fun w e => step e w) events w.

(** The promise of request [r]: the first call settles it. *)
Definition promise (r : nat) (w : World) : option Settle :=
  match requests w !! r with
  | Some q => head (settled q)
  | None => None
  end.

(** How often [resolve] or [reject] was called for request [r]. *)
Definition settlements (r : nat) (w : World) : nat :=
  match requests w !! r with
  | Some q => length (settled q)
  | None => 0
  end.

(** *** What a program does with the instance *)

Inductive Action :=
| Initialize
| SendPrompt (p : JSValue) (o : Options)
| Browser (e : Event).

Definition act (a : Action) (w : World) : World :=
  match a with
  | Initialize => initialize w
  | SendPrompt p o => fst (sendPrompt p o w)
  | Browser e => step e w
  end.

Definition acts (l : list Action) (w : World) : World :=
  fold_left (fun w a => act a w) l w.

(** The bookkeeping of one request: [resolve] or [reject] was called at
    most once, never before [resolved] was set, and once [resolved] is
    set the timer is gone and the handler is out of the listener set. *)
Definition requestOk (w : World) (r : nat) (q : Request) : Prop :=
  length (settled q) <= 1
  /\ (resolved q = false -> settled q = [])
  /\ (resolved q = true -> timer q = false /\ r ∉ responseListeners w).

Definition consistent (w : World) : Prop :=
  forall r q, requests w !! r = Some q -> requestOk w r q.

(** Every handler in the listener set belongs to a request. *)
Definition registered (w : World) : Prop :=
  forall r, r ∈ responseListeners w -> is_Some (requests w !! r).

(** From [w] to [w'] no request is dropped and no handler is added. *)
Definition shrinks (w w' : World) : Prop :=
  (forall r, is_Some (requests w !! r) -> is_Some (requests w' !! r))
  /\ (forall r, r ∈ responseListeners w' -> r ∈ responseListeners w).

(** Request [r] has its [resolved] flag set and [calls] were its
    settling calls. *)
Definition final (r : nat) (calls : list Settle) (w : World) : Prop :=
  exists q, requests w !! r = Some q /\ resolved q = true
            /\ settled q = calls /\ r < nextRequest w.

(** An open ChatGPT tab and a tab of another site. *)
Definition chatTab : Tab :=
  {| id := 7; url := Some (js "https://chatgpt.com/c/42") |}.

Definition otherTab : Tab :=
  {| id := 3; url := Some (js "https://example.org/") |}.

Definition defaults : Options := {| timeout := None |}.

(** [isAvailable()]: [tab !== null] for the tab [_getChatGPTTab] gives. *)
Definition isAvailable (tabs : option (list Tab)) : bool :=
  match _getChatGPTTab tabs with
  | Some _ => true
  | None => false
  end.

(** [createChatGPTAPI()] in a fresh page. *)
Definition createChatGPTAPI : World := initialize create.

(** From [w] to [w'] the instance's flags, the bus and the request
    counter are the same, the same requests exist, and the listener set
    has only lost handlers. *)
Definition evolves (w w' : World) : Prop :=
  isInitialized w' = isInitialized w
  /\ messageListener w' = messageListener w
  /\ busListeners w' = busListeners w
  /\ nextRequest w' = nextRequest w
  /\ (forall r, is_Some (requests w' !! r) <-> is_Some (requests w !! r))
  /\ responseListeners w' `sublist_of` responseListeners w.

(** The listener set has no handler twice, handlers and requests are
    numbered below the counter, and the bus has the one listener of an
    instance whose [messageListener] is set, none otherwise. *)
Definition wellFormed (w : World) : Prop :=
  NoDup (responseListeners w)
  /\ (forall r, r ∈ responseListeners w -> r < nextRequest w)
  /\ (forall r, is_Some (requests w !! r) -> r < nextRequest w)
  /\ busListeners w = (if messageListener w then 1 else 0)
  /\ (isInitialized w = true -> messageListener w = true).

(** A new instance whose one request has been posted to the ChatGPT
    tab and waits for the acknowledgement. *)
Definition sending : World :=
  step (TabsQueried 0 (Some [chatTab]) None)
    (fst (sendPrompt (str (js "hi")) {| timeout := None |} (initialize create))).

(** The hosts [_getChatGPTTab] looks for. *)
Definition hosts : list jsstring := [js "chatgpt.com"; js "chat.openai.com"].

(** A new instance, initialized, with two [sendPrompt] calls under way:
    requests 0 and 1. *)
Definition twoPending (p1 p2 : JSValue) (o1 o2 : Options) : World :=
  fst (sendPrompt p2 o2 (fst (sendPrompt p1 o1 (initialize create)))).

(** A new instance whose one request has reached the ChatGPT tab and
    waits for the captured response. *)
Definition waiting : World :=
  steps [TabsQueried 0 (Some [otherTab; chatTab]) None; Acknowledged 0 None]
    (fst (sendPrompt (str (js "hi")) defaults (initialize create))).

(** What one callback can do to a request: [prompt] and [seconds] stay,
    [resolve] and [reject] calls and progress reports are only added. A
    call added is a [resolve], a rejection with the timeout of the
    request's own [seconds], or a rejection with a send failure; a report
    added is one of the two progress texts. *)
Definition expected (q : Request) (c : Settle) : Prop :=
  match c with
  | resolve _ => True
  | reject (RequestTimeout t) => t = seconds q
  | reject (SendFailed _) => True
  | reject _ => False
  end.

Definition progressTexts : list jsstring :=
  [js "Sending prompt..."; js "Waiting for response..."].

Definition advances (q q' : Request) : Prop :=
  prompt q' = prompt q /\ seconds q' = seconds q
  /\ exists calls statuses,
       settled q' = settled q ++ calls
       /\ progress q' = progress q ++ statuses
       /\ Forall (expected q) calls
       /\ Forall (fun status => status ∈ progressTexts) statuses.

Definition Advances (w w' : World) : Prop :=
  forall r q, requests w !! r = Some q ->
    exists q', requests w' !! r = Some q' /\ advances q q'.

(** The caller's [onProgress] does not throw. *)
Definition noRaise (e : Event) : Prop :=
  match e with
  | TabsQueried _ _ (Some _) => False
  | _ => True
  end.

End Facade.

(** ** The popup: the [DOMContentLoaded] handler *)

Module Popup.
Import Facade.

(** What the script writes into [statusMsg.textContent]:
    - [literal s]: the string [s];
    - [responseCaptured n]: "Response captured! (n chars)";
    - [errorMessage e]: "Error: " followed by the message of [e]. *)
Inductive StatusText :=
| literal (s : jsstring)
| responseCaptured (chars : nat)
| errorMessage (e : Error).

(** The elements the script reads and writes. *)
Record UI := {
  (** [promptInput.value] *)
  promptInput : jsstring;
  (** [statusMsg.textContent] *)
  statusMsg : StatusText;
  (** [statusMsg.style.color] is '#d32f2f' and not '#666' *)
  statusError : bool;
  (** [sendBtn.disabled] *)
  sendBtn : bool;
  (** [randomBtn.disabled] *)
  randomBtn : bool;
  (** [responseArea.style.display] is 'block' and its class list has
      'show'; the script sets and clears the two together *)
  responseArea : bool;
  (** [responseText.textContent] *)
  responseText : jsstring
}.

Definition randomPrompts : list jsstring :=
  [js "Explain the theory of relativity to a 5-year-old.";
   js "Write a haiku about a brave toaster.";
   js "What are three unique benefits of drinking water?";
   js "Generate a random sci-fi movie plot involving time travel.";
   js "List 5 uncommon ingredients to put on pizza.";
   js "Explain how a blockchain works in one paragraph.";
   js "Write a short poem about coding errors.";
   js "What is the distance between the Earth and the Moon?";
   js "Give me a fun fact about octopuses.";
   js "Write a JavaScript function to filter even numbers."].

Definition setStatus (msg : StatusText) (isError : bool) (u : UI) : UI :=
  {| promptInput := promptInput u;
     statusMsg := msg;
     statusError := isError;
     sendBtn := sendBtn u;
     randomBtn := randomBtn u;
     responseArea := responseArea u;
     responseText := responseText u |}.

Definition setLoading (loading : bool) (u : UI) : UI :=
  {| promptInput := promptInput u;
     statusMsg := statusMsg u;
     statusError := statusError u;
     sendBtn := loading;
     randomBtn := loading;
     responseArea := if loading then false else responseArea u;
     responseText := responseText u |}.

(** [responseText.textContent = response] and the response area shown. *)
Definition display (response : jsstring) (u : UI) : UI :=
  {| promptInput := promptInput u;
     statusMsg := statusMsg u;
     statusError := statusError u;
     sendBtn := sendBtn u;
     randomBtn := randomBtn u;
     responseArea := true;
     responseText := response |}.

(** [promptInput.value = value] *)
Definition setInput (value : jsstring) (u : UI) : UI :=
  {| promptInput := value;
     statusMsg := statusMsg u;
     statusError := statusError u;
     sendBtn := sendBtn u;
     randomBtn := randomBtn u;
     responseArea := responseArea u;
     responseText := responseText u |}.

(** Where a call of [executePrompt] stands: none under way, suspended at
    [await chatGPTAPI.isAvailable()], or suspended at
    [await chatGPTAPI.sendPrompt(...)] on the promise of request [r]. *)
Inductive Phase :=
| Idle
| Checking (promptText : jsstring)
| Waiting (r : nat).

(** The page, the variable [chatGPTAPI] ([None] when it is undefined)
    and the call of [executePrompt] under way. *)
Record State := {
  ui : UI;
  chatGPTAPI : option World;
  phase : Phase
}.

(** The handler up to the definition of [executePrompt]. [raised] says
    that [createChatGPTAPI()] throws. *)
Definition load (page : UI) (raised : bool) : State :=
  if raised then
    {| ui := setStatus (literal (js "Failed to initialize API")) true page;
       chatGPTAPI := None;
       phase := Idle |}
  else
    {| ui := setStatus (literal (js "Ready")) false page;
       chatGPTAPI := Some createChatGPTAPI;
       phase := Idle |}.

(** [executePrompt] up to [await chatGPTAPI.isAvailable()]. *)
Definition executePrompt (promptText : jsstring) (st : State) : State :=
  if negb (nonBlank promptText) then
    {| ui := setStatus (literal (js "Please enter a prompt.")) true (ui st);
       chatGPTAPI := chatGPTAPI st;
       phase := phase st |}
  else
    match chatGPTAPI st with
    | None =>
        {| ui := setStatus (literal (js "API not initialized")) true (ui st);
           chatGPTAPI := None;
           phase := phase st |}
    | Some w =>
        {| ui := setLoading true
                   (setStatus (literal (js "Sending prompt...")) false (ui st));
           chatGPTAPI := Some w;
           phase := Checking promptText |}
    end.

(** The [catch (error)] block of [executePrompt]. *)
Definition caught (e : Error) (u : UI) : UI :=
  setLoading false (setStatus (errorMessage e) true u).

(** [executePrompt] after [await chatGPTAPI.sendPrompt(...)] has given
    [response]. The scrolling and the console line are left out. *)
Definition afterResponse (response : jsstring) (u : UI) : UI :=
  if negb (nonBlank response) then
    setLoading false
      (setStatus (literal (js "Error: Empty response received")) true u)
  else
    setLoading false
      (display response
         (setStatus (responseCaptured (length response)) false u)).

Definition settle (s : Settle) (u : UI) : UI :=
  match s with
  | resolve response => afterResponse response u
  | reject e => caught e u
  end.

(** [executePrompt] from the point where [isAvailable()] has listed
    [tabs], up to [await chatGPTAPI.sendPrompt(promptText,
    { onProgress })]. *)
Definition afterAvailable (tabs : option (list Tab)) (st : State) : State :=
  match phase st, chatGPTAPI st with
  | Checking promptText, Some w =>
      if negb (isAvailable tabs) then
        {| ui := setLoading false
                   (setStatus
                      (literal (js "Error: Open ChatGPT in a browser tab first."))
                      true (ui st));
           chatGPTAPI := Some w;
           phase := Idle |}
      else
        match sendPrompt (str promptText) defaults w with
        | (w', inr r) =>
            {| ui := ui st; chatGPTAPI := Some w'; phase := Waiting r |}
        | (w', inl e) =>
            {| ui := caught e (ui st); chatGPTAPI := Some w'; phase := Idle |}
        end
  | _, _ => st
  end.

(** The callbacks the browser runs in the instance the popup has made:
    the events of the class, with the popup's [onProgress], which does
    not throw. *)
Inductive Callback :=
| Timer (r : nat)
| Tabs (r : nat) (tabs : option (list Tab))
| Ack (r : nat) (lastError : option jsstring)
| Bus (m : Message).

Definition eventOf (c : Callback) : Event :=
  match c with
  | Timer r => TimerFires r
  | Tabs r tabs => TabsQueried r tabs None
  | Ack r lastError => Acknowledged r lastError
  | Bus m => Received m
  end.

Definition progressOf (r : nat) (w : World) : list jsstring :=
  match requests w !! r with
  | Some q => progress q
  | None => []
  end.

(** The [onProgress] calls a callback makes, taking the instance from
    [w] to [w']. *)
Definition reported (c : Callback) (w w' : World) : list jsstring :=
  match c with
  | Timer r | Tabs r _ | Ack r _ =>
      drop (length (progressOf r w)) (progressOf r w')
  | Bus _ => []
  end.

(** [onProgress: (status) => { setStatus(status); }] *)
Definition onProgress (status : jsstring) (u : UI) : UI :=
  setStatus (literal status) false u.

(** One callback: the class's closures run, with their progress reports
    written to the status line; when that settles the promise
    [executePrompt] awaits, [executePrompt] goes on. *)
Definition browser (c : Callback) (st : State) : State :=
  match chatGPTAPI st with
  | None => st
  | Some w =>
      let w' := step (eventOf c) w in
      let u := fold_left (fun u status => onProgress status u)
                 (reported c w w') (ui st) in
      match phase st with
      | Waiting r =>
          match promise r w' with
          | Some s => {| ui := settle s u; chatGPTAPI := Some w'; phase := Idle |}
          | None => {| ui := u; chatGPTAPI := Some w'; phase := Waiting r |}
          end
      | ph => {| ui := u; chatGPTAPI := Some w'; phase := ph |}
      end
  end.

(** What happens to the popup. A disabled button gets no click, so
    [executePrompt] is called only while no call is under way.
    [ClickRandom i] is a click with
    [Math.floor(Math.random() * randomPrompts.length) = i]. *)
Inductive Input :=
| Typed (value : jsstring)
| ClickSend
| ClickRandom (i : nat)
| TabsListed (tabs : option (list Tab))
| Called (c : Callback).

Definition withUI (f : UI -> UI) (st : State) : State :=
  {| ui := f (ui st); chatGPTAPI := chatGPTAPI st; phase := phase st |}.

Definition handle (i : Input) (st : State) : State :=
  match i with
  | Typed value => withUI (setInput value) st
  | ClickSend =>
      if sendBtn (ui st) then st else executePrompt (promptInput (ui st)) st
  | ClickRandom i =>
      if randomBtn (ui st) then st
      else
        match randomPrompts !! i with
        | Some randomPrompt =>
            executePrompt randomPrompt (withUI (setInput randomPrompt) st)
        | None => st
        end
  | TabsListed tabs => afterAvailable tabs st
  | Called c => browser c st
  end.

Definition run (inputs : list Input) (st : State) : State :=
  fold_left (fun st i => handle i st) inputs st.

(** The status texts of the script, and what the status line can show:
    one of them, a count of characters, or the message of an error. *)
Definition statusTexts : list jsstring :=
  [js "Ready"; js "Failed to initialize API"; js "Please enter a prompt.";
   js "API not initialized"; js "Sending prompt..."; js "Waiting for response...";
   js "Error: Open ChatGPT in a browser tab first.";
   js "Error: Empty response received"].

Definition displayable (t : StatusText) : Prop :=
  match t with
  | literal s => s ∈ statusTexts
  | responseCaptured chars => 0 < chars
  | errorMessage e => e = RequestTimeout 300 \/ exists m, e = SendFailed m
  end.

(** The popup's instance is one a program can reach, it is initialized
    and every request has the default timeout; a call suspended at
    [isAvailable()] has a prompt that is not blank, and the promise a
    call suspended at [sendPrompt] awaits is not settled. Without an
    instance no call is under way. *)
Definition sound (st : State) : Prop :=
  match chatGPTAPI st with
  | None => phase st = Idle
  | Some w =>
      (exists l, w = acts l create)
      /\ isInitialized w = true
      /\ (forall r q, requests w !! r = Some q -> seconds q = 300%Z)
      /\ match phase st with
         | Idle => True
         | Checking promptText => nonBlank promptText = true
         | Waiting r => is_Some (requests w !! r) /\ promise r w = None
         end
  end.

(** The two buttons go together, they are disabled exactly while a call
    is under way, and the response area is shown only between calls,
    with a text that is not blank. *)
Definition tidy (st : State) : Prop :=
  sendBtn (ui st) = randomBtn (ui st)
  /\ (sendBtn (ui st) = true <-> phase st <> Idle)
  /\ (responseArea (ui st) = true ->
      phase st = Idle /\ nonBlank (responseText (ui st)) = true).

(** The call under way awaits the promise of request [r], which has its
    [resolved] flag set without a call of [resolve] or [reject]; both
    buttons are disabled and the response area is hidden. *)
Definition locked (r : nat) (st : State) : Prop :=
  phase st = Waiting r
  /\ sendBtn (ui st) = true /\ randomBtn (ui st) = true
  /\ responseArea (ui st) = false
  /\ exists w, chatGPTAPI st = Some w /\ final r [] w.

(** The messages of a detector, as they arrive on the popup's bus. *)
Definition deliver (messages : list Message) : list Input :=
  map (fun m => Called (Bus m)) messages.

(** A page with both buttons enabled and the response area hidden. *)
Definition blankPage : UI :=
  {| promptInput := [];
     statusMsg := literal [];
     statusError := false;
     sendBtn := false;
     randomBtn := false;
     responseArea := false;
     responseText := [] |}.

(** The user types "hi" and clicks Send. *)
Definition asking : list Input := [Typed (js "hi"); ClickSend].

(** After that, a ChatGPT tab is found twice and the content script
    acknowledges the prompt. *)
Definition asked : list Input :=
  asking ++ [TabsListed (Some [chatTab]);
             Called (Tabs 0 (Some [otherTab; chatTab]));
             Called (Ack 0 None)].

End Popup.

(** * Properties *)

(** ** The string helpers on sample inputs *)

Module JSFacts.

Example trim_sample : trim (js "  hi there  ") = js "hi there".
Proof. reflexivity. Qed.

Example trim_line_terminators : trim [0x0A; 0x68; 0x69; 0x0D; 0x0A; 0xA0]%N = js "hi".
Proof. reflexivity. Qed.

Example trim_blank : trim (js "   ") = [].
Proof. reflexivity. Qed.

Example includes_host :
  includes (js "https://chatgpt.com/c/42") (js "chatgpt.com") = true
  /\ includes (js "https://example.org/") (js "chatgpt.com") = false.
Proof. split; reflexivity. Qed.

Example locator_sample :
  Facade._getChatGPTTab (Some [Facade.otherTab; Facade.chatTab]) = Some Facade.chatTab
  /\ Facade._getChatGPTTab (Some [Facade.otherTab]) = None
  /\ Facade._getChatGPTTab None = None.
Proof. repeat split; reflexivity. Qed.

End JSFacts.

(** ** Blank strings and substrings *)

Module JSMore.

Lemma trimStart_nil s :
  trimStart s = [] <-> Forall (fun c => isWhiteSpace c = true) s.
Proof.
  induction s as [|c s IH]; simpl; [by split|].
  destruct (isWhiteSpace c) eqn:E.
  - rewrite IH. split; [by constructor|]. by inversion 1.
  - split; [done|]. inversion 1; congruence.
Qed.

Lemma trimStart_suffix s : exists pre, s = pre ++ trimStart s
  /\ Forall (fun c => isWhiteSpace c = true) pre.
Proof.
  induction s as [|c s (pre & IH & Hpre)]; simpl; [by exists []|].
  destruct (isWhiteSpace c) eqn:E; [|by exists []].
  exists (c :: pre). split; [by rewrite IH at 1 | by constructor].
Qed.

(** [s.trim()] is empty exactly when [s] holds white space only. *)
Lemma trim_nil s :
  trim s = [] <-> Forall (fun c => isWhiteSpace c = true) s.
Proof.
  unfold trim. split.
  - intros H. apply (f_equal (@rev N)) in H. rewrite rev_involutive in H.
    simpl in H. apply trimStart_nil in H.
    destruct (trimStart_suffix s) as (pre & Hs & Hpre). rewrite Hs.
    apply Forall_app. split; [done|].
    apply List.Forall_rev in H. by rewrite rev_involutive in H.
  - intros H. apply (proj2 (trimStart_nil s)) in H. rewrite H. done.
Qed.

Lemma nonBlank_spec s :
  nonBlank s = true <-> exists c, In c s /\ isWhiteSpace c = false.
Proof.
  unfold nonBlank. rewrite Nat.ltb_lt. split.
  - intros Hlen.
    destruct (decide (Exists (fun c => isWhiteSpace c = false) s)) as [He|Hn].
    + apply List.Exists_exists in He. exact He.
    + assert (trim s = []) as Hnil.
      { apply trim_nil. apply List.Forall_forall. intros c Hc.
        destruct (isWhiteSpace c) eqn:E; [done|].
        destruct Hn. apply List.Exists_exists. eauto. }
      rewrite Hnil in Hlen. simpl in Hlen. lia.
  - intros (c & Hin & Hc).
    destruct (trim s) as [|c' s'] eqn:E; [|simpl; lia].
    apply trim_nil in E. rewrite List.Forall_forall in E.
    rewrite (E c Hin) in Hc. done.
Qed.

Lemma startsWith_spec s pat :
  startsWith s pat = true <-> exists post, s = pat ++ post.
Proof.
  revert s. induction pat as [|p pat IH]; intros s.
  - split; [by exists s | by destruct s].
  - destruct s as [|c s]; simpl.
    + split; [done | by intros (post & [=])].
    + rewrite andb_true_iff, N.eqb_eq, IH. split.
      * intros [-> (post & ->)]. by exists post.
      * intros (post & [= -> ->]). eauto.
Qed.

(** [s.includes(pat)] holds exactly when [pat] sits somewhere in [s]. *)
Lemma includes_spec s pat :
  includes s pat = true <-> exists pre post, s = pre ++ pat ++ post.
Proof.
  induction s as [|c s IH]; cbn [includes].
  - rewrite orb_false_r, startsWith_spec. split.
    + intros (post & H). by exists [], post.
    + intros (pre & post & H). destruct pre; [by exists post|done].
  - rewrite orb_true_iff, IH. split.
    + intros [H|(pre & post & ->)].
      * apply startsWith_spec in H as (post & H). by exists [], post.
      * by exists (c :: pre), post.
    + intros (pre & post & H). destruct pre as [|c' pre].
      * left. apply startsWith_spec. by exists post.
      * right. injection H as -> ->. eauto.
Qed.

End JSMore.

Module DetectorFacts.
Import Detector.

Lemma run_app ticks1 ticks2 s :
  run (ticks1 ++ ticks2) s =
  (fst (run ticks2 (fst (run ticks1 s))),
   snd (run ticks1 s) ++ snd (run ticks2 (fst (run ticks1 s)))).
Proof.
  revert s. induction ticks1 as [|[t doc] ticks1 IH]; intros s; simpl.
  - by destruct (run ticks2 s).
  - rewrite IH. simpl. by rewrite app_assoc.
Qed.

Lemma run_released ticks s :
  released s -> run ticks s = (s, []).
Proof.
  intros [Ho Hi]. induction ticks as [|[t doc] ticks IH]; simpl; [done|].
  assert (fire t doc s = (s, [])) as ->.
  { destruct t; simpl; by rewrite ?Ho, ?Hi. }
  simpl. by rewrite IH.
Qed.

(** While both handles are held, either scheduler's callback is one
    call of [checkCompletion]: the interval's extra [cleanup] repeats
    the one [checkCompletion] has done. *)
Lemma fire_live t doc s :
  live s -> fire t doc s = checkCompletion doc s.
Proof.
  intros (Hc & Ho & Hi). destruct t; simpl; rewrite ?Ho, ?Hi; [done|].
  unfold checkCompletion. rewrite Hc.
  repeat (case_match; simpl; try done).
Qed.

Lemma check_timeout doc s :
  isComplete s = false -> maxChecks <= checkCount s ->
  snd (checkCompletion doc s) = [CAPTURED_RESPONSE timeoutText]
  /\ released (fst (checkCompletion doc s))
  /\ isComplete (fst (checkCompletion doc s)) = false.
Proof.
  intros Hc Hn. unfold checkCompletion. rewrite Hc.
  destruct (Nat.ltb_spec maxChecks (S (checkCount s))); [|lia].
  by simpl.
Qed.

Lemma check_quiet doc s :
  isComplete s = false -> checkCount s < maxChecks ->
  completionConditionsMet (streamingAfter (streamingDetected s) doc) doc = false ->
  checkCompletion doc s =
  ({| checkCount := S (checkCount s);
      streamingDetected := streamingAfter (streamingDetected s) doc;
      lastResponseLength :=
        if 0 <? currentResponseLength doc then currentResponseLength doc
        else lastResponseLength s;
      stableCount := 0;
      observer := observer s;
      intervalId := intervalId s;
      isComplete := false |}, []).
Proof.
  intros Hc Hn Hm. unfold checkCompletion. rewrite Hc.
  destruct (Nat.ltb_spec maxChecks (S (checkCount s))); [lia|].
  simpl. by rewrite Hm.
Qed.

(** A run that never recognises a candidate: silent and holding its
    handles through check 300, then one sentinel and both handles
    released. *)
Lemma run_never_candidate ticks s :
  live s -> checkCount s <= maxChecks ->
  neverCandidate (streamingDetected s) (pages ticks) = true ->
  if decide (checkCount s + length ticks <= maxChecks) then
    snd (run ticks s) = [] /\ live (fst (run ticks s))
    /\ checkCount (fst (run ticks s)) = checkCount s + length ticks
  else
    snd (run ticks s) = [CAPTURED_RESPONSE timeoutText]
    /\ released (fst (run ticks s))
    /\ isComplete (fst (run ticks s)) = false.
Proof.
  revert s. induction ticks as [|[t doc] ticks IH]; intros s Hl Hn Hnc.
  - simpl. rewrite decide_True by lia. repeat split; first [apply Hl | lia].
  - simpl in Hnc. apply andb_true_iff in Hnc as [Hm Hnc].
    apply negb_true_iff in Hm.
    cbn [run]. rewrite (fire_live _ _ _ Hl).
    destruct Hl as (Hc & Ho & Hi).
    destruct (decide (checkCount s < maxChecks)) as [Hlt|Hge].
    + rewrite (check_quiet _ _ Hc Hlt Hm). cbn [fst snd app].
      set (s1 := Build_State _ _ _ _ _ _ _).
      specialize (IH s1). cbn [length].
      assert (live s1) as Hl1 by done.
      specialize (IH Hl1). simpl in IH.
      specialize (IH ltac:(lia) Hnc).
      destruct (decide (checkCount s + S (length ticks) <= maxChecks)).
      * rewrite decide_True in IH by lia. destruct IH as (H1 & H2 & H3).
        simpl in H3. repeat split; first [done | apply H2 | lia].
      * rewrite decide_False in IH by lia. exact IH.
    + destruct (check_timeout doc s Hc ltac:(lia)) as (Hout & Hrel & Hcomp).
      rewrite decide_False by (cbn [length]; lia).
      rewrite (run_released _ _ Hrel). cbn [fst snd].
      rewrite Hout. done.
Qed.

Lemma neverCandidate_take n streaming docs :
  neverCandidate streaming docs = true ->
  neverCandidate streaming (take n docs) = true.
Proof.
  revert n streaming. induction docs as [|doc docs IH]; intros [|n] streaming; simpl; try done.
  intros [Hm Hnc]%andb_true_iff. rewrite Hm. simpl. by apply IH.
Qed.

Lemma waitForResponse_never_candidate first later :
  neverCandidate false (first :: pages later) = true ->
  if decide (1 + length later <= maxChecks) then
    snd (waitForResponse first later) = []
    /\ live (fst (waitForResponse first later))
    /\ checkCount (fst (waitForResponse first later)) = 1 + length later
  else
    snd (waitForResponse first later) = [CAPTURED_RESPONSE timeoutText]
    /\ released (fst (waitForResponse first later))
    /\ isComplete (fst (waitForResponse first later)) = false.
Proof.
  cbn [neverCandidate]. intros [Hm Hnc]%andb_true_iff.
  apply negb_true_iff in Hm.
  unfold waitForResponse.
  rewrite (check_quiet first armed eq_refl ltac:(unfold maxChecks; simpl; lia) Hm).
  cbn [fst snd app].
  set (s1 := Build_State _ _ _ _ _ _ _).
  assert (live s1) as Hl by done.
  pose proof (run_never_candidate later s1 Hl ltac:(unfold maxChecks; simpl; lia) Hnc) as H.
  exact H.
Qed.

Lemma zero_never_candidate streaming docs :
  Forall (fun doc => currentResponseLength doc = 0) docs ->
  neverCandidate streaming docs = true.
Proof.
  intros H. revert streaming. induction H as [|doc docs Hz _ IH]; intros streaming; [done|].
  simpl. rewrite IH, andb_true_r. unfold completionConditionsMet. rewrite Hz. simpl.
  by rewrite !andb_false_r.
Qed.

(** [completionConditionsMet] without the redundant [lastResponse]
    conjunct: a positive length already needs a block. *)
Lemma completionConditionsMet_eq streaming doc :
  completionConditionsMet streaming doc =
  streaming && negb (hasStopButton doc) && (0 <? currentResponseLength doc)
  && quiescent doc.
Proof.
  unfold completionConditionsMet, quiescent, currentResponseLength.
  destruct (lastResponse doc) as [el|]; simpl.
  - destruct streaming, (hasStopButton doc), (streamingIndicator doc),
      (0 <? length (innerText el)), (sendButton doc) as [[[]]|]; done.
  - by rewrite !andb_false_r.
Qed.

Lemma check_candidate doc s :
  isComplete s = false -> checkCount s < maxChecks ->
  completionConditionsMet (streamingAfter (streamingDetected s) doc) doc = true ->
  checkCompletion doc s =
  if currentResponseLength doc =? lastResponseLength s then
    if requiredStableChecks <=? S (stableCount s) then
      ({| checkCount := S (checkCount s);
          streamingDetected := streamingAfter (streamingDetected s) doc;
          lastResponseLength := lastResponseLength s;
          stableCount := S (stableCount s);
          observer := false;
          intervalId := false;
          isComplete := true |}, [CAPTURED_RESPONSE (responseText doc)])
    else
      ({| checkCount := S (checkCount s);
          streamingDetected := streamingAfter (streamingDetected s) doc;
          lastResponseLength := lastResponseLength s;
          stableCount := S (stableCount s);
          observer := observer s;
          intervalId := intervalId s;
          isComplete := false |}, [])
  else
    ({| checkCount := S (checkCount s);
        streamingDetected := streamingAfter (streamingDetected s) doc;
        lastResponseLength := currentResponseLength doc;
        stableCount := 0;
        observer := observer s;
        intervalId := intervalId s;
        isComplete := false |}, []).
Proof.
  intros Hc Hn Hm. unfold checkCompletion. rewrite Hc.
  destruct (Nat.ltb_spec maxChecks (S (checkCount s))); [lia|].
  simpl. rewrite Hm. repeat case_match; done.
Qed.

(** Below the stability window a check cannot complete: the counter
    grows by at most one, and a length that differs from the recorded
    one resets it. *)
Lemma fire_below_window t doc s n :
  live s -> checkCount s < maxChecks ->
  stableCount s <= n -> S n < requiredStableChecks ->
  live (fst (fire t doc s))
  /\ snd (fire t doc s) = []
  /\ checkCount (fst (fire t doc s)) = S (checkCount s)
  /\ stableCount (fst (fire t doc s)) <= S n
  /\ (currentResponseLength doc <> lastResponseLength s ->
      stableCount (fst (fire t doc s)) = 0)
  /\ (0 < currentResponseLength doc ->
      lastResponseLength (fst (fire t doc s)) = currentResponseLength doc).
Proof.
  intros Hl Hn Hs Hw. rewrite (fire_live _ _ _ Hl).
  destruct Hl as (Hc & Ho & Hi).
  destruct (completionConditionsMet (streamingAfter (streamingDetected s) doc) doc) eqn:Hm.
  - rewrite (check_candidate _ _ Hc Hn Hm).
    destruct (Nat.eqb_spec (currentResponseLength doc) (lastResponseLength s)) as [He|He].
    + destruct (Nat.leb_spec requiredStableChecks (S (stableCount s))); [lia|].
      simpl. repeat split; try done; lia.
    + simpl. repeat split; try done; lia.
  - rewrite (check_quiet _ _ Hc Hn Hm). simpl.
    repeat split; try done; try lia.
    intros Hpos. by destruct (Nat.ltb_spec 0 (currentResponseLength doc)); [|lia].
Qed.

End DetectorFacts.

(** ** The detector's laws *)

Module DetectorLaws.
Import Detector DetectorFacts.

(** C1, as stated, fails: on the run with lengths [0,0,12,12,12] and the
    stop control on the first two ticks, nothing has been declared after
    tick 5; the stability counter stands at 2 of the 3 required. *)
Lemma not_stable_at_tick_5 :
  observed true 0 streamingPage /\ observed false 12 answerPage
  /\ streamingDetected (fst (afterTick 1 streamingPage stabilityRun)) = true
  /\ isComplete (fst (afterTick 5 streamingPage stabilityRun)) = false
  /\ stableCount (fst (afterTick 5 streamingPage stabilityRun)) = 2
  /\ snd (afterTick 5 streamingPage stabilityRun) = [].
Proof. vm_compute. repeat split; reflexivity. Qed.

Ltac candidate_tick Hs Hn Q :=
  rewrite fire_live by (repeat split);
  rewrite check_candidate;
  [ unfold streamingAfter; simpl; rewrite ?Hs, ?Hn; reflexivity
  | reflexivity
  | simpl; unfold maxChecks; lia
  | rewrite completionConditionsMet_eq, Hs, Hn, Q;
    unfold streamingAfter; simpl; rewrite ?Hs; reflexivity ].

(** C1, amended. With response lengths [0,0,12,12,12], a stop control
    on the first two ticks only (so [streamingDetected] is set at tick 1),
    the detector has declared nothing by tick 5, whatever else the page
    shows and whichever scheduler drives the ticks. When the length is 12
    on a sixth tick too, and ticks 3 to 6 show no streaming indicator and
    no disabled send control, completion is declared at tick 6: the
    detector is complete, both handles are released and the block's text
    is the one message sent. *)
Theorem stability_law d1 d2 d3 d4 d5 d6 t2 t3 t4 t5 t6 :
  observed true 0 d1 -> observed true 0 d2 ->
  observed false 12 d3 -> observed false 12 d4 -> observed false 12 d5 ->
  streamingDetected (fst (afterTick 1 d1 [(t2, d2); (t3, d3); (t4, d4); (t5, d5); (t6, d6)])) = true
  /\ (forall k, 1 <= k <= 5 ->
      isComplete (fst (afterTick k d1 [(t2, d2); (t3, d3); (t4, d4); (t5, d5); (t6, d6)])) = false
      /\ snd (afterTick k d1 [(t2, d2); (t3, d3); (t4, d4); (t5, d5); (t6, d6)]) = [])
  /\ (observed false 12 d6 ->
      quiescent d3 = true -> quiescent d4 = true ->
      quiescent d5 = true -> quiescent d6 = true ->
      isComplete (fst (afterTick 6 d1 [(t2, d2); (t3, d3); (t4, d4); (t5, d5); (t6, d6)])) = true
      /\ released (fst (afterTick 6 d1 [(t2, d2); (t3, d3); (t4, d4); (t5, d5); (t6, d6)]))
      /\ snd (afterTick 6 d1 [(t2, d2); (t3, d3); (t4, d4); (t5, d5); (t6, d6)])
         = [CAPTURED_RESPONSE (responseText d6)]).
Proof.
  intros [Hs1 Hn1] [Hs2 Hn2] [Hs3 Hn3] [Hs4 Hn4] [Hs5 Hn5].
  (* ticks 1 and 2: the stop control is there, no candidate *)
  assert (checkCompletion d1 armed =
          ({| checkCount := 1; streamingDetected := true;
              lastResponseLength := 0; stableCount := 0;
              observer := true; intervalId := true; isComplete := false |}, [])) as E1.
  { rewrite check_quiet; try done.
    - unfold streamingAfter. simpl. by rewrite Hs1, Hn1.
    - simpl. unfold maxChecks. lia.
    - rewrite completionConditionsMet_eq, Hs1. simpl. by rewrite andb_false_r. }
  set (s1 := Build_State 1 _ _ _ _ _ _) in E1.
  assert (fire t2 d2 s1 =
          ({| checkCount := 2; streamingDetected := true;
              lastResponseLength := 0; stableCount := 0;
              observer := true; intervalId := true; isComplete := false |}, [])) as E2.
  { rewrite fire_live by (repeat split). rewrite check_quiet; try done.
    - unfold streamingAfter. simpl. by rewrite Hs2, Hn2.
    - simpl. unfold maxChecks. lia.
    - rewrite completionConditionsMet_eq, Hs2. simpl. by rewrite andb_false_r. }
  set (s2 := Build_State 2 _ _ _ _ _ _) in E2.
  (* ticks 3 to 5: below the window *)
  destruct (fire_below_window t3 d3 s2 0) as (L3 & O3 & C3 & _ & S3 & B3);
    [done | simpl; unfold maxChecks; lia | simpl; lia | unfold requiredStableChecks; lia |].
  specialize (S3 ltac:(rewrite Hn3; simpl; lia)).
  specialize (B3 ltac:(lia)). simpl in C3.
  destruct (fire_below_window t4 d4 (fst (fire t3 d3 s2)) 0) as (L4 & O4 & C4 & S4 & _ & B4);
    [done | unfold maxChecks; lia | lia | unfold requiredStableChecks; lia |].
  specialize (B4 ltac:(lia)).
  destruct (fire_below_window t5 d5 (fst (fire t4 d4 (fst (fire t3 d3 s2)))) 1)
    as (L5 & O5 & C5 & S5 & _ & B5);
    [done | unfold maxChecks; lia | lia | unfold requiredStableChecks; lia |].
  split; [|split].
  - unfold afterTick, waitForResponse. simpl. by rewrite E1.
  - intros k Hk. unfold afterTick, waitForResponse.
    assert (k = 1 \/ k = 2 \/ k = 3 \/ k = 4 \/ k = 5) as Hcases by lia.
    destruct Hcases as [->|[->|[->|[->| ->]]]];
      cbn [Nat.sub take run]; rewrite E1; cbn [fst snd app];
      rewrite ?E2; cbn [fst snd app]; rewrite ?O3, ?O4, ?O5; cbn [app];
      split; try done.
    + apply L3.
    + apply L4.
    + apply L5.
  - intros [Hs6 Hn6] Q3 Q4 Q5 Q6.
    assert (fire t3 d3 s2 =
            ({| checkCount := 3; streamingDetected := true;
                lastResponseLength := 12; stableCount := 0;
                observer := true; intervalId := true; isComplete := false |}, [])) as E3
      by candidate_tick Hs3 Hn3 Q3.
    set (s3 := Build_State 3 _ _ _ _ _ _) in E3.
    assert (fire t4 d4 s3 =
            ({| checkCount := 4; streamingDetected := true;
                lastResponseLength := 12; stableCount := 1;
                observer := true; intervalId := true; isComplete := false |}, [])) as E4
      by candidate_tick Hs4 Hn4 Q4.
    set (s4 := Build_State 4 _ _ _ _ _ _) in E4.
    assert (fire t5 d5 s4 =
            ({| checkCount := 5; streamingDetected := true;
                lastResponseLength := 12; stableCount := 2;
                observer := true; intervalId := true; isComplete := false |}, [])) as E5
      by candidate_tick Hs5 Hn5 Q5.
    set (s5 := Build_State 5 _ _ _ _ _ _) in E5.
    assert (fire t6 d6 s5 =
            ({| checkCount := 6; streamingDetected := true;
                lastResponseLength := 12; stableCount := 3;
                observer := false; intervalId := false; isComplete := true |},
             [CAPTURED_RESPONSE (responseText d6)])) as E6
      by candidate_tick Hs6 Hn6 Q6.
    unfold afterTick, waitForResponse. cbn [Nat.sub take run].
    rewrite E1. cbn [fst snd app]. rewrite E2. cbn [fst snd app].
    rewrite E3. cbn [fst snd app]. rewrite E4. cbn [fst snd app].
    rewrite E5. cbn [fst snd app]. rewrite E6. cbn [fst snd app].
    done.
Qed.

(** The amended law at the simulated run, one more tick of the same
    answer appended. *)
Lemma stability_law_witness :
  observed true 0 streamingPage /\ observed false 12 answerPage
  /\ quiescent answerPage = true
  /\ isComplete (fst (afterTick 5 streamingPage (stabilityRun ++ [(Mutation, answerPage)]))) = false
  /\ snd (afterTick 6 streamingPage (stabilityRun ++ [(Mutation, answerPage)]))
     = [CAPTURED_RESPONSE (js "Hello world!")].
Proof.
  assert (observed true 0 streamingPage) as Hs by (split; reflexivity).
  assert (observed false 12 answerPage) as Ha by (split; reflexivity).
  destruct (stability_law streamingPage streamingPage answerPage answerPage
              answerPage answerPage Interval Interval Interval Interval Mutation
              Hs Hs Ha Ha Ha) as (_ & H5 & H6).
  split; [exact Hs|]. split; [exact Ha|]. split; [reflexivity|].
  split.
  - apply (H5 5). lia.
  - apply (H6 Ha); reflexivity.
Defined.

(** C2, as stated, fails: on a page where no candidate is ever
    recognised, the 300th check is an ordinary one. Nothing is sent and
    both handles are still held after tick 300. *)
Lemma no_timeout_at_tick_300 :
  neverCandidate false (idlePage :: pages (idleRun 400)) = true
  /\ snd (afterTick 300 idlePage (idleRun 400)) = []
  /\ observer (fst (afterTick 300 idlePage (idleRun 400))) = true
  /\ intervalId (fst (afterTick 300 idlePage (idleRun 400))) = true.
Proof. vm_compute. repeat split; reflexivity. Qed.

Lemma afterTick_never_candidate k first later :
  neverCandidate false (first :: pages later) = true ->
  neverCandidate false (first :: pages (take (k - 1) later)) = true.
Proof.
  intros H. apply (neverCandidate_take (S (k - 1))) in H.
  cbn [take] in H. unfold pages in *. by rewrite firstn_map in H.
Qed.

(** C2, amended. When no tick recognises a candidate, the first 300
    checks send nothing and keep both handles, [checkCount] being the
    tick's number; check 301, the first whose count exceeds
    [maxChecks], sends the sentinel text as a
    [CAPTURED_RESPONSE] message, disconnects the observer and clears the
    interval. No callback runs after that, so the sentinel stays the only
    message. *)
Theorem timeout_law first later :
  neverCandidate false (first :: pages later) = true ->
  (forall k, 1 <= k <= 300 ->
     snd (afterTick k first later) = [] /\ live (fst (afterTick k first later))
     /\ (k <= 1 + length later -> checkCount (fst (afterTick k first later)) = k))
  /\ (forall k, 301 <= k -> 300 <= length later ->
      snd (afterTick k first later) = [CAPTURED_RESPONSE timeoutText]
      /\ released (fst (afterTick k first later))).
Proof.
  intros Hnc. split.
  - intros k Hk.
    pose proof (waitForResponse_never_candidate first (take (k - 1) later)
                  (afterTick_never_candidate k _ _ Hnc)) as H.
    rewrite decide_True in H by (rewrite length_take; unfold maxChecks; lia).
    destruct H as (H1 & H2 & H3). repeat split; try done; try apply H2.
    intros Hk'. unfold afterTick. rewrite H3, length_take. lia.
  - intros k Hk Hlen.
    pose proof (waitForResponse_never_candidate first (take (k - 1) later)
                  (afterTick_never_candidate k _ _ Hnc)) as H.
    rewrite decide_False in H; [split; apply H|].
    rewrite length_take. unfold maxChecks. lia.
Qed.

Lemma timeout_law_witness :
  neverCandidate false (idlePage :: pages (idleRun 400)) = true
  /\ snd (afterTick 300 idlePage (idleRun 400)) = []
  /\ snd (afterTick 301 idlePage (idleRun 400)) = [CAPTURED_RESPONSE timeoutText]
  /\ released (fst (afterTick 400 idlePage (idleRun 400))).
Proof.
  assert (neverCandidate false (idlePage :: pages (idleRun 400)) = true) as Hnc
    by (vm_compute; reflexivity).
  destruct (timeout_law idlePage (idleRun 400) Hnc) as [Hquiet Hfire].
  split; [exact Hnc|]. split; [|split].
  - apply (Hquiet 300). lia.
  - apply (Hfire 301); [lia|]. vm_compute. lia.
  - apply (Hfire 400); [lia|]. vm_compute. lia.
Defined.

(** C8. When the latest response block has length 0 (or there is no
    block) at every tick, the detector never completes, whatever the stop
    control, the streaming indicator and the send control show; the only
    message it can send is the timeout sentinel. *)
Theorem no_false_positive first later :
  Forall (fun doc => currentResponseLength doc = 0) (first :: pages later) ->
  forall k,
    isComplete (fst (afterTick k first later)) = false
    /\ (snd (afterTick k first later) = []
        \/ snd (afterTick k first later) = [CAPTURED_RESPONSE timeoutText]).
Proof.
  intros Hz k.
  pose proof (waitForResponse_never_candidate first (take (k - 1) later)
                (afterTick_never_candidate k _ _ (zero_never_candidate _ _ Hz))) as H.
  unfold afterTick. case_decide.
  - destruct H as (Hout & (Hc & _) & _). auto.
  - destruct H as (Hout & _ & Hc). auto.
Qed.

Lemma no_false_positive_witness :
  Forall (fun doc => currentResponseLength doc = 0) (streamingPage :: pages emptyRun)
  /\ isComplete (fst (afterTick 9 streamingPage emptyRun)) = false
  /\ (snd (afterTick 9 streamingPage emptyRun) = []
      \/ snd (afterTick 9 streamingPage emptyRun) = [CAPTURED_RESPONSE timeoutText]).
Proof.
  assert (Forall (fun doc => currentResponseLength doc = 0)
            (streamingPage :: pages emptyRun)) as Hz
    by (repeat constructor).
  split; [exact Hz|]. exact (no_false_positive streamingPage emptyRun Hz 9).
Defined.

End DetectorLaws.

(** ** The Broker's result handling *)

Module BrokerLaws.
Import Broker.

(** What the handler reads off a frame's object: it has no [success]
    and no [hasContent]. *)
Lemma frame_object documentId frameId value :
  first (results documentId frameId value)
  = Obj [("documentId"%string, Str documentId); ("frameId"%string, Num frameId);
         ("result"%string, value)]
  /\ truthy (first (results documentId frameId value)) = true
  /\ get "success" (first (results documentId frameId value)) = Undefined
  /\ get "hasContent" (first (results documentId frameId value)) = Undefined
  /\ get "result" (first (results documentId frameId value)) = value.
Proof. by repeat split. Qed.

(** C6, on the code. The handler takes [results[0]] of
    [chrome.scripting.executeScript] for the script's return value; it is
    the frame's object, with the return value one level down under
    [result]. So [result.success] and [check.hasContent] are never set:
    the marker is never deleted, whatever it marks, and the synthesized
    [{success: true, method: 'dom_manipulation'}] is never sent, whatever
    the textarea shows. With the marker read, the response is the frame's
    object itself, around the marker or [null]; with the injection or
    the read rejected it is [{success: false, error}] with the message
    of the rejection. No response has a truthy [success], and a marker
    that marks success is never the response. *)
Theorem broker_result_handling env page promptText :
  fst (onMessage (INJECT_PROSEMIRROR_SCRIPT promptText) env page)
  = Some match inject env, readMarker env with
         | Rejects message, _ =>
             Obj [("success"%string, Bool false); ("error"%string, Str message)]
         | Runs _ _, Rejects message =>
             Obj [("success"%string, Bool false); ("error"%string, Str message)]
         | Runs _ _, Runs documentId frameId =>
             Obj [("documentId"%string, Str documentId);
                  ("frameId"%string, Num frameId);
                  ("result"%string,
                   match prosemirrorResult page with
                   | Some r => ofResult r
                   | None => Null
                   end)]
         end
  /\ snd (onMessage (INJECT_PROSEMIRROR_SCRIPT promptText) env page) = page
  /\ (forall response,
        fst (onMessage (INJECT_PROSEMIRROR_SCRIPT promptText) env page)
        = Some response ->
        truthy (get "success" response) = false
        /\ response
           <> Obj [("success"%string, Bool true);
                   ("method"%string, Str (js "dom_manipulation"))]
        /\ (forall r, prosemirrorResult page = Some r -> success r = Some true ->
            response <> ofResult r
            /\ get "success" (ofResult r) = Bool true)).
Proof.
  assert (fst (injectAndRetrieve env page)
          = match inject env, readMarker env with
            | Rejects message, _ =>
                Obj [("success"%string, Bool false); ("error"%string, Str message)]
            | Runs _ _, Rejects message =>
                Obj [("success"%string, Bool false); ("error"%string, Str message)]
            | Runs _ _, Runs documentId frameId =>
                Obj [("documentId"%string, Str documentId);
                     ("frameId"%string, Num frameId);
                     ("result"%string,
                      match prosemirrorResult page with
                      | Some r => ofResult r
                      | None => Null
                      end)]
            end
          /\ snd (injectAndRetrieve env page) = page) as [Hfst Hsnd].
  { unfold injectAndRetrieve, probeAndRespond.
    destruct (inject env) as [d f|m]; [|done].
    destruct (readMarker env) as [d' f'|m'].
    - destruct (frame_object d' f' (readScript page)) as (-> & _).
      cbn [truthy get List.find fst snd String.eqb Ascii.eqb Bool.eqb negb orb].
      destruct (probe env) as [d'' f''|m'']; [|done].
      destruct (frame_object d'' f'' (probeScript page)) as (-> & _).
      done.
    - destruct (probe env) as [d'' f''|m'']; [|done].
      destruct (frame_object d'' f'' (probeScript page)) as (-> & _).
      done. }
  cbn [onMessage fst snd]. rewrite Hfst, Hsnd.
  split; [done|]. split; [done|].
  intros response [= <-].
  assert (truthy (get "success"
            match inject env, readMarker env with
            | Rejects message, _ =>
                Obj [("success"%string, Bool false); ("error"%string, Str message)]
            | Runs _ _, Rejects message =>
                Obj [("success"%string, Bool false); ("error"%string, Str message)]
            | Runs _ _, Runs documentId frameId =>
                Obj [("documentId"%string, Str documentId);
                     ("frameId"%string, Num frameId);
                     ("result"%string,
                      match prosemirrorResult page with
                      | Some r => ofResult r
                      | None => Null
                      end)]
            end) = false) as Hf.
  { by destruct (inject env), (readMarker env). }
  split; [exact Hf|]. split.
  - intros Heq. by rewrite Heq in Hf.
  - intros r _ Hs.
    assert (get "success" (ofResult r) = Bool true) as Hg
      by (unfold ofResult; by rewrite Hs).
    split; [|exact Hg]. intros Heq. by rewrite Heq, Hg in Hf.
Qed.

Lemma broker_result_handling_witness :
  prosemirrorResult editorPage
  = Some {| success := Some true; method := Some direct_api; error := None |}
  /\ onMessage (INJECT_PROSEMIRROR_SCRIPT (js "hi")) allRun editorPage
     = (Some (Obj [("documentId"%string, Str (js "doc-1"));
                   ("frameId"%string, Num 0);
                   ("result"%string,
                    Obj [("success"%string, Bool true);
                         ("method"%string, Str (js "direct_api"))])]),
        editorPage)
  /\ hasContent lateContentPage = true
  /\ fst (onMessage (INJECT_PROSEMIRROR_SCRIPT (js "hi")) allRun lateContentPage)
     = Some (Obj [("documentId"%string, Str (js "doc-1"));
                  ("frameId"%string, Num 0);
                  ("result"%string,
                   Obj [("error"%string, Str (js "DOM manipulation failed"))])])
  /\ fst (onMessage (INJECT_PROSEMIRROR_SCRIPT (js "hi")) allRun blankPage)
     = Some (Obj [("documentId"%string, Str (js "doc-1"));
                  ("frameId"%string, Num 0);
                  ("result"%string, Null)]).
Proof.
  destruct (broker_result_handling allRun editorPage (js "hi")) as (Ha & Hb & _).
  destruct (broker_result_handling allRun lateContentPage (js "hi")) as (Hc & _).
  destruct (broker_result_handling allRun blankPage (js "hi")) as (Hd & _).
  split; [reflexivity|].
  split; [|split; [reflexivity | split; [exact Hc | exact Hd]]].
  rewrite (surjective_pairing (onMessage _ allRun editorPage)).
  by rewrite Ha, Hb.
Defined.

End BrokerLaws.

(** ** The Facade *)

Module FacadeFacts.
Import Facade.

Lemma initialize_twice w : initialize (initialize w) = initialize w.
Proof.
  unfold initialize. destruct (isInitialized w) eqn:E; simpl; by rewrite ?E.
Qed.

Lemma initialize_iter n w :
  1 <= n -> Nat.iter n initialize w = initialize w.
Proof.
  induction n as [|n IH]; [lia|]. intros _. destruct n as [|n]; [reflexivity|].
  change (initialize (Nat.iter (S n) initialize w) = initialize w).
  rewrite IH by lia. apply initialize_twice.
Qed.

(** *** Every reachable state keeps the requests' bookkeeping *)

Lemma delete_update_consistent r f w :
  consistent w ->
  (forall q, requests w !! r = Some q ->
     length (settled (f q)) <= 1
     /\ (resolved (f q) = false -> settled (f q) = [])
     /\ (resolved (f q) = true -> timer (f q) = false)) ->
  consistent (deleteListener r (update r f w)).
Proof.
  intros Hc Hf r' q' Hl. cbn in Hl.
  destruct (decide (r' = r)) as [->|Hne].
  - rewrite lookup_alter_eq in Hl.
    destruct (requests w !! r) as [q|] eqn:E; [|done].
    simpl in Hl. injection Hl as <-.
    destruct (Hf q eq_refl) as (H1 & H2 & H3).
    repeat split; auto. cbn. rewrite list_elem_of_filter. tauto.
  - rewrite lookup_alter_ne in Hl by done.
    destruct (Hc r' q' Hl) as (H1 & H2 & H3).
    repeat split; auto; try (apply H3; done).
    cbn. rewrite list_elem_of_filter. intros [_ Hin]. by apply H3.
Qed.

Lemma update_consistent r f w :
  consistent w ->
  (forall q, resolved (f q) = resolved q /\ settled (f q) = settled q
             /\ (timer q = false -> timer (f q) = false)) ->
  consistent (update r f w).
Proof.
  intros Hc Hf r' q' Hl. cbn in Hl.
  destruct (decide (r' = r)) as [->|Hne].
  - rewrite lookup_alter_eq in Hl.
    destruct (requests w !! r) as [q|] eqn:E; [|done].
    simpl in Hl. injection Hl as <-.
    destruct (Hf q) as (H1 & H2 & H3). destruct (Hc r q E) as (H4 & H5 & H6).
    unfold requestOk. rewrite H1, H2. repeat split; auto.
    + apply H3. by apply H6.
    + cbn. by apply H6.
  - rewrite lookup_alter_ne in Hl by done. exact (Hc r' q' Hl).
Qed.

Lemma responseHandler_consistent r text w :
  consistent w -> consistent (responseHandler r text w).
Proof.
  intros Hc. unfold responseHandler.
  destruct (requests w !! r) as [q|] eqn:E; [|done].
  destruct (resolved q) eqn:Er; [done|].
  apply delete_update_consistent; [done|].
  intros q' Hq'. rewrite E in Hq'. injection Hq' as <-.
  destruct (Hc r q E) as (_ & H & _). cbn. rewrite (H Er). by simpl.
Qed.

Lemma catchBlock_consistent r e w :
  consistent w -> consistent (catchBlock r e w).
Proof.
  intros Hc. unfold catchBlock.
  destruct (requests w !! r) as [q|] eqn:E; [|done].
  destruct (resolved q) eqn:Er; [done|].
  apply delete_update_consistent; [done|].
  intros q' Hq'. rewrite E in Hq'. injection Hq' as <-.
  destruct (Hc r q E) as (_ & H & _). cbn. rewrite (H Er). by simpl.
Qed.

Lemma timerFires_consistent r w :
  consistent w -> consistent (timeoutCallback r (update r clearTimeout w)).
Proof.
  intros Hc. unfold timeoutCallback. cbn [requests update withRequests].
  rewrite lookup_alter_eq.
  destruct (requests w !! r) as [q|] eqn:E; simpl;
    [|by apply update_consistent].
  destruct (resolved q) eqn:Er; [by apply update_consistent|].
  apply delete_update_consistent; [by apply update_consistent|].
  intros q'. cbn. rewrite lookup_alter_eq, E. simpl. intros [= <-].
  destruct (Hc r q E) as (_ & H & _). cbn. rewrite (H Er). by simpl.
Qed.

Ltac benign := first [done | intros; repeat split; auto].

Lemma postToTab_consistent tab m w :
  consistent w -> consistent (postToTab tab m w).
Proof. intros Hc r q Hl. exact (Hc r q Hl). Qed.

Lemma afterTabLookup_consistent r tabs raised w :
  consistent w -> consistent (afterTabLookup r tabs raised w).
Proof.
  intros Hc. unfold afterTabLookup.
  destruct (requests w !! r) as [q|] eqn:E; [|done].
  destruct (_getChatGPTTab tabs) as [tab|].
  - destruct raised as [message|].
    + apply catchBlock_consistent, update_consistent; benign.
    + apply postToTab_consistent, update_consistent; benign.
  - destruct (resolved q) eqn:Er; [apply update_consistent; benign|].
    apply catchBlock_consistent, delete_update_consistent; [done|].
    intros q' Hq'. rewrite E in Hq'. injection Hq' as <-.
    destruct (Hc r q E) as (H1 & H2 & _). cbn. rewrite (H2 Er). simpl.
    repeat split; first [lia | done].
Qed.

Lemma sendCallback_consistent r lastError w :
  consistent w -> consistent (sendCallback r lastError w).
Proof.
  intros Hc. unfold sendCallback.
  destruct (requests w !! r) as [q|] eqn:E; [|done].
  destruct lastError as [message|]; [|apply update_consistent; benign].
  destruct (resolved q) eqn:Er; [apply update_consistent; benign|].
  apply delete_update_consistent; [done|].
  intros q' Hq'. rewrite E in Hq'. injection Hq' as <-.
  destruct (Hc r q E) as (_ & H & _). cbn. rewrite (H Er). by simpl.
Qed.

Lemma forEachListener_consistent handlers text w :
  consistent w -> consistent (forEachListener handlers text w).
Proof.
  revert w. induction handlers as [|h handlers IH]; intros w Hc; [done|].
  simpl. apply IH. case_decide; [by apply responseHandler_consistent | done].
Qed.

Lemma onMessage_consistent m w :
  consistent w -> consistent (onMessage m w).
Proof.
  intros Hc. destruct m; try done. by apply forEachListener_consistent.
Qed.

Lemma iter_onMessage_consistent n m w :
  consistent w -> consistent (Nat.iter n (onMessage m) w).
Proof.
  intros Hc. induction n as [|n IH]; [done|]. by apply onMessage_consistent.
Qed.

Lemma step_consistent e w : consistent w -> consistent (step e w).
Proof.
  intros Hc. destruct e as [r|r tabs raised|r lastError|m]; simpl.
  - destruct (requests w !! r) as [q|]; [|done].
    destruct (timer q); [by apply timerFires_consistent | done].
  - destruct (requests w !! r) as [q|]; [|done].
    destruct (stage q); try done. by apply afterTabLookup_consistent.
  - destruct (requests w !! r) as [q|]; [|done].
    destruct (stage q); try done. by apply sendCallback_consistent.
  - by apply iter_onMessage_consistent.
Qed.

Lemma sendPrompt_consistent p o w :
  consistent w -> consistent (fst (sendPrompt p o w)).
Proof.
  intros Hc. unfold sendPrompt.
  destruct (isInitialized w); simpl; [|done].
  destruct (invalidPrompt p); simpl; [done|].
  intros r q Hl. cbn in Hl.
  destruct (decide (r = nextRequest w)) as [->|Hne].
  - rewrite lookup_insert_eq in Hl. injection Hl as <-.
    unfold requestOk. simpl. repeat split; first [lia | done].
  - rewrite lookup_insert_ne in Hl by done.
    destruct (Hc r q Hl) as (H1 & H2 & H3). repeat split; auto.
    + by apply H3.
    + cbn. case_decide; [by apply H3|].
      rewrite not_elem_of_app. split; [by apply H3|].
      rewrite list_elem_of_singleton. done.
Qed.

Lemma initialize_consistent w : consistent w -> consistent (initialize w).
Proof.
  intros Hc. unfold initialize. destruct (isInitialized w); [done|].
  intros r q Hl. exact (Hc r q Hl).
Qed.

Lemma act_consistent a w : consistent w -> consistent (act a w).
Proof.
  destruct a; simpl;
    auto using initialize_consistent, sendPrompt_consistent, step_consistent.
Qed.

Lemma acts_consistent l w : consistent w -> consistent (acts l w).
Proof.
  revert w. induction l as [|a l IH]; intros w Hc; [done|].
  simpl. by apply IH, act_consistent.
Qed.

(** For every request of every run of a program on a new instance:
    [resolve] or [reject] is called at most once, and once it is called
    the handler is out of the listener set and the timer is gone. *)
Lemma settled_at_most_once l r :
  settlements r (acts l create) <= 1
  /\ (0 < settlements r (acts l create) ->
      (r ∉ responseListeners (acts l create))
      /\ (exists q, requests (acts l create) !! r = Some q
                    /\ resolved q = true /\ timer q = false)).
Proof.
  assert (consistent (acts l create)) as Hc.
  { apply acts_consistent. intros r' q' Hl. cbn in Hl.
    by rewrite lookup_empty in Hl. }
  unfold settlements.
  destruct (requests (acts l create) !! r) as [q|] eqn:E; [|simpl; lia].
  destruct (Hc r q E) as (H1 & H2 & H3). split; [done|].
  intros Hpos. destruct (resolved q) eqn:Er.
  - destruct (H3 eq_refl). eauto.
  - rewrite (H2 eq_refl) in Hpos. simpl in Hpos. lia.
Qed.

(** *** Once [resolved] is set, nothing settles the request again *)

Lemma update_final h f r calls w :
  final r calls w ->
  (h = r -> forall q, resolved q = true ->
     resolved (f q) = true /\ settled (f q) = settled q) ->
  final r calls (update h f w).
Proof.
  intros (q & Hl & Hr & Hs & Hn) Hf. unfold final. cbn.
  destruct (decide (h = r)) as [->|Hne].
  - exists (f q). rewrite lookup_alter_eq, Hl. simpl.
    destruct (Hf eq_refl q Hr) as [H1 H2]. rewrite H1, H2. done.
  - exists q. by rewrite lookup_alter_ne.
Qed.

Lemma deleteListener_final h r calls w :
  final r calls w -> final r calls (deleteListener h w).
Proof. intros (q & H). by exists q. Qed.

Lemma unresolved_other h q r calls w :
  final r calls w -> requests w !! h = Some q -> resolved q = false -> h <> r.
Proof.
  intros (q' & Hl & Hr & _) Hh Hq ->. rewrite Hl in Hh. injection Hh as ->.
  congruence.
Qed.

Lemma delete_update_final h f q r calls w :
  final r calls w -> requests w !! h = Some q -> resolved q = false ->
  final r calls (deleteListener h (update h f w)).
Proof.
  intros Hf Hl Hr. apply deleteListener_final, update_final; [done|].
  intros ->. by destruct (unresolved_other _ _ _ _ _ Hf Hl Hr).
Qed.

Lemma responseHandler_final h text r calls w :
  final r calls w -> final r calls (responseHandler h text w).
Proof.
  intros Hf. unfold responseHandler.
  destruct (requests w !! h) as [q|] eqn:E; [|done].
  destruct (resolved q) eqn:Er; [done|]. by eapply delete_update_final.
Qed.

Lemma timeoutCallback_final h r calls w :
  final r calls w -> final r calls (timeoutCallback h w).
Proof.
  intros Hf. unfold timeoutCallback.
  destruct (requests w !! h) as [q|] eqn:E; [|done].
  destruct (resolved q) eqn:Er; [done|]. by eapply delete_update_final.
Qed.

Lemma catchBlock_final h e r calls w :
  final r calls w -> final r calls (catchBlock h e w).
Proof.
  intros Hf. unfold catchBlock.
  destruct (requests w !! h) as [q|] eqn:E; [|done].
  destruct (resolved q) eqn:Er; [done|]. by eapply delete_update_final.
Qed.

Lemma postToTab_final tab m r calls w :
  final r calls w -> final r calls (postToTab tab m w).
Proof. intros (q & H). by exists q. Qed.

Lemma afterTabLookup_final h tabs raised r calls w :
  final r calls w -> final r calls (afterTabLookup h tabs raised w).
Proof.
  intros Hf. unfold afterTabLookup.
  destruct (requests w !! h) as [q|] eqn:E; [|done].
  destruct (_getChatGPTTab tabs) as [tab|].
  - destruct raised as [message|].
    + apply catchBlock_final, update_final; benign.
    + apply postToTab_final, update_final; benign.
  - destruct (resolved q) eqn:Er; [apply update_final; benign|].
    apply catchBlock_final. by eapply delete_update_final.
Qed.

Lemma sendCallback_final h lastError r calls w :
  final r calls w -> final r calls (sendCallback h lastError w).
Proof.
  intros Hf. unfold sendCallback.
  destruct (requests w !! h) as [q|] eqn:E; [|done].
  destruct lastError as [message|]; [|apply update_final; benign].
  destruct (resolved q) eqn:Er; [apply update_final; benign|].
  by eapply delete_update_final.
Qed.

Lemma forEachListener_final handlers text r calls w :
  final r calls w -> final r calls (forEachListener handlers text w).
Proof.
  revert w. induction handlers as [|h handlers IH]; intros w Hf; [done|].
  simpl. apply IH. case_decide; [by apply responseHandler_final | done].
Qed.

Lemma step_final e r calls w : final r calls w -> final r calls (step e w).
Proof.
  intros Hf. destruct e as [h|h tabs raised|h lastError|m]; simpl.
  - destruct (requests w !! h) as [q|]; [|done].
    destruct (timer q); [|done].
    apply timeoutCallback_final, update_final; benign.
  - destruct (requests w !! h) as [q|]; [|done].
    destruct (stage q); try done. by apply afterTabLookup_final.
  - destruct (requests w !! h) as [q|]; [|done].
    destruct (stage q); try done. by apply sendCallback_final.
  - induction (busListeners w) as [|n IH]; [done|].
    simpl. destruct m; try done. by apply forEachListener_final.
Qed.

Lemma sendPrompt_final p o r calls w :
  final r calls w -> final r calls (fst (sendPrompt p o w)).
Proof.
  intros Hf. unfold sendPrompt.
  destruct (isInitialized w); simpl; [|done].
  destruct (invalidPrompt p); simpl; [done|].
  destruct Hf as (q & Hl & Hr & Hs & Hn). exists q. cbn.
  rewrite lookup_insert_ne by lia. repeat split; auto.
Qed.

Lemma initialize_final r calls w :
  final r calls w -> final r calls (initialize w).
Proof.
  intros Hf. unfold initialize. destruct (isInitialized w); [done|].
  destruct Hf as (q & H). by exists q.
Qed.

Lemma acts_final l r calls w : final r calls w -> final r calls (acts l w).
Proof.
  revert w. induction l as [|a l IH]; intros w Hf; [done|].
  simpl. apply IH. destruct a; simpl;
    auto using initialize_final, sendPrompt_final, step_final.
Qed.

Lemma final_settlements r calls w :
  final r calls w ->
  settlements r w = length calls /\ promise r w = head calls.
Proof.
  intros (q & Hl & _ & Hs & _). unfold settlements, promise.
  by rewrite Hl, Hs.
Qed.

(** A started request, before its tab lookup returns. *)
Lemma sendPrompt_started p o w :
  isInitialized w = true -> invalidPrompt p = false ->
  snd (sendPrompt p o w) = inr (nextRequest w)
  /\ requests (fst (sendPrompt p o w)) !! nextRequest w
     = Some {| prompt := promptString p; seconds := timeoutOf o;
               resolved := false; timer := true; settled := [];
               progress := []; stage := AwaitingTab |}
  /\ nextRequest (fst (sendPrompt p o w)) = S (nextRequest w).
Proof.
  intros Hi Hp. unfold sendPrompt. rewrite Hi, Hp. simpl.
  by rewrite lookup_insert_eq.
Qed.

(** The lookup that finds no ChatGPT tab sets [resolved], clears the
    timer and removes the handler, and the exception it throws is
    dropped by the [catch] block's own [resolved] test: no call of
    [reject]. *)
Lemma lookup_failure_swallowed p o tabs raised w :
  isInitialized w = true -> invalidPrompt p = false ->
  _getChatGPTTab tabs = None ->
  final (nextRequest w) []
    (step (TabsQueried (nextRequest w) tabs raised) (fst (sendPrompt p o w)))
  /\ (nextRequest w ∉
       responseListeners
         (step (TabsQueried (nextRequest w) tabs raised) (fst (sendPrompt p o w)))).
Proof.
  intros Hi Hp Ht.
  destruct (sendPrompt_started p o w Hi Hp) as (_ & Hl & Hn).
  set (w1 := fst (sendPrompt p o w)) in *.
  unfold step. rewrite Hl. cbn [stage].
  unfold afterTabLookup. rewrite Hl, Ht. cbn [resolved].
  unfold catchBlock. cbn [requests deleteListener update withRequests].
  rewrite lookup_alter_eq, Hl. cbn. split.
  - eexists. cbn. rewrite lookup_alter_eq, Hl. simpl. split; [done|].
    repeat split. rewrite Hn. lia.
  - rewrite list_elem_of_filter. tauto.
Qed.

Lemma invalidPrompt_spec p :
  invalidPrompt p = true <-> (forall s, p = str s -> trim s = []).
Proof.
  unfold invalidPrompt. destruct p as [| |b|n|s|]; simpl;
    rewrite ?orb_true_r; try (split; [intros _ s' [=] | done]).
  destruct s as [|c s]; simpl.
  - split; [|done]. by intros _ s' [= <-].
  - rewrite Nat.eqb_eq. split.
    + intros Hlen s' [= <-]. by apply nil_length_inv.
    + intros H. by rewrite (H _ eq_refl).
Qed.

Lemma getChatGPTTab_None tabs :
  _getChatGPTTab tabs = None <->
  (forall l, tabs = Some l -> forall tab, In tab l -> isChatGPT tab = false).
Proof.
  destruct tabs as [l|]; simpl.
  - split.
    + intros H l' [= <-] tab Hin. by apply (find_none _ _ H).
    + intros H. destruct (find isChatGPT l) as [tab|] eqn:E; [|done].
      apply find_some in E as [Hin Ht]. rewrite (H l eq_refl tab Hin) in Ht. done.
  - split; [by intros _ l [=] | done].
Qed.

(** *** The listener set holds handlers of known requests *)

Lemma shrinks_refl w : shrinks w w.
Proof. by split. Qed.

Lemma shrinks_trans w1 w2 w3 : shrinks w1 w2 -> shrinks w2 w3 -> shrinks w1 w3.
Proof. intros [H1 H2] [H3 H4]. split; auto. Qed.

Lemma update_shrinks r f w : shrinks w (update r f w).
Proof.
  split; [|done]. intros r' Hs. cbn. rewrite lookup_alter_is_Some. done.
Qed.

Lemma deleteListener_shrinks r w : shrinks w (deleteListener r w).
Proof.
  split; [done|]. intros r'. cbn. rewrite list_elem_of_filter. tauto.
Qed.

Lemma delete_update_shrinks r f w : shrinks w (deleteListener r (update r f w)).
Proof.
  eapply shrinks_trans; [apply update_shrinks | apply deleteListener_shrinks].
Qed.

Lemma responseHandler_shrinks r text w : shrinks w (responseHandler r text w).
Proof.
  unfold responseHandler. repeat case_match;
    auto using shrinks_refl, delete_update_shrinks.
Qed.

Lemma timeoutCallback_shrinks r w : shrinks w (timeoutCallback r w).
Proof.
  unfold timeoutCallback. repeat case_match;
    auto using shrinks_refl, delete_update_shrinks.
Qed.

Lemma catchBlock_shrinks r e w : shrinks w (catchBlock r e w).
Proof.
  unfold catchBlock. repeat case_match;
    auto using shrinks_refl, delete_update_shrinks.
Qed.

Lemma postToTab_shrinks tab m w : shrinks w (postToTab tab m w).
Proof. by split. Qed.

Lemma afterTabLookup_shrinks r tabs raised w :
  shrinks w (afterTabLookup r tabs raised w).
Proof.
  unfold afterTabLookup. repeat case_match;
    eauto using shrinks_refl, shrinks_trans, update_shrinks,
      delete_update_shrinks, catchBlock_shrinks, postToTab_shrinks.
Qed.

Lemma sendCallback_shrinks r lastError w :
  shrinks w (sendCallback r lastError w).
Proof.
  unfold sendCallback. repeat case_match;
    auto using shrinks_refl, update_shrinks, delete_update_shrinks.
Qed.

Lemma forEachListener_shrinks handlers text w :
  shrinks w (forEachListener handlers text w).
Proof.
  revert w. induction handlers as [|h handlers IH]; intros w;
    [apply shrinks_refl|].
  simpl. case_decide; [|apply IH].
  eapply shrinks_trans; [apply responseHandler_shrinks | apply IH].
Qed.

Lemma onMessage_shrinks m w : shrinks w (onMessage m w).
Proof.
  destruct m; simpl; try apply shrinks_refl. apply forEachListener_shrinks.
Qed.

Lemma step_shrinks e w : shrinks w (step e w).
Proof.
  destruct e as [r|r tabs raised|r lastError|m]; simpl.
  - repeat case_match; eauto using shrinks_refl, shrinks_trans,
      update_shrinks, timeoutCallback_shrinks.
  - repeat case_match; auto using shrinks_refl, afterTabLookup_shrinks.
  - repeat case_match; auto using shrinks_refl, sendCallback_shrinks.
  - induction (busListeners w) as [|n IH]; [apply shrinks_refl|].
    simpl. eapply shrinks_trans; [apply IH | apply onMessage_shrinks].
Qed.

Lemma shrinks_registered w w' : shrinks w w' -> registered w -> registered w'.
Proof. intros [H1 H2] Hr r Hin. apply H1, Hr, H2, Hin. Qed.

Lemma sendPrompt_registered p o w :
  registered w -> registered (fst (sendPrompt p o w)).
Proof.
  intros Hr. unfold sendPrompt.
  destruct (isInitialized w); simpl; [|done].
  destruct (invalidPrompt p); simpl; [done|].
  intros r. cbn. rewrite lookup_insert_is_Some.
  destruct (decide (nextRequest w = r)) as [|Hne]; [by left|].
  intros Hin. right. split; [done|]. apply Hr.
  case_decide; [done|]. apply elem_of_app in Hin as [Hin|Hin]; [done|].
  apply list_elem_of_singleton in Hin. congruence.
Qed.

Lemma acts_registered l w : registered w -> registered (acts l w).
Proof.
  revert w. induction l as [|a l IH]; intros w Hr; [done|].
  simpl. apply IH. destruct a as [|p o|e]; simpl.
  - unfold initialize. destruct (isInitialized w); [done|]. exact Hr.
  - by apply sendPrompt_registered.
  - exact (shrinks_registered _ _ (step_shrinks e w) Hr).
Qed.

(** In every reachable state the handlers in the listener set are those
    of unresolved requests on which neither [resolve] nor [reject] was
    called. *)
Lemma listeners_pending l r :
  r ∈ responseListeners (acts l create) ->
  exists q, requests (acts l create) !! r = Some q
            /\ resolved q = false /\ settled q = [].
Proof.
  intros Hin.
  assert (registered (acts l create)) as Hr.
  { apply acts_registered. intros r' Hr'. by apply elem_of_nil in Hr'. }
  assert (consistent (acts l create)) as Hc.
  { apply acts_consistent. intros r' q' Hl. cbn in Hl.
    by rewrite lookup_empty in Hl. }
  destruct (Hr r Hin) as [q Hq]. exists q. split; [done|].
  destruct (Hc r q Hq) as (_ & H2 & H3).
  destruct (resolved q) eqn:Er; [|auto].
  by destruct (H3 eq_refl) as [_ Hn].
Qed.

(** *** [_handleResponse] reaches every listener *)

Lemma responseHandler_other h text w r :
  h <> r ->
  requests (responseHandler h text w) !! r = requests w !! r
  /\ (r ∈ responseListeners (responseHandler h text w) <-> r ∈ responseListeners w).
Proof.
  intros Hne. unfold responseHandler.
  destruct (requests w !! h) as [q|]; [|done].
  destruct (resolved q); [done|]. cbn.
  rewrite lookup_alter_ne by done. rewrite list_elem_of_filter.
  split; [done|]. split; [tauto|]. intros. split; [congruence | done].
Qed.

Lemma responseHandler_absent h text w r :
  r ∉ responseListeners w -> r ∉ responseListeners (responseHandler h text w).
Proof.
  intros Hn. unfold responseHandler.
  destruct (requests w !! h) as [q|]; [|done].
  destruct (resolved q); [done|]. cbn.
  rewrite list_elem_of_filter. tauto.
Qed.

Lemma forEachListener_absent handlers text w r :
  r ∉ responseListeners w ->
  requests (forEachListener handlers text w) !! r = requests w !! r
  /\ r ∉ responseListeners (forEachListener handlers text w).
Proof.
  revert w. induction handlers as [|h handlers IH]; intros w Hn; [done|].
  simpl. case_decide as Hin; [|by apply IH].
  assert (h <> r) as Hne by (intros ->; done).
  destruct (responseHandler_other h text w r Hne) as [Hreq _].
  destruct (IH (responseHandler h text w)) as [H1 H2].
  { by apply responseHandler_absent. }
  by rewrite H1, Hreq.
Qed.

Lemma forEachListener_pending handlers text w r q :
  r ∈ handlers -> r ∈ responseListeners w ->
  requests w !! r = Some q -> resolved q = false ->
  requests (forEachListener handlers text w) !! r
  = Some (call (resolve text) (clearTimeout (markResolved q)))
  /\ r ∉ responseListeners (forEachListener handlers text w).
Proof.
  revert w. induction handlers as [|h handlers IH]; intros w Hin Hl Hq Hr.
  - by apply elem_of_nil in Hin.
  - simpl. destruct (decide (h = r)) as [->|Hne].
    + rewrite decide_True by done.
      assert (responseHandler r text w =
              deleteListener r
                (update r (fun q => call (resolve text)
                                      (clearTimeout (markResolved q))) w)) as ->.
      { unfold responseHandler. by rewrite Hq, Hr. }
      set (w1 := deleteListener r _).
      destruct (forEachListener_absent handlers text w1 r) as [H1 H2].
      { subst w1. cbn. rewrite list_elem_of_filter. tauto. }
      split; [|done]. rewrite H1. subst w1. cbn.
      by rewrite lookup_alter_eq, Hq.
    + apply elem_of_cons in Hin as [->|Hin]; [done|].
      destruct (responseHandler_other h text w r Hne) as [Hreq Hmem].
      case_decide.
      * apply IH; [done| by apply Hmem | by rewrite Hreq | done].
      * by apply IH.
Qed.

End FacadeFacts.

Module FacadeLaws.
Import Facade FacadeFacts.

(** C7. Calling [initialize()] [n >= 1] times leaves the instance, and
    what it registered with the browser, as one call does; on an instance
    that has no message listener yet that is exactly one more listener
    on the bus, and exactly one for a new instance. *)
Theorem initialize_idempotent n w :
  1 <= n ->
  Nat.iter n initialize w = initialize w
  /\ (isInitialized w = false -> messageListener w = false ->
      busListeners (Nat.iter n initialize w) = S (busListeners w))
  /\ busListeners (Nat.iter n initialize create) = 1.
Proof.
  intros Hn. rewrite !initialize_iter by done. split; [done|]. split; [|done].
  intros Hi Hm. unfold initialize. by rewrite Hi, Hm.
Qed.

Lemma initialize_idempotent_witness :
  1 <= 5
  /\ Nat.iter 5 initialize create = initialize create
  /\ busListeners (Nat.iter 5 initialize create) = 1.
Proof.
  assert (1 <= 5) as H by lia.
  destruct (initialize_idempotent 5 create H) as (H1 & _ & H2).
  split; [exact H|]. split; [exact H1 | exact H2].
Defined.

(** C4. Delivery is a broadcast. When the instance's message listener
    gets a captured response, every handler in the listener set whose
    request is unresolved is called with that text: its promise is
    resolved with it and the handler leaves the set. So of two requests
    under way at once, both are resolved with the first captured
    response, whichever request it answers; and in every state a program
    can reach, one captured response resolves the promise of every
    handler in the set and leaves the set empty. *)
Theorem response_broadcast text w :
  (forall r q,
     r ∈ responseListeners w -> requests w !! r = Some q -> resolved q = false ->
     requests (onMessage (CAPTURED_RESPONSE text) w) !! r
     = Some (call (resolve text) (clearTimeout (markResolved q)))
     /\ r ∉ responseListeners (onMessage (CAPTURED_RESPONSE text) w))
  /\ (forall p1 p2 o1 o2,
      invalidPrompt p1 = false -> invalidPrompt p2 = false ->
      promise 0 (step (Received (CAPTURED_RESPONSE text)) (twoPending p1 p2 o1 o2))
      = Some (resolve text)
      /\ promise 1 (step (Received (CAPTURED_RESPONSE text)) (twoPending p1 p2 o1 o2))
         = Some (resolve text))
  /\ (forall l,
      (forall r, r ∈ responseListeners (acts l create) ->
         promise r (onMessage (CAPTURED_RESPONSE text) (acts l create))
         = Some (resolve text))
      /\ responseListeners (onMessage (CAPTURED_RESPONSE text) (acts l create)) = []).
Proof.
  assert (forall w r q,
     r ∈ responseListeners w -> requests w !! r = Some q -> resolved q = false ->
     requests (onMessage (CAPTURED_RESPONSE text) w) !! r
     = Some (call (resolve text) (clearTimeout (markResolved q)))
     /\ r ∉ responseListeners (onMessage (CAPTURED_RESPONSE text) w)) as Hall.
  { intros w' r q Hin Hq Hr. by apply forEachListener_pending. }
  split; [apply Hall|]. split; cycle 1.
  { intros l.
    assert (forall r, r ∈ responseListeners (acts l create) ->
              promise r (onMessage (CAPTURED_RESPONSE text) (acts l create))
              = Some (resolve text)
              /\ r ∉ responseListeners
                       (onMessage (CAPTURED_RESPONSE text) (acts l create))) as Hreach.
    { intros r Hin. destruct (listeners_pending l r Hin) as (q & Hq & Hr & Hs).
      destruct (Hall _ r q Hin Hq Hr) as [Hreq Hout]. split; [|done].
      unfold promise. rewrite Hreq. cbn. by rewrite Hs. }
    split; [intros r Hin; by apply Hreach|].
    destruct (responseListeners (onMessage (CAPTURED_RESPONSE text) (acts l create)))
      as [|r rest] eqn:E; [done|].
    assert (r ∈ responseListeners (onMessage (CAPTURED_RESPONSE text) (acts l create)))
      as Hin by (rewrite E; left).
    pose proof (proj2 (onMessage_shrinks (CAPTURED_RESPONSE text) (acts l create)) r Hin)
      as Hbefore.
    destruct (Hreach r Hbefore) as [_ Hout]. destruct Hout. left. }
  intros p1 p2 o1 o2 Hp1 Hp2.
  set (w2 := twoPending p1 p2 o1 o2).
  assert (responseListeners w2 = [0; 1] /\ busListeners w2 = 1
          /\ (exists q, requests w2 !! 0 = Some q /\ resolved q = false /\ settled q = [])
          /\ (exists q, requests w2 !! 1 = Some q /\ resolved q = false /\ settled q = []))
    as (Hl & Hb & (q0 & Hq0 & Hr0 & Hs0) & (q1 & Hq1 & Hr1 & Hs1)).
  { subst w2. unfold twoPending, sendPrompt. simpl. rewrite Hp1. simpl. rewrite Hp2.
    simpl. repeat split; eexists; (split; [reflexivity | by split]). }
  unfold step. rewrite Hb.
  change (Nat.iter 1 (onMessage (CAPTURED_RESPONSE text)) w2)
    with (onMessage (CAPTURED_RESPONSE text) w2).
  unfold promise.
  destruct (Hall w2 0 q0) as [-> _]; [rewrite Hl; repeat constructor | done | done |].
  destruct (Hall w2 1 q1) as [-> _]; [rewrite Hl; repeat constructor | done | done |].
  cbn. by rewrite Hs0, Hs1.
Qed.

Lemma response_broadcast_witness :
  invalidPrompt (str (js "first")) = false
  /\ invalidPrompt (str (js "second")) = false
  /\ promise 0 (step (Received (CAPTURED_RESPONSE (js "answer")))
                 (twoPending (str (js "first")) (str (js "second")) defaults defaults))
     = Some (resolve (js "answer"))
  /\ promise 1 (step (Received (CAPTURED_RESPONSE (js "answer")))
                 (twoPending (str (js "first")) (str (js "second")) defaults defaults))
     = Some (resolve (js "answer"))
  /\ (1 ∉ responseListeners
           (onMessage (CAPTURED_RESPONSE (js "answer"))
              (twoPending (str (js "first")) (str (js "second")) defaults defaults))).
Proof.
  destruct (response_broadcast (js "answer")
              (twoPending (str (js "first")) (str (js "second")) defaults defaults))
    as (Hall & Htwo & _).
  destruct (Htwo (str (js "first")) (str (js "second")) defaults defaults
              eq_refl eq_refl) as [H0 H1].
  split; [reflexivity|]. split; [reflexivity|]. split; [exact H0|].
  split; [exact H1|].
  refine (proj2 (Hall 1 _ _ eq_refl eq_refl)).
  right. left.
Defined.

(** C5, at the failing input: a valid prompt on an initialized instance
    when the tab lookup finds no ChatGPT tab. The request is started, and
    whatever the program and the browser do afterwards, neither [resolve]
    nor [reject] is ever called for it: the promise is settled zero
    times, not once. *)
Theorem tab_lookup_failure_never_settles p o tabs raised later w :
  isInitialized w = true -> invalidPrompt p = false ->
  _getChatGPTTab tabs = None ->
  snd (sendPrompt p o w) = inr (nextRequest w)
  /\ settlements (nextRequest w)
       (acts later
          (step (TabsQueried (nextRequest w) tabs raised) (fst (sendPrompt p o w))))
     = 0.
Proof.
  intros Hi Hp Ht. split; [by apply sendPrompt_started|].
  destruct (lookup_failure_swallowed p o tabs raised w Hi Hp Ht) as [Hf _].
  by destruct (final_settlements _ _ _ (acts_final later _ _ _ Hf)).
Qed.

Lemma tab_lookup_failure_never_settles_witness :
  isInitialized (initialize create) = true
  /\ invalidPrompt (str (js "hi")) = false
  /\ _getChatGPTTab (Some [otherTab]) = None
  /\ settlements 0
       (acts [Browser (Received (CAPTURED_RESPONSE (js "late answer")));
              Browser (TimerFires 0)]
          (step (TabsQueried 0 (Some [otherTab]) None)
             (fst (sendPrompt (str (js "hi")) defaults (initialize create)))))
     = 0.
Proof.
  split; [reflexivity|]. split; [reflexivity|]. split; [reflexivity|].
  exact (proj2 (tab_lookup_failure_never_settles (str (js "hi")) defaults
                  (Some [otherTab]) None
                  [Browser (Received (CAPTURED_RESPONSE (js "late answer")));
                   Browser (TimerFires 0)]
                  (initialize create) eq_refl eq_refl eq_refl)).
Defined.

(** C9, on the code. Before [initialize()] the call fails with the
    not-initialized error; a prompt that is not a string, or is a string
    that trims to nothing, fails with the invalid-prompt error. With both
    guards passed and no tab whose URL contains one of the two host
    names, the lookup sets [resolved], clears the timer and removes the
    handler, but its "tab not found" error is never passed to [reject]:
    the promise stays pending. *)
Theorem sendPrompt_preconditions p o w :
  (isInitialized w = false -> sendPrompt p o w = (w, inl NotInitialized))
  /\ (isInitialized w = true -> invalidPrompt p = true ->
      sendPrompt p o w = (w, inl InvalidPrompt))
  /\ (invalidPrompt p = true <-> (forall s, p = str s -> trim s = []))
  /\ (forall tabs,
        _getChatGPTTab tabs = None <->
        (forall l, tabs = Some l -> forall tab, In tab l -> isChatGPT tab = false))
  /\ (isInitialized w = true -> invalidPrompt p = false ->
      forall tabs raised, _getChatGPTTab tabs = None ->
        promise (nextRequest w)
          (step (TabsQueried (nextRequest w) tabs raised) (fst (sendPrompt p o w)))
        = None
        /\ final (nextRequest w) []
             (step (TabsQueried (nextRequest w) tabs raised) (fst (sendPrompt p o w)))).
Proof.
  split; [|split; [|split; [|split]]].
  - intros Hi. unfold sendPrompt. by rewrite Hi.
  - intros Hi Hp. unfold sendPrompt. by rewrite Hi, Hp.
  - apply invalidPrompt_spec.
  - apply getChatGPTTab_None.
  - intros Hi Hp tabs raised Ht.
    destruct (lookup_failure_swallowed p o tabs raised w Hi Hp Ht) as [Hf _].
    split; [|done]. by destruct (final_settlements _ _ _ Hf).
Qed.

Lemma sendPrompt_preconditions_witness :
  sendPrompt (str (js "hi")) defaults create = (create, inl NotInitialized)
  /\ sendPrompt (str (js "   ")) defaults (initialize create)
     = (initialize create, inl InvalidPrompt)
  /\ sendPrompt (number 7) defaults (initialize create)
     = (initialize create, inl InvalidPrompt)
  /\ promise 0
       (step (TabsQueried 0 (Some [otherTab]) None)
          (fst (sendPrompt (str (js "hi")) defaults (initialize create))))
     = None.
Proof.
  split; [|split; [|split]].
  - exact (proj1 (sendPrompt_preconditions (str (js "hi")) defaults create) eq_refl).
  - exact (proj1 (proj2 (sendPrompt_preconditions (str (js "   ")) defaults
                           (initialize create))) eq_refl eq_refl).
  - exact (proj1 (proj2 (sendPrompt_preconditions (number 7) defaults
                           (initialize create))) eq_refl eq_refl).
  - exact (proj1 (proj2 (proj2 (proj2 (proj2
             (sendPrompt_preconditions (str (js "hi")) defaults (initialize create)))))
             eq_refl eq_refl (Some [otherTab]) None eq_refl)).
Defined.

End FacadeLaws.

(** ** The Orchestrator *)

Module OrchestratorLaws.
Import Orchestrator.


Lemma content_decides promptText lastError response textarea :
  setProseMirrorContent promptText (Responds lastError response) textarea
  = (nonBlank (visibleText textarea),
     [SendMessage (INJECT_PROSEMIRROR_SCRIPT promptText)]).
Proof.
  unfold setProseMirrorContent, nonBlank.
  by destruct (0 <? length (trim (visibleText textarea))).
Qed.




(** The text that [setProseMirrorContent] reads again. *)
Lemma visibleText_cases textarea :
  (textContent textarea <> [] /\ visibleText textarea = textContent textarea)
  \/ (textContent textarea = [] /\ visibleText textarea = innerText textarea).
Proof.
  unfold visibleText, or_else.
  destruct (textContent textarea); [right | by left].
  split; [done|]. by destruct (innerText textarea).
Qed.

(** C10, as stated, fails on two counts. When [chrome.runtime.sendMessage]
    throws, [setProseMirrorContent] returns [false] without reading the
    textarea again, so the text it shows is not submitted; and a textarea
    whose text is not empty but blank is not submitted either. *)
Lemma visible_text_not_submitted :
  visibleText (contentAtCheck throwingPage) = js "hi"
  /\ fst (setProseMirrorContent (js "hi") (reply throwingPage)
            (contentAtCheck throwingPage)) = false
  /\ handlePrompt (js "hi") throwingPage
     = [Focus; ConsoleError setError; ConsoleError setFailed]
  /\ visibleText (contentAtCheck blanksPage) = js "  "
  /\ fst (setProseMirrorContent (js "hi") (reply blanksPage)
            (contentAtCheck blanksPage)) = false
  /\ handlePrompt (js "hi") blanksPage
     = [Focus; SendMessage (INJECT_PROSEMIRROR_SCRIPT (js "hi"));
        ConsoleError setFailed].
Proof. vm_compute. repeat split; reflexivity. Qed.

(** C10, amended. [setProseMirrorContent] never looks at the Broker's
    answer. It returns [true] exactly when the request could be sent
    ([chrome.runtime.sendMessage] did not throw) and the text read again
    from the textarea, its [textContent] or, when that is empty, its
    [innerText], has a code unit that is not white space: whatever the
    callback got, [lastError], a response of either kind or none. With
    the textarea found, [handlePrompt] then clicks the send button, or
    dispatches Enter when there is none, and starts the detector; when
    the result is [false] it does neither and ends by logging the
    failure. *)
Theorem injection_success_ignores_broker promptText r textarea sendButton :
  (fst (setProseMirrorContent promptText r textarea) = true <->
   r <> Throws
   /\ ((textContent textarea <> []
        /\ exists c, In c (textContent textarea) /\ isWhiteSpace c = false)
       \/ (textContent textarea = []
           /\ exists c, In c (innerText textarea) /\ isWhiteSpace c = false)))
  /\ (fst (setProseMirrorContent promptText r textarea) = true ->
      handlePrompt promptText
        {| textareaFound := true; reply := r;
           contentAtCheck := textarea; sendButtonFound := sendButton |}
      = [Focus; SendMessage (INJECT_PROSEMIRROR_SCRIPT promptText);
         if sendButton then Click else DispatchEnter; WaitForResponse])
  /\ (fst (setProseMirrorContent promptText r textarea) = false ->
      submitted (handlePrompt promptText
                   {| textareaFound := true; reply := r;
                      contentAtCheck := textarea; sendButtonFound := sendButton |})
      = false
      /\ detecting (handlePrompt promptText
                      {| textareaFound := true; reply := r;
                         contentAtCheck := textarea; sendButtonFound := sendButton |})
         = false
      /\ last (handlePrompt promptText
                 {| textareaFound := true; reply := r;
                    contentAtCheck := textarea; sendButtonFound := sendButton |})
         = Some (ConsoleError setFailed)).
Proof.
  destruct r as [lastError response|].
  - unfold handlePrompt. cbn [textareaFound negb reply contentAtCheck sendButtonFound].
    rewrite content_decides. cbn [fst snd].
    split; [|split].
    + rewrite JSMore.nonBlank_spec. split.
      * intros (c & Hin & Hc). split; [done|].
        destruct (visibleText_cases textarea) as [[Hne Hv]|[He Hv]];
          rewrite Hv in Hin; [left | right]; eauto.
      * intros (_ & [(Hne & c & Hin & Hc)|(He & c & Hin & Hc)]);
          exists c; (split; [|done]);
          destruct (visibleText_cases textarea) as [[Hne' Hv]|[He' Hv]];
          rewrite Hv; done.
    + intros ->. by destruct sendButton.
    + intros ->. done.
  - split; [|split].
    + split; [done|]. by intros [? _].
    + done.
    + intros _. done.
Qed.

Lemma injection_success_ignores_broker_witness :
  handlePrompt (js "hi") falseNegativePage
  = [Focus; SendMessage (INJECT_PROSEMIRROR_SCRIPT (js "hi"));
     DispatchEnter; WaitForResponse]
  /\ submitted (handlePrompt (js "hi") falsePositivePage) = false
  /\ detecting (handlePrompt (js "hi") falsePositivePage) = false.
Proof.
  destruct (injection_success_ignores_broker (js "hi") (reply falseNegativePage)
              (contentAtCheck falseNegativePage) false) as (H1 & H2 & _).
  destruct (injection_success_ignores_broker (js "hi") (reply falsePositivePage)
              (contentAtCheck falsePositivePage) true) as (_ & _ & H3).
  split.
  - apply H2, H1. split; [done|]. left. split; [done|].
    exists 104%N. split; [by left | reflexivity].
  - destruct (H3 eq_refl) as (H4 & H5 & _). split; [exact H4 | exact H5].
Defined.

(** A reported failure over visible text is submitted; a reported
    success over an empty textarea is not. *)
Lemma broker_report_ignored_examples :
  handlePrompt (js "hi") falseNegativePage
  = [Focus; SendMessage (INJECT_PROSEMIRROR_SCRIPT (js "hi"));
     DispatchEnter; WaitForResponse]
  /\ submitted (handlePrompt (js "hi") falsePositivePage) = false.
Proof. vm_compute. split; reflexivity. Qed.

End OrchestratorLaws.

(** * Further properties *)

(** ** More on the completion detector *)

Module DetectorMore.
Import Detector DetectorFacts.

Lemma streamingAfter_orb streaming doc :
  streamingAfter streaming doc = streaming || hasStopButton doc.
Proof. unfold streamingAfter. by destruct streaming, (hasStopButton doc). Qed.

(** The three ways one check of a running detector can end: it goes on,
    it times out, or it completes. *)
Lemma check_step doc s :
  live s ->
  (live (fst (checkCompletion doc s))
   /\ snd (checkCompletion doc s) = []
   /\ checkCount s < maxChecks
   /\ checkCount (fst (checkCompletion doc s)) = S (checkCount s)
   /\ streamingDetected (fst (checkCompletion doc s))
      = streamingAfter (streamingDetected s) doc
   /\ stableCount (fst (checkCompletion doc s)) <= S (stableCount s)
   /\ (completionConditionsMet (streamingAfter (streamingDetected s) doc) doc = false ->
       stableCount (fst (checkCompletion doc s)) = 0)
   /\ (currentResponseLength doc <> lastResponseLength s ->
       stableCount (fst (checkCompletion doc s)) = 0)
   /\ (0 < currentResponseLength doc ->
       lastResponseLength (fst (checkCompletion doc s)) = currentResponseLength doc))
  \/ (released (fst (checkCompletion doc s))
      /\ isComplete (fst (checkCompletion doc s)) = false
      /\ snd (checkCompletion doc s) = [CAPTURED_RESPONSE timeoutText]
      /\ maxChecks <= checkCount s)
  \/ (released (fst (checkCompletion doc s))
      /\ isComplete (fst (checkCompletion doc s)) = true
      /\ snd (checkCompletion doc s) = [CAPTURED_RESPONSE (responseText doc)]
      /\ checkCount s < maxChecks
      /\ completionConditionsMet (streamingAfter (streamingDetected s) doc) doc = true
      /\ currentResponseLength doc = lastResponseLength s
      /\ 2 <= stableCount s).
Proof.
  intros (Hc & Ho & Hi).
  destruct (decide (checkCount s < maxChecks)) as [Hlt|Hge].
  - destruct (completionConditionsMet (streamingAfter (streamingDetected s) doc) doc)
      eqn:Hm.
    + rewrite (check_candidate _ _ Hc Hlt Hm).
      destruct (Nat.eqb_spec (currentResponseLength doc) (lastResponseLength s))
        as [He|He].
      * destruct (Nat.leb_spec requiredStableChecks (S (stableCount s))) as [Hw|Hw].
        -- right. right. simpl. unfold requiredStableChecks in Hw.
           repeat split; first [done | lia].
        -- left. simpl. unfold requiredStableChecks in Hw.
           repeat split; first [done | lia].
      * left. simpl. repeat split; first [done | lia].
    + left. rewrite (check_quiet _ _ Hc Hlt Hm). simpl.
      repeat split; try first [done | lia].
      intros Hpos. by destruct (Nat.ltb_spec 0 (currentResponseLength doc)); [|lia].
  - right. left.
    destruct (check_timeout doc s Hc ltac:(lia)) as (H1 & H2 & H3).
    repeat split; first [done | apply H2 | lia].
Qed.

Lemma live_not_released s : live s -> released s -> False.
Proof. intros (_ & Ho & _) [Ho' _]. congruence. Qed.

(** A run of a running detector either keeps running, silently, or has
    one tick that ends it; nothing after that tick is looked at. *)
Lemma run_cases ticks s :
  live s ->
  (live (fst (run ticks s))
   /\ snd (run ticks s) = []
   /\ checkCount (fst (run ticks s)) = checkCount s + length ticks
   /\ streamingDetected (fst (run ticks s))
      = streamingDetected s || existsb hasStopButton (pages ticks)
   /\ stableCount (fst (run ticks s)) <= stableCount s + length ticks)
  \/ (exists pre t doc post,
        ticks = pre ++ (t, doc) :: post
        /\ live (fst (run pre s))
        /\ snd (run pre s) = []
        /\ checkCount (fst (run pre s)) = checkCount s + length pre
        /\ streamingDetected (fst (run pre s))
           = streamingDetected s || existsb hasStopButton (pages pre)
        /\ stableCount (fst (run pre s)) <= stableCount s + length pre
        /\ released (fst (checkCompletion doc (fst (run pre s))))
        /\ run ticks s = checkCompletion doc (fst (run pre s))).
Proof.
  revert s. induction ticks as [|[t doc] ticks IH]; intros s Hl.
  - left. simpl. rewrite orb_false_r. repeat split; first [apply Hl | lia].
  - cbn [run]. rewrite (fire_live _ _ _ Hl).
    destruct (check_step doc s Hl)
      as [(Hl1 & Ho1 & Hlt & Hc1 & Hs1 & Hst1 & _)|Hend].
    + rewrite Ho1. cbn [app fst snd].
      destruct (IH _ Hl1) as [(H1 & H2 & H3 & H4 & H5)|
        (pre & t' & doc' & post & -> & H1 & H2 & H3 & H4 & H5 & H6 & H7)].
      * left. repeat split; try first [done | apply H1].
        -- rewrite H3, Hc1. simpl. lia.
        -- rewrite H4, Hs1, streamingAfter_orb. simpl. by rewrite orb_assoc.
        -- simpl. lia.
      * right. exists ((t, doc) :: pre), t', doc', post.
        cbn [app run length]. rewrite (fire_live _ _ _ Hl), Ho1. cbn [app fst snd].
        unfold pages in *. cbn [map existsb snd].
        repeat split; try first [done | apply H1 | apply H6].
        all: try (rewrite H3, Hc1; lia).
        all: try (rewrite H4, Hs1, streamingAfter_orb; by rewrite orb_assoc).
        all: try lia.
        rewrite <- H7. by destruct (run (pre ++ (t', doc') :: post) _).
    + right. exists [], t, doc, ticks. simpl. rewrite orb_false_r.
      assert (released (fst (checkCompletion doc s))) as Hrel
        by (destruct Hend as [H|H]; apply H).
      rewrite (run_released _ _ Hrel). simpl. rewrite app_nil_r.
      repeat split; try first [done | apply Hl | apply Hrel | lia].
      by destruct (checkCompletion doc s).
Qed.

(** The first, immediate check never ends the detector and never counts
    as stable: the stop control it needs to have seen is one it must not
    see. *)
Lemma first_check first :
  live (fst (checkCompletion first armed))
  /\ snd (checkCompletion first armed) = []
  /\ checkCount (fst (checkCompletion first armed)) = 1
  /\ streamingDetected (fst (checkCompletion first armed)) = hasStopButton first
  /\ stableCount (fst (checkCompletion first armed)) = 0.
Proof.
  assert (completionConditionsMet (streamingAfter false first) first = false) as Hm.
  { rewrite completionConditionsMet_eq, streamingAfter_orb. simpl.
    by destruct (hasStopButton first). }
  rewrite (check_quiet first armed eq_refl ltac:(unfold maxChecks; simpl; lia) Hm).
  simpl. rewrite streamingAfter_orb. done.
Qed.

Lemma waitForResponse_cases first later :
  (live (fst (waitForResponse first later))
   /\ snd (waitForResponse first later) = []
   /\ checkCount (fst (waitForResponse first later)) = 1 + length later
   /\ streamingDetected (fst (waitForResponse first later))
      = existsb hasStopButton (first :: pages later)
   /\ stableCount (fst (waitForResponse first later)) <= length later)
  \/ (exists pre t doc post,
        later = pre ++ (t, doc) :: post
        /\ live (fst (waitForResponse first pre))
        /\ snd (waitForResponse first pre) = []
        /\ checkCount (fst (waitForResponse first pre)) = 1 + length pre
        /\ streamingDetected (fst (waitForResponse first pre))
           = existsb hasStopButton (first :: pages pre)
        /\ stableCount (fst (waitForResponse first pre)) <= length pre
        /\ released (fst (checkCompletion doc (fst (waitForResponse first pre))))
        /\ waitForResponse first later
           = checkCompletion doc (fst (waitForResponse first pre))).
Proof.
  destruct (first_check first) as (Hl & Ho & Hc & Hs & Hst).
  unfold waitForResponse. rewrite Ho. cbn [app fst snd existsb].
  destruct (run_cases later _ Hl) as [(H1 & H2 & H3 & H4 & H5)|
    (pre & t & doc & post & -> & H1 & H2 & H3 & H4 & H5 & H6 & H7)].
  - left. rewrite H3, H4, Hc, Hs. repeat split; try first [done | apply H1 | lia].
  - right. exists pre, t, doc, post. rewrite H3, H4, Hc, Hs.
    repeat split; try first [done | apply H1 | apply H6 | lia].
    rewrite <- H7. by destruct (run (pre ++ (t, doc) :: post) _).
Qed.

(** X1. One submission, at most one message: a detector either has sent
    nothing and still holds both handles, or has sent exactly one
    [CAPTURED_RESPONSE] (the answer or the timeout sentinel) and has
    released both. *)
Theorem one_message first later :
  (snd (waitForResponse first later) = []
   /\ live (fst (waitForResponse first later)))
  \/ (exists text,
        snd (waitForResponse first later) = [CAPTURED_RESPONSE text]
        /\ released (fst (waitForResponse first later))).
Proof.
  destruct (waitForResponse_cases first later) as [(H1 & H2 & _)|
    (pre & t & doc & post & _ & H1 & _ & _ & _ & _ & H6 & H7)]; [by left|].
  right. rewrite H7.
  destruct (check_step doc _ H1) as [(Hl & _)|[(_ & _ & Ho & _)|(_ & _ & Ho & _)]].
  - by destruct (live_not_released _ Hl H6).
  - eauto.
  - eauto.
Qed.

(** X2. A detector completes only on a tick, the fourth or a later one
    and at most the 300th, whose page shows no stop control and no
    streaming indicator after an earlier tick did show the stop control;
    the one message it has sent is the non-empty [innerText] of that
    page's latest response block. *)
Theorem completion_sound first later :
  isComplete (fst (waitForResponse first later)) = true ->
  exists pre t doc post el,
    later = pre ++ (t, doc) :: post
    /\ 2 <= length pre /\ length pre + 2 <= 300
    /\ Exists (fun d => hasStopButton d = true) (first :: pages pre)
    /\ hasStopButton doc = false /\ streamingIndicator doc = false
    /\ lastResponse doc = Some el /\ innerText el <> []
    /\ snd (waitForResponse first later) = [CAPTURED_RESPONSE (innerText el)].
Proof.
  intros Hdone.
  destruct (waitForResponse_cases first later) as [((Hc & _) & _)|
    (pre & t & doc & post & -> & H1 & _ & H3 & H4 & H5 & H6 & H7)];
    [congruence|].
  rewrite H7 in Hdone |- *.
  destruct (check_step doc _ H1) as
    [((Hc & _) & _)|[(_ & Hc & _)|(_ & _ & Ho & Hlt & Hm & _ & Hst)]];
    try congruence.
  rewrite completionConditionsMet_eq, streamingAfter_orb in Hm.
  apply andb_true_iff in Hm as [Hm Hq]. apply andb_true_iff in Hm as [Hm Hlen].
  apply andb_true_iff in Hm as [Hm Hstop]. apply negb_true_iff in Hstop.
  rewrite Hstop, orb_false_r, H4 in Hm.
  unfold quiescent in Hq. apply andb_true_iff in Hq as [Hq _].
  apply negb_true_iff in Hq.
  unfold currentResponseLength in Hlen. unfold responseText in Ho.
  destruct (lastResponse doc) as [el|] eqn:El; [|done].
  apply Nat.ltb_lt in Hlen.
  exists pre, t, doc, post, el. unfold maxChecks in Hlt.
  repeat split; try first [done | lia].
  - apply Exists_exists. apply existsb_exists in Hm as (d & Hin & Hd).
    exists d. split; [by apply list_elem_of_In | done].
  - intros Hnil. rewrite Hnil in Hlen. simpl in Hlen. lia.
  - rewrite Ho. destruct (innerText el); [simpl in Hlen; lia | done].
Qed.

Lemma completion_sound_witness :
  isComplete (fst (waitForResponse streamingPage
                     (stabilityRun ++ [(Mutation, answerPage)]))) = true
  /\ exists pre t doc post el,
       stabilityRun ++ [(Mutation, answerPage)] = pre ++ (t, doc) :: post
       /\ 2 <= length pre /\ length pre + 2 <= 300
       /\ Exists (fun d => hasStopButton d = true) (streamingPage :: pages pre)
       /\ hasStopButton doc = false /\ streamingIndicator doc = false
       /\ lastResponse doc = Some el /\ innerText el <> []
       /\ snd (waitForResponse streamingPage
                 (stabilityRun ++ [(Mutation, answerPage)]))
          = [CAPTURED_RESPONSE (innerText el)].
Proof.
  split; [reflexivity|].
  exact (completion_sound streamingPage
           (stabilityRun ++ [(Mutation, answerPage)]) eq_refl).
Defined.

Lemma check_streaming doc s :
  (streamingDetected s = true ->
   streamingDetected (fst (checkCompletion doc s)) = true)
  /\ (streamingDetected (fst (checkCompletion doc s)) = true ->
      streamingDetected s = true \/ hasStopButton doc = true).
Proof.
  unfold checkCompletion. rewrite !streamingAfter_orb.
  repeat case_match; simpl; split; intros Hsd; rewrite ?Hsd; auto;
    by apply orb_true_iff in Hsd.
Qed.

Lemma fire_streaming t doc s :
  (streamingDetected s = true -> streamingDetected (fst (fire t doc s)) = true)
  /\ (streamingDetected (fst (fire t doc s)) = true ->
      streamingDetected s = true \/ hasStopButton doc = true).
Proof.
  destruct (check_streaming doc s) as [H1 H2].
  destruct t; simpl; repeat case_match; simpl; auto.
Qed.

Lemma run_streaming ticks s :
  (streamingDetected s = true -> streamingDetected (fst (run ticks s)) = true)
  /\ (streamingDetected (fst (run ticks s)) = true ->
      streamingDetected s = true
      \/ Exists (fun d => hasStopButton d = true) (pages ticks)).
Proof.
  revert s. induction ticks as [|[t doc] ticks IH]; intros s; simpl; [auto|].
  destruct (fire_streaming t doc s) as [H1 H2].
  destruct (IH (fst (fire t doc s))) as [H3 H4]. split; [auto|].
  intros H. destruct (H4 H) as [H5|H5].
  - destruct (H2 H5); [by left|]. right. by left.
  - right. by right.
Qed.

(** X3. [streamingDetected] is set only by a tick that shows a stop
    control, and once set it stays set at every later tick. *)
Theorem streaming_flag first later :
  (streamingDetected (fst (waitForResponse first later)) = true ->
   Exists (fun d => hasStopButton d = true) (first :: pages later))
  /\ (forall k k', k <= k' ->
        streamingDetected (fst (afterTick k first later)) = true ->
        streamingDetected (fst (afterTick k' first later)) = true).
Proof.
  split.
  - unfold waitForResponse. cbn [fst]. intros H.
    destruct (run_streaming later (fst (checkCompletion first armed))) as [_ H2].
    destruct (H2 H) as [H3|H3]; [|by right].
    destruct (check_streaming first armed) as [_ H4].
    destruct (H4 H3) as [H5|H5]; [done | by left].
  - intros k k' Hk. unfold afterTick, waitForResponse. cbn [fst].
    replace (k' - 1) with ((k - 1) + ((k' - 1) - (k - 1))) by lia.
    rewrite <- take_take_drop, run_app. cbn [fst].
    apply run_streaming.
Qed.

Lemma streaming_flag_witness :
  1 <= 4
  /\ streamingDetected (fst (afterTick 1 streamingPage stabilityRun)) = true
  /\ streamingDetected (fst (afterTick 4 streamingPage stabilityRun)) = true.
Proof.
  assert (1 <= 4) as H by lia. split; [exact H|]. split; [reflexivity|].
  exact (proj2 (streaming_flag streamingPage stabilityRun) 1 4 H eq_refl).
Defined.

Lemma no_stop_never_candidate docs :
  Forall (fun d => hasStopButton d = false) docs ->
  neverCandidate false docs = true.
Proof.
  induction 1 as [|doc docs Hs _ IH]; [done|]. simpl.
  rewrite streamingAfter_orb, Hs. simpl. exact IH.
Qed.

(** X4. An answer whose generation is never observed is not captured:
    when no tick shows a stop control, the detector never completes,
    whatever text the page shows, and after 301 ticks all it has sent is
    the timeout sentinel. *)
Theorem unobserved_streaming_times_out first later :
  Forall (fun d => hasStopButton d = false) (first :: pages later) ->
  (forall k, isComplete (fst (afterTick k first later)) = false)
  /\ (300 <= length later ->
      snd (waitForResponse first later) = [CAPTURED_RESPONSE timeoutText]).
Proof.
  intros Hs. split.
  - intros k.
    pose proof (waitForResponse_never_candidate first (take (k - 1) later)) as H.
    unfold afterTick. case_decide; apply H; try apply no_stop_never_candidate.
    all: inversion Hs as [|? ? H1 H2]; subst; constructor; [done|].
    all: unfold pages in *; rewrite <- firstn_map; by apply Forall_take.
  - intros Hlen.
    pose proof (waitForResponse_never_candidate first later
                  (no_stop_never_candidate _ Hs)) as H.
    rewrite decide_False in H by (unfold maxChecks; lia). apply H.
Qed.

Lemma unobserved_streaming_times_out_witness :
  Forall (fun d => hasStopButton d = false)
    (answerPage :: pages (replicate 300 (Interval, answerPage)))
  /\ isComplete (fst (afterTick 300 answerPage (replicate 300 (Interval, answerPage))))
     = false
  /\ snd (waitForResponse answerPage (replicate 300 (Interval, answerPage)))
     = [CAPTURED_RESPONSE timeoutText].
Proof.
  assert (Forall (fun d => hasStopButton d = false)
            (answerPage :: pages (replicate 300 (Interval, answerPage)))) as Hs.
  { constructor; [reflexivity|].
    change (pages (replicate 300 (Interval, answerPage)))
      with (replicate 300 answerPage).
    by apply Forall_replicate. }
  destruct (unobserved_streaming_times_out answerPage
              (replicate 300 (Interval, answerPage)) Hs) as [H1 H2].
  split; [exact Hs|]. split; [apply H1|]. apply H2.
  rewrite length_replicate. lia.
Defined.

Lemma check_changing doc s :
  live s -> stableCount s = 0 ->
  0 < currentResponseLength doc ->
  currentResponseLength doc <> lastResponseLength s ->
  (live (fst (checkCompletion doc s))
   /\ snd (checkCompletion doc s) = []
   /\ stableCount (fst (checkCompletion doc s)) = 0
   /\ lastResponseLength (fst (checkCompletion doc s)) = currentResponseLength doc)
  \/ (released (fst (checkCompletion doc s))
      /\ isComplete (fst (checkCompletion doc s)) = false
      /\ snd (checkCompletion doc s) = [CAPTURED_RESPONSE timeoutText]).
Proof.
  intros Hl Hst Hpos Hne.
  destruct (check_step doc s Hl) as
    [(H1 & H2 & _ & _ & _ & _ & _ & H3 & H4)|[(H1 & H2 & H3 & _)|(_ & _ & _ & _ & _ & _ & H)]].
  - left. auto.
  - right. auto.
  - lia.
Qed.

Lemma run_changing ticks s :
  live s -> stableCount s = 0 ->
  keepsChanging (lastResponseLength s) (pages ticks) = true ->
  isComplete (fst (run ticks s)) = false
  /\ (snd (run ticks s) = [] \/ snd (run ticks s) = [CAPTURED_RESPONSE timeoutText]).
Proof.
  revert s. induction ticks as [|[t doc] ticks IH]; intros s Hl Hst Hk.
  - simpl. split; [apply Hl | by left].
  - simpl in Hk. apply andb_true_iff in Hk as [Hk Hrest].
    apply andb_true_iff in Hk as [Hpos Hne].
    apply Nat.ltb_lt in Hpos. apply negb_true_iff, Nat.eqb_neq in Hne.
    cbn [run]. rewrite (fire_live _ _ _ Hl).
    destruct (check_changing doc s Hl Hst Hpos Hne) as
      [(H1 & H2 & H3 & H4)|(H1 & H2 & H3)].
    + rewrite H2. cbn [app fst snd]. apply IH; [done | done |]. by rewrite H4.
    + rewrite (run_released _ _ H1), H3. cbn [app fst snd]. auto.
Qed.

Lemma keepsChanging_take n prev docs :
  keepsChanging prev docs = true -> keepsChanging prev (take n docs) = true.
Proof.
  revert n prev. induction docs as [|doc docs IH]; intros [|n] prev; simpl; try done.
  intros [H1 H2]%andb_true_iff. rewrite H1. simpl. by apply IH.
Qed.

(** X5. An answer that keeps changing is not captured: when every tick
    shows text of another length than the tick before, the detector
    never completes; all it can send is the timeout sentinel. *)
Theorem changing_response_never_completes first later :
  keepsChanging 0 (first :: pages later) = true ->
  forall k,
    isComplete (fst (afterTick k first later)) = false
    /\ (snd (afterTick k first later) = []
        \/ snd (afterTick k first later) = [CAPTURED_RESPONSE timeoutText]).
Proof.
  intros Hk k.
  assert (keepsChanging 0 (first :: pages (take (k - 1) later)) = true) as Hk'.
  { apply (keepsChanging_take (S (k - 1))) in Hk. cbn [take] in Hk.
    unfold pages in *. by rewrite firstn_map in Hk. }
  clear Hk. cbn [keepsChanging] in Hk'.
  apply andb_true_iff in Hk' as [Hk Hrest].
  apply andb_true_iff in Hk as [Hpos Hne].
  apply Nat.ltb_lt in Hpos. apply negb_true_iff, Nat.eqb_neq in Hne.
  unfold afterTick, waitForResponse.
  destruct (check_changing first armed) as [(H1 & H2 & H3 & H4)|(H1 & H2 & H3)];
    try done.
  - rewrite H2. cbn [app fst snd]. apply run_changing; [done | done |].
    by rewrite H4.
  - destruct (first_check first) as (Hl & _). by destruct (live_not_released _ Hl H1).
Qed.

Lemma changing_response_never_completes_witness :
  keepsChanging 0 (page true [block "H"] :: pages growing) = true
  /\ isComplete (fst (afterTick 5 (page true [block "H"]) growing)) = false.
Proof.
  split; [reflexivity|].
  exact (proj1 (changing_response_never_completes (page true [block "H"]) growing
                  eq_refl 5)).
Defined.

End DetectorMore.

(** ** The injected routine *)

Module InjectionLaws.
Import Injection.

Lemma check_sound_mutual :
  (forall obj r, checkObject obj = Some r ->
     reaches obj r /\ viewShaped r = true /\ exists ps, r = Object false ps)
  /\ (forall ps r, checkProps ps = Some r ->
        exists v, child ps v /\ reaches v r /\ viewShaped r = true
                  /\ exists ps', r = Object false ps').
Proof.
  apply Value_Props_ind.
  - intros b r H. discriminate H.
  - intros [|] ps IH r H; [discriminate H|].
    cbn [checkObject] in H.
    destruct (viewShaped (Object false ps)) eqn:E.
    + injection H as <-. split; [constructor|]. split; [done|]. by exists ps.
    + destruct (IH r H) as (v & Hc & Hr & Hv & Hps).
      split; [by apply (reaches_below ps v r)|]. by split.
  - intros r H. discriminate H.
  - intros key enumerable v IHv rest IHrest r H.
    cbn [checkProps] in H. cbn [child].
    destruct (enumerable && qualifies key) eqn:E.
    + destruct (checkObject v) as [r'|] eqn:Ec.
      * injection H as <-. apply andb_true_iff in E as [-> Hq].
        destruct (IHv r' eq_refl) as (Hr & Hv & Hps).
        exists v. split; [by left | by split].
      * destruct (IHrest r H) as (v' & Hc & Hrest). exists v'.
        split; [by right | done].
    + destruct (IHrest r H) as (v' & Hc & Hrest). exists v'.
      split; [by right | done].
Qed.

Lemma reaches_non_callable v r ps :
  reaches v r -> r = Object false ps ->
  exists ps', v = Object false ps'.
Proof. intros [v'|ps' v' r' _ _] ->; eauto. Qed.

Lemma check_complete_mutual :
  (forall obj r ps, reaches obj r -> viewShaped r = true -> r = Object false ps ->
     exists r', checkObject obj = Some r')
  /\ (forall ps v r ps', child ps v -> reaches v r -> viewShaped r = true ->
        r = Object false ps' -> exists r', checkProps ps = Some r').
Proof.
  apply Value_Props_ind.
  - intros b r ps Hr Hv ->.
    by destruct (reaches_non_callable _ _ _ Hr eq_refl) as (ps' & [=]).
  - intros c ps IH r ps' Hr Hv ->.
    destruct (reaches_non_callable _ _ _ Hr eq_refl) as (ps0 & [= -> <-]).
    cbn [checkObject]. destruct (viewShaped (Object false ps)) eqn:E; [eauto|].
    inversion Hr as [|ps1 v r1 Hc Hr1]; subst; [congruence|].
    exact (IH v _ ps' Hc Hr1 Hv eq_refl).
  - intros v r ps' [].
  - intros key enumerable v IHv rest IHrest v' r ps' Hc Hr Hv ->.
    cbn [checkProps]. cbn [child] in Hc.
    destruct Hc as [(-> & Hq & ->)|Hc].
    + rewrite Hq. simpl.
      destruct (IHv _ ps' Hr Hv eq_refl) as (r' & ->). eauto.
    + destruct (IHrest v' _ ps' Hc Hr Hv eq_refl) as (r' & Hrest).
      destruct (enumerable && qualifies key); [|eauto].
      destruct (checkObject v); eauto.
Qed.

(** X6. [checkObject] returns only objects of the view shape (truthy
    [dispatch], [state] and [state.doc]) that are its argument or lie
    below it along enumerable properties whose key contains "view" or
    "prosemirror" (in lower case) or is "pmView"; it finds one exactly
    when there is one to reach that way. A view under any other key,
    [editorView] for one, is not found. *)
Theorem checkObject_spec obj :
  (forall r, checkObject obj = Some r ->
     reaches obj r /\ viewShaped r = true /\ exists ps, r = Object false ps)
  /\ (is_Some (checkObject obj) <->
      exists r ps, reaches obj r /\ viewShaped r = true /\ r = Object false ps)
  /\ (forall ps, obj = Object false ps -> viewShaped obj = true ->
        checkObject obj = Some obj).
Proof.
  destruct check_sound_mutual as [Hs _]. destruct check_complete_mutual as [Hc _].
  split; [apply Hs|]. split; [split|].
  - intros [r Hr]. destruct (Hs obj r Hr) as (H1 & H2 & ps & H3). eauto.
  - intros (r & ps & H1 & H2 & H3). destruct (Hc obj r ps H1 H2 H3) as [r' ->].
    eauto.
  - intros ps -> Hv. cbn [checkObject]. by rewrite Hv.
Qed.

Lemma checkObject_spec_witness :
  checkObject sampleHolder = Some sampleView
  /\ reaches sampleHolder sampleView
  /\ viewShaped sampleView = true
  /\ checkObject hiddenHolder = None.
Proof.
  destruct (proj1 (checkObject_spec sampleHolder) sampleView eq_refl)
    as (H1 & H2 & _).
  split; [reflexivity|]. split; [exact H1|]. split; [exact H2 | reflexivity].
Defined.

Lemma routine_outcome page :
  exists t m,
    injectProseMirrorCode page = [(t, m)]
    /\ (t = 0 \/ t = 300 \/ t = 500)
    /\ (forall before time, 500 <= time ->
          markerAt time before (injectProseMirrorCode page) = Some m)
    /\ (Broker.succeeded m = true <->
        textarea page = true /\ findError page = None
        /\ ((usableView page = true /\ dispatchError page = None)
            \/ (usableView page = false /\ domError page = None
                /\ (nonBlank (visibleText (contentAt300 page)) = true
                    \/ nonBlank (visibleText (contentAt500 page)) = true))))
    /\ (Broker.succeeded m = false ->
        Broker.success m = None /\ is_Some (Broker.error m)).
Proof.
  assert (forall t m before time, t <= 500 -> 500 <= time ->
            markerAt time before [(t, m)] = Some m) as Hat.
  { intros t m before time Ht Htime. unfold markerAt. simpl.
    by destruct (Nat.leb_spec t time); [|lia]. }
  assert (exists t m,
    injectProseMirrorCode page = [(t, m)]
    /\ (t = 0 \/ t = 300 \/ t = 500)
    /\ (Broker.succeeded m = true <->
        textarea page = true /\ findError page = None
        /\ ((usableView page = true /\ dispatchError page = None)
            \/ (usableView page = false /\ domError page = None
                /\ (nonBlank (visibleText (contentAt300 page)) = true
                    \/ nonBlank (visibleText (contentAt500 page)) = true))))
    /\ (Broker.succeeded m = false ->
        Broker.success m = None /\ is_Some (Broker.error m)))
    as (t & m & E & Ht & Hiff & Hshape).
  { unfold injectProseMirrorCode, setContentViaDOM, usableView.
    destruct (textarea page), (findError page), (pmView page) as [view|],
      (dispatchError page), (domError page),
      (nonBlank (visibleText (contentAt300 page))),
      (nonBlank (visibleText (contentAt500 page)));
      cbn [negb]; try destruct (isTruthy (prop view "dispatch"));
      eexists _, _; (split; [reflexivity|]); (split; [auto|]);
      (split; [cbn; intuition congruence | cbn; intuition (eauto; congruence)]). }
  exists t, m. rewrite E. split; [done|]. split; [done|]. split; [|done].
  intros before time Htime. apply Hat; lia.
Qed.

(** X7. Every call of the routine assigns the result marker exactly
    once, at 0, 300 or 500 ms, so that from 500 ms on the marker is this
    call's result whatever it held before. The result marks success
    exactly when the textarea exists, looking for the view raised no
    exception, and either a view with [dispatch] took the transaction
    or, without such a view, the DOM writes raised nothing and the
    textarea showed text at the first or the second check; a result that
    does not mark success carries an [error] and no [success]. *)
Theorem routine_result page :
  exists t m,
    injectProseMirrorCode page = [(t, m)]
    /\ (t = 0 \/ t = 300 \/ t = 500)
    /\ (forall before time, 500 <= time ->
          markerAt time before (injectProseMirrorCode page) = Some m)
    /\ (Broker.succeeded m = true <->
        textarea page = true /\ findError page = None
        /\ ((usableView page = true /\ dispatchError page = None)
            \/ (usableView page = false /\ domError page = None
                /\ (nonBlank (visibleText (contentAt300 page)) = true
                    \/ nonBlank (visibleText (contentAt500 page)) = true))))
    /\ (Broker.succeeded m = false ->
        Broker.success m = None /\ is_Some (Broker.error m)).
Proof. exact (routine_outcome page). Qed.

End InjectionLaws.

(** ** More on the Orchestrator *)

Module OrchestratorMore.
Import Orchestrator.

(** X11. What [handlePrompt] does, case by case. Without the textarea
    it only logs that. With it, it focuses the textarea and asks for the
    injection; when the request's callback ran and the textarea then
    shows text, it clicks the send button if there is one and dispatches
    an Enter keydown otherwise, and starts the detector right after, in
    both cases; when the request itself throws, or the text is blank, it
    logs the failure and stops. It never sends anything but the
    injection request. *)
Theorem handlePrompt_cases promptText page :
  (textareaFound page = false ->
   handlePrompt promptText page = [ConsoleError textareaMissing])
  /\ (textareaFound page = true ->
      forall lastError response, reply page = Responds lastError response ->
      handlePrompt promptText page =
      [Focus; SendMessage (INJECT_PROSEMIRROR_SCRIPT promptText)]
      ++ (if nonBlank (visibleText (contentAtCheck page)) then
            [if sendButtonFound page then Click else DispatchEnter; WaitForResponse]
          else [ConsoleError setFailed]))
  /\ (textareaFound page = true -> reply page = Throws ->
      handlePrompt promptText page =
      [Focus; ConsoleError setError; ConsoleError setFailed])
  /\ detecting (handlePrompt promptText page) = submitted (handlePrompt promptText page)
  /\ (forall m, In m (sent (handlePrompt promptText page)) ->
        m = INJECT_PROSEMIRROR_SCRIPT promptText).
Proof.
  unfold handlePrompt, setProseMirrorContent, nonBlank.
  destruct (textareaFound page), (reply page) as [lastError response|],
    (0 <? length (trim (visibleText (contentAtCheck page)))),
    (sendButtonFound page); cbn;
    repeat split; try done; try (intros ? ? [= <- <-]; done);
    intros m Hm; intuition.
Qed.

Lemma handlePrompt_cases_witness :
  handlePrompt (js "hi") falseNegativePage
  = [Focus; SendMessage (INJECT_PROSEMIRROR_SCRIPT (js "hi"));
     DispatchEnter; WaitForResponse]
  /\ handlePrompt (js "hi") falsePositivePage
     = [Focus; SendMessage (INJECT_PROSEMIRROR_SCRIPT (js "hi"));
        ConsoleError setFailed].
Proof.
  split.
  - exact (proj1 (proj2 (handlePrompt_cases (js "hi") falseNegativePage))
             eq_refl _ _ eq_refl).
  - exact (proj1 (proj2 (handlePrompt_cases (js "hi") falsePositivePage))
             eq_refl _ _ eq_refl).
Defined.

End OrchestratorMore.

(** ** More on the Facade *)

Module FacadeMore.
Import Facade FacadeFacts.

Lemma evolves_refl w : evolves w w.
Proof. by repeat split. Qed.

Lemma evolves_trans w1 w2 w3 : evolves w1 w2 -> evolves w2 w3 -> evolves w1 w3.
Proof.
  intros (A1 & A2 & A3 & A4 & A5 & A6) (B1 & B2 & B3 & B4 & B5 & B6).
  repeat split; try congruence.
  - intros H. by apply A5, B5.
  - intros H. by apply B5, A5.
  - by etransitivity.
Qed.

Lemma update_evolves r f w : evolves w (update r f w).
Proof.
  repeat split; try done; cbn.
  - rewrite lookup_alter_is_Some. done.
  - rewrite lookup_alter_is_Some. done.
Qed.

Lemma deleteListener_evolves r w : evolves w (deleteListener r w).
Proof. repeat split; try done. cbn. apply sublist_filter. Qed.

Lemma postToTab_evolves tab m w : evolves w (postToTab tab m w).
Proof. by repeat split. Qed.

Lemma delete_update_evolves r f w : evolves w (deleteListener r (update r f w)).
Proof.
  eapply evolves_trans; [apply update_evolves | apply deleteListener_evolves].
Qed.

Lemma responseHandler_evolves r text w : evolves w (responseHandler r text w).
Proof.
  unfold responseHandler. repeat case_match;
    auto using evolves_refl, delete_update_evolves.
Qed.

Lemma timeoutCallback_evolves r w : evolves w (timeoutCallback r w).
Proof.
  unfold timeoutCallback. repeat case_match;
    auto using evolves_refl, delete_update_evolves.
Qed.

Lemma catchBlock_evolves r e w : evolves w (catchBlock r e w).
Proof.
  unfold catchBlock. repeat case_match;
    auto using evolves_refl, delete_update_evolves.
Qed.

Lemma afterTabLookup_evolves r tabs raised w :
  evolves w (afterTabLookup r tabs raised w).
Proof.
  unfold afterTabLookup. repeat case_match;
    eauto using evolves_refl, evolves_trans, update_evolves,
      delete_update_evolves, catchBlock_evolves, postToTab_evolves.
Qed.

Lemma sendCallback_evolves r lastError w : evolves w (sendCallback r lastError w).
Proof.
  unfold sendCallback. repeat case_match;
    auto using evolves_refl, update_evolves, delete_update_evolves.
Qed.

Lemma forEachListener_evolves handlers text w :
  evolves w (forEachListener handlers text w).
Proof.
  revert w. induction handlers as [|h handlers IH]; intros w;
    [apply evolves_refl|].
  simpl. case_decide; [|apply IH].
  eapply evolves_trans; [apply responseHandler_evolves | apply IH].
Qed.

Lemma onMessage_evolves m w : evolves w (onMessage m w).
Proof.
  destruct m; simpl; try apply evolves_refl. apply forEachListener_evolves.
Qed.

Lemma step_evolves e w : evolves w (step e w).
Proof.
  destruct e as [r|r tabs raised|r lastError|m]; simpl.
  - repeat case_match; eauto using evolves_refl, evolves_trans,
      update_evolves, timeoutCallback_evolves.
  - repeat case_match; auto using evolves_refl, afterTabLookup_evolves.
  - repeat case_match; auto using evolves_refl, sendCallback_evolves.
  - induction (busListeners w) as [|n IH]; [apply evolves_refl|].
    simpl. eapply evolves_trans; [apply IH | apply onMessage_evolves].
Qed.

Lemma evolves_wellFormed w w' : evolves w w' -> wellFormed w -> wellFormed w'.
Proof.
  intros (A1 & A2 & A3 & A4 & A5 & A6) (B1 & B2 & B3 & B4 & B5).
  unfold wellFormed. rewrite A1, A2, A3, A4. repeat split; try done.
  - by eapply sublist_NoDup.
  - intros r Hr. apply B2. by eapply elem_of_sublist.
  - intros r Hr. by apply B3, A5.
Qed.

Lemma sendPrompt_wellFormed p o w :
  wellFormed w -> wellFormed (fst (sendPrompt p o w)).
Proof.
  intros Hw. pose proof Hw as (B1 & B2 & B3 & B4 & B5). unfold sendPrompt.
  destruct (isInitialized w) eqn:Ei; simpl; [|exact Hw].
  destruct (invalidPrompt p); simpl; [exact Hw|].
  unfold wellFormed. cbn. repeat split; try done.
  - case_decide; [done|]. apply NoDup_app. repeat split; [done| |apply NoDup_singleton].
    intros r Hr Hr'. apply list_elem_of_singleton in Hr' as ->.
    specialize (B2 _ Hr). lia.
  - intros r Hr. case_decide.
    + specialize (B2 _ Hr). lia.
    + apply elem_of_app in Hr as [Hr|Hr]; [specialize (B2 _ Hr); lia|].
      apply list_elem_of_singleton in Hr as ->. lia.
  - intros r. rewrite lookup_insert_is_Some. intros [->|[_ Hr]]; [lia|].
    specialize (B3 _ Hr). lia.
Qed.

Lemma initialize_wellFormed w : wellFormed w -> wellFormed (initialize w).
Proof.
  intros Hw. pose proof Hw as (B1 & B2 & B3 & B4 & B5). unfold initialize.
  destruct (isInitialized w) eqn:Ei; [exact Hw|].
  unfold wellFormed. cbn. repeat split; try done.
  destruct (messageListener w); simpl in *; lia.
Qed.

Lemma acts_wellFormed l w : wellFormed w -> wellFormed (acts l w).
Proof.
  revert w. induction l as [|a l IH]; intros w Hw; [done|].
  simpl. apply IH. destruct a as [|p o|e]; simpl.
  - by apply initialize_wellFormed.
  - by apply sendPrompt_wellFormed.
  - exact (evolves_wellFormed _ _ (step_evolves e w) Hw).
Qed.

Lemma create_wellFormed : wellFormed create.
Proof.
  unfold wellFormed, create. cbn. repeat split; try done.
  - constructor.
  - intros r Hr. by apply elem_of_nil in Hr.
  - intros r [q Hq]. by rewrite lookup_empty in Hq.
Qed.

Lemma reachable_wellFormed l : wellFormed (acts l create).
Proof. apply acts_wellFormed, create_wellFormed. Qed.

(** *** Single steps on a request in a known state *)

Lemma step_tab_found r q tabs tab w :
  requests w !! r = Some q -> stage q = AwaitingTab ->
  _getChatGPTTab tabs = Some tab ->
  step (TabsQueried r tabs None) w
  = postToTab tab (PROMPT_CHATGPT (trim (prompt q)))
      (update r (fun q => atStage AwaitingAck (report "Sending prompt..." q)) w).
Proof.
  intros Hq Hs Ht. unfold step. rewrite Hq, Hs.
  unfold afterTabLookup. by rewrite Hq, Ht.
Qed.

Lemma step_tab_raised r q tabs tab message w :
  requests w !! r = Some q -> stage q = AwaitingTab -> resolved q = false ->
  _getChatGPTTab tabs = Some tab ->
  step (TabsQueried r tabs (Some message)) w
  = deleteListener r
      (update r (fun q => call (reject (Thrown message))
                            (clearTimeout (markResolved q)))
         (update r (atStage Finished) w)).
Proof.
  intros Hq Hs Hr Ht. unfold step. rewrite Hq, Hs.
  unfold afterTabLookup. rewrite Hq, Ht. unfold catchBlock. cbn.
  by rewrite lookup_alter_eq, Hq; cbn; rewrite Hr.
Qed.

Lemma step_ack r q w :
  requests w !! r = Some q -> stage q = AwaitingAck ->
  step (Acknowledged r None) w
  = update r (fun q => atStage Finished (report "Waiting for response..." q)) w.
Proof.
  intros Hq Hs. unfold step. rewrite Hq, Hs. unfold sendCallback. by rewrite Hq.
Qed.

Lemma step_ack_failed r q message w :
  requests w !! r = Some q -> stage q = AwaitingAck -> resolved q = false ->
  step (Acknowledged r (Some message)) w
  = deleteListener r
      (update r (fun q => atStage Finished
                            (call (reject (SendFailed message))
                               (clearTimeout (markResolved q)))) w).
Proof.
  intros Hq Hs Hr. unfold step. rewrite Hq, Hs. unfold sendCallback.
  by rewrite Hq, Hr.
Qed.

Lemma step_timer r q w :
  requests w !! r = Some q -> timer q = true -> resolved q = false ->
  step (TimerFires r) w
  = deleteListener r
      (update r (fun q => call (reject (RequestTimeout (seconds q))) (markResolved q))
         (update r clearTimeout w)).
Proof.
  intros Hq Ht Hr. unfold step. rewrite Hq, Ht. unfold timeoutCallback. cbn.
  by rewrite lookup_alter_eq, Hq; cbn; rewrite Hr.
Qed.

Lemma step_received_one m w :
  busListeners w = 1 -> step (Received m) w = onMessage m w.
Proof. intros H. unfold step. by rewrite H. Qed.

Lemma initialized_bus w :
  wellFormed w -> isInitialized w = true -> busListeners w = 1.
Proof. intros (_ & _ & _ & Hb & Hm) Hi. by rewrite Hb, (Hm Hi). Qed.

Lemma sendPrompt_listening p o w :
  isInitialized w = true -> invalidPrompt p = false ->
  nextRequest w ∈ responseListeners (fst (sendPrompt p o w))
  /\ busListeners (fst (sendPrompt p o w)) = busListeners w
  /\ tabMessages (fst (sendPrompt p o w)) = tabMessages w.
Proof.
  intros Hi Hp. unfold sendPrompt. rewrite Hi, Hp. cbn.
  split; [|done]. case_decide; [done|]. apply elem_of_app. right. by left.
Qed.

Lemma lookup_update r f w : requests (update r f w) !! r = f <$> requests w !! r.
Proof. cbn. apply lookup_alter_eq. Qed.

Lemma lookup_postToTab tab m w r : requests (postToTab tab m w) !! r = requests w !! r.
Proof. done. Qed.

Lemma lookup_deleteListener h w r : requests (deleteListener h w) !! r = requests w !! r.
Proof. done. Qed.

Lemma onMessage_tabMessages m w : tabMessages (onMessage m w) = tabMessages w.
Proof.
  destruct m; try done. simpl. unfold _handleResponse.
  generalize (responseListeners w) at 1. intros handlers. revert w.
  induction handlers as [|h handlers IH]; intros w; [done|].
  simpl. rewrite IH. case_decide; [|done].
  unfold responseHandler. by repeat case_match.
Qed.

(** X12. A prompt's way out and back. On an initialized instance with a
    ChatGPT tab open ([isAvailable]), [sendPrompt] with a prompt that is
    not blank posts one [PROMPT_CHATGPT] message with the trimmed prompt
    to the first matching tab; the progress callback gets "Sending
    prompt..." and, after the acknowledgement, "Waiting for
    response..."; the captured response that arrives then resolves the
    promise with its text, by one call of [resolve], clears the timer and
    takes the handler out of the listener set. *)
Theorem prompt_round_trip p o tabs text w :
  wellFormed w -> isInitialized w = true ->
  invalidPrompt p = false -> isAvailable tabs = true ->
  exists tab q,
    _getChatGPTTab tabs = Some tab
    /\ tabMessages
         (steps [TabsQueried (nextRequest w) tabs None;
                 Acknowledged (nextRequest w) None;
                 Received (CAPTURED_RESPONSE text)]
            (fst (sendPrompt p o w)))
       = tabMessages w ++ [(id tab, PROMPT_CHATGPT (trim (promptString p)))]
    /\ requests
         (steps [TabsQueried (nextRequest w) tabs None;
                 Acknowledged (nextRequest w) None;
                 Received (CAPTURED_RESPONSE text)]
            (fst (sendPrompt p o w))) !! nextRequest w = Some q
    /\ settled q = [resolve text]
    /\ progress q = [js "Sending prompt..."; js "Waiting for response..."]
    /\ resolved q = true /\ timer q = false
    /\ (nextRequest w ∉
          responseListeners
            (steps [TabsQueried (nextRequest w) tabs None;
                    Acknowledged (nextRequest w) None;
                    Received (CAPTURED_RESPONSE text)]
               (fst (sendPrompt p o w)))).
Proof.
  intros Hw Hi Hp Ha.
  unfold isAvailable in Ha. destruct (_getChatGPTTab tabs) as [tab|] eqn:Et; [|done].
  destruct (sendPrompt_started p o w Hi Hp) as (_ & Hq0 & Hn).
  destruct (sendPrompt_listening p o w Hi Hp) as (Hin & Hb & Hm).
  pose proof (initialized_bus w Hw Hi) as Hbus.
  set (w1 := fst (sendPrompt p o w)) in *. set (r := nextRequest w) in *.
  exists tab. unfold steps. cbn [fold_left].
  rewrite (step_tab_found r _ tabs tab w1 Hq0 eq_refl Et).
  set (w2 := postToTab _ _ _).
  assert (exists q1, requests w2 !! r = Some q1 /\ stage q1 = AwaitingAck
            /\ resolved q1 = false /\ settled q1 = []
            /\ progress q1 = [js "Sending prompt..."])
    as (q1 & Hq1 & Hs1 & Hr1 & Hse1 & Hp1).
  { subst w2. rewrite lookup_postToTab, lookup_update, Hq0. cbn [fmap option_fmap option_map].
    eexists. split; [reflexivity|]. done. }
  rewrite (step_ack r q1 w2 Hq1 Hs1).
  set (w3 := update _ _ _).
  assert (exists q2, requests w3 !! r = Some q2
            /\ resolved q2 = false /\ settled q2 = []
            /\ progress q2 = [js "Sending prompt..."; js "Waiting for response..."])
    as (q2 & Hq2 & Hr2 & Hse2 & Hp2).
  { subst w3. rewrite lookup_update, Hq1. cbn [fmap option_fmap option_map].
    eexists. split; [reflexivity|].
    cbn [resolved settled progress atStage report]. by rewrite Hr1, Hse1, Hp1. }
  assert (busListeners w3 = 1) as Hb3 by (subst w3 w2; cbn; congruence).
  assert (r ∈ responseListeners w3) as Hin3 by (subst w3 w2; cbn; done).
  rewrite (step_received_one _ _ Hb3).
  destruct (forEachListener_pending (responseListeners w3) text w3 r q2
              Hin3 Hin3 Hq2 Hr2) as [Hreq Hout].
  eexists. split; [done|]. split.
  { rewrite onMessage_tabMessages. subst w3 w2. cbn. by rewrite Hm. }
  split; [exact Hreq|]. cbn. rewrite Hse2, Hp2. done.
Qed.

Lemma prompt_round_trip_witness :
  wellFormed createChatGPTAPI
  /\ isAvailable (Some [otherTab; chatTab]) = true
  /\ exists q,
       requests
         (steps [TabsQueried 0 (Some [otherTab; chatTab]) None;
                 Acknowledged 0 None;
                 Received (CAPTURED_RESPONSE (js "Hello!"))]
            (fst (sendPrompt (str (js " hi ")) defaults createChatGPTAPI))) !! 0
       = Some q
       /\ settled q = [resolve (js "Hello!")].
Proof.
  assert (wellFormed createChatGPTAPI) as Hw by apply (reachable_wellFormed [Initialize]).
  split; [exact Hw|]. split; [reflexivity|].
  destruct (prompt_round_trip (str (js " hi ")) defaults (Some [otherTab; chatTab])
              (js "Hello!") createChatGPTAPI Hw eq_refl eq_refl eq_refl)
    as (tab & q & _ & _ & Hq & Hs & _).
  exists q. split; [exact Hq | exact Hs].
Defined.

Lemma timeoutOf_default o :
  (timeout o = None \/ timeout o = Some 0%Z -> timeoutOf o = 300%Z)
  /\ (forall t, timeout o = Some t -> t <> 0%Z -> timeoutOf o = t).
Proof.
  unfold timeoutOf. split.
  - by intros [->| ->].
  - intros t -> Ht. by destruct (Z.eqb_spec t 0).
Qed.

(** X13. The timeout. When the timer of an unresolved request fires,
    the promise is rejected with the timeout error naming the request's
    seconds, and the handler leaves the listener set; whatever happens
    afterwards (a late captured response, the tab lookup returning) the
    promise stays as it is, with that one call. A request's seconds are
    [options.timeout], or 300 when that is absent or 0. *)
Theorem timeout_rejects w r q :
  requests w !! r = Some q -> resolved q = false -> timer q = true ->
  settled q = [] -> r < nextRequest w ->
  (r ∉ responseListeners (step (TimerFires r) w))
  /\ (forall later,
        promise r (acts later (step (TimerFires r) w))
        = Some (reject (RequestTimeout (seconds q)))
        /\ settlements r (acts later (step (TimerFires r) w)) = 1)
  /\ (forall p o w0, isInitialized w0 = true -> invalidPrompt p = false ->
        exists q0, requests (fst (sendPrompt p o w0)) !! nextRequest w0 = Some q0
                   /\ seconds q0 = timeoutOf o
                   /\ (timeout o = None \/ timeout o = Some 0%Z ->
                       seconds q0 = 300%Z)).
Proof.
  intros Hq Hr Ht Hs Hn. rewrite (step_timer r q w Hq Ht Hr).
  set (w' := deleteListener r _).
  assert (final r [reject (RequestTimeout (seconds q))] w') as Hf.
  { exists (call (reject (RequestTimeout (seconds q))) (markResolved (clearTimeout q))).
    subst w'. rewrite lookup_deleteListener, lookup_update, lookup_update, Hq.
    cbn. by rewrite Hs. }
  split; [|split].
  - subst w'. cbn. rewrite list_elem_of_filter. tauto.
  - intros later.
    destruct (final_settlements _ _ _ (acts_final later _ _ _ Hf)) as [H1 H2].
    by rewrite H1, H2.
  - intros p o w0 Hi Hp. destruct (sendPrompt_started p o w0 Hi Hp) as (_ & H & _).
    eexists. split; [exact H|]. split; [done|]. apply timeoutOf_default.
Qed.

Lemma timeout_rejects_witness :
  promise 0
    (acts [Browser (Received (CAPTURED_RESPONSE (js "too late")))]
       (step (TimerFires 0) waiting))
  = Some (reject (RequestTimeout 300)).
Proof.
  refine (proj1 (proj1 (proj2 (timeout_rejects waiting 0 _ eq_refl eq_refl eq_refl
                                 eq_refl _)) _)).
  vm_compute. lia.
Defined.

(** X14. Failures on the way to the tab. When the callback of
    [chrome.tabs.sendMessage] finds [lastError] set on an unresolved
    request, the promise is rejected with the send error carrying its
    message; when the progress callback throws after the tab was found,
    it is rejected with that exception. Either way the timer is cleared,
    the handler leaves the listener set, and nothing later changes the
    promise. *)
Theorem send_failure_rejects w r q :
  requests w !! r = Some q -> resolved q = false -> settled q = [] ->
  r < nextRequest w ->
  (stage q = AwaitingAck -> forall message later,
     promise r (acts later (step (Acknowledged r (Some message)) w))
     = Some (reject (SendFailed message))
     /\ (r ∉ responseListeners (step (Acknowledged r (Some message)) w))
     /\ (exists q', requests (step (Acknowledged r (Some message)) w) !! r = Some q'
                    /\ timer q' = false))
  /\ (stage q = AwaitingTab -> forall tabs message later,
        isAvailable tabs = true ->
        promise r (acts later (step (TabsQueried r tabs (Some message)) w))
        = Some (reject (Thrown message))
        /\ (r ∉ responseListeners (step (TabsQueried r tabs (Some message)) w))
        /\ (exists q', requests (step (TabsQueried r tabs (Some message)) w) !! r = Some q'
                       /\ timer q' = false)).
Proof.
  intros Hq Hr Hs Hn. split.
  - intros Hst message later. rewrite (step_ack_failed r q message w Hq Hst Hr).
    set (w' := deleteListener r _).
    assert (requests w' !! r
            = Some (atStage Finished (call (reject (SendFailed message))
                                        (clearTimeout (markResolved q))))) as Hq'.
    { subst w'. by rewrite lookup_deleteListener, lookup_update, Hq. }
    assert (final r [reject (SendFailed message)] w') as Hf.
    { eexists. split; [exact Hq'|]. cbn. by rewrite Hs. }
    destruct (final_settlements _ _ _ (acts_final later _ _ _ Hf)) as [_ H2].
    split; [by rewrite H2|]. split; [|eauto].
    subst w'. cbn. rewrite list_elem_of_filter. tauto.
  - intros Hst tabs message later Ha. unfold isAvailable in Ha.
    destruct (_getChatGPTTab tabs) as [tab|] eqn:Et; [|done].
    rewrite (step_tab_raised r q tabs tab message w Hq Hst Hr Et).
    set (w' := deleteListener r _).
    assert (requests w' !! r
            = Some (call (reject (Thrown message))
                      (clearTimeout (markResolved (atStage Finished q))))) as Hq'.
    { subst w'. by rewrite lookup_deleteListener, lookup_update, lookup_update, Hq. }
    assert (final r [reject (Thrown message)] w') as Hf.
    { eexists. split; [exact Hq'|]. cbn. by rewrite Hs. }
    destruct (final_settlements _ _ _ (acts_final later _ _ _ Hf)) as [_ H2].
    split; [by rewrite H2|]. split; [|eauto].
    subst w'. cbn. rewrite list_elem_of_filter. tauto.
Qed.

Lemma send_failure_rejects_witness :
  promise 0
    (acts [Browser (TimerFires 0)]
       (step (Acknowledged 0 (Some (js "Could not establish connection."))) sending))
  = Some (reject (SendFailed (js "Could not establish connection."))).
Proof.
  refine (proj1 (proj1 (send_failure_rejects sending 0 _ eq_refl eq_refl eq_refl _)
                   eq_refl _ _)).
  vm_compute. lia.
Defined.

(** X15. The [resolved] flag is not looked at before the prompt is
    posted: a request whose timer fires while the tab lookup is still
    pending is rejected with the timeout error, and when the lookup then
    finds a tab the prompt is posted to it all the same. *)
Theorem timed_out_prompt_still_posted p o tabs w :
  isInitialized w = true -> invalidPrompt p = false -> isAvailable tabs = true ->
  exists tab,
    _getChatGPTTab tabs = Some tab
    /\ promise (nextRequest w)
         (steps [TimerFires (nextRequest w); TabsQueried (nextRequest w) tabs None]
            (fst (sendPrompt p o w)))
       = Some (reject (RequestTimeout (timeoutOf o)))
    /\ tabMessages
         (steps [TimerFires (nextRequest w); TabsQueried (nextRequest w) tabs None]
            (fst (sendPrompt p o w)))
       = tabMessages w ++ [(id tab, PROMPT_CHATGPT (trim (promptString p)))].
Proof.
  intros Hi Hp Ha. unfold isAvailable in Ha.
  destruct (_getChatGPTTab tabs) as [tab|] eqn:Et; [|done]. exists tab.
  split; [done|].
  destruct (sendPrompt_started p o w Hi Hp) as (_ & Hq0 & Hn).
  destruct (sendPrompt_listening p o w Hi Hp) as (_ & _ & Hm).
  set (w1 := fst (sendPrompt p o w)) in *. set (r := nextRequest w) in *.
  unfold steps. cbn [fold_left].
  rewrite (step_timer r _ w1 Hq0 eq_refl eq_refl).
  set (w2 := deleteListener r _).
  assert (exists q1, requests w2 !! r = Some q1 /\ stage q1 = AwaitingTab
            /\ prompt q1 = promptString p
            /\ settled q1 = [reject (RequestTimeout (timeoutOf o))])
    as (q1 & Hq1 & Hs1 & Hp1 & Hse1).
  { subst w2. rewrite lookup_deleteListener, lookup_update, lookup_update, Hq0.
    eexists. split; [reflexivity|]. done. }
  rewrite (step_tab_found r q1 tabs tab w2 Hq1 Hs1 Et). split.
  - unfold promise. rewrite lookup_postToTab, lookup_update, Hq1. cbn.
    by rewrite Hse1.
  - cbn. by rewrite Hm, Hp1.
Qed.

Lemma timed_out_prompt_still_posted_witness :
  isAvailable (Some [chatTab]) = true
  /\ exists tab,
       tabMessages
         (steps [TimerFires 0; TabsQueried 0 (Some [chatTab]) None]
            (fst (sendPrompt (str (js "hi")) defaults createChatGPTAPI)))
       = [(id tab, PROMPT_CHATGPT (js "hi"))].
Proof.
  split; [reflexivity|].
  destruct (timed_out_prompt_still_posted (str (js "hi")) defaults (Some [chatTab])
              createChatGPTAPI eq_refl eq_refl eq_refl) as (tab & _ & _ & H).
  exists tab. exact H.
Defined.

Lemma find_first {A} (f : A -> bool) l x :
  find f l = Some x <->
  exists l1 l2, l = l1 ++ x :: l2 /\ f x = true
                /\ Forall (fun y => f y = false) l1.
Proof.
  induction l as [|y l IH]; simpl.
  - split; [done|]. intros (l1 & l2 & H & _). by destruct l1.
  - destruct (f y) eqn:E.
    + split.
      * intros [= <-]. by exists [], l.
      * intros (l1 & l2 & H & Hx & Hl1). destruct l1 as [|z l1].
        -- by injection H as ->.
        -- injection H as <- _. inversion Hl1; congruence.
    + rewrite IH. split.
      * intros (l1 & l2 & -> & Hx & Hl1). exists (y :: l1), l2.
        split; [done|]. split; [done | by constructor].
      * intros (l1 & l2 & H & Hx & Hl1). destruct l1 as [|z l1].
        -- injection H as -> _. congruence.
        -- injection H as <- ->. inversion Hl1; subst. eauto.
Qed.

Lemma isChatGPT_spec tab :
  isChatGPT tab = true <->
  exists host pre post,
    In host hosts /\ url tab = Some (pre ++ host ++ post).
Proof.
  unfold isChatGPT, hosts. destruct (url tab) as [u|].
  - split.
    + destruct u as [|c u]; [done|].
      intros [H|H]%orb_true_iff; apply JSMore.includes_spec in H as (pre & post & ->).
      * exists (js "chatgpt.com"), pre, post. split; [by left | done].
      * exists (js "chat.openai.com"), pre, post. split; [by right; left | done].
    + intros (host & pre & post & Hh & [= ->]).
      assert (includes (pre ++ host ++ post) (js "chatgpt.com")
              || includes (pre ++ host ++ post) (js "chat.openai.com") = true) as Hin.
      { apply orb_true_iff.
        destruct Hh as [<-|[<-|[]]]; [left|right];
          apply JSMore.includes_spec; eauto. }
      destruct (pre ++ host ++ post) eqn:E; [|done].
      destruct Hh as [<-|[<-|[]]]; by destruct pre.
  - split; [done|]. by intros (host & pre & post & _ & [=]).
Qed.

(** X16. The tab locator. [_getChatGPTTab] gives the first tab, in the
    order of [chrome.tabs.query], whose URL contains "chatgpt.com" or
    "chat.openai.com" anywhere (a path or a query string will do as well
    as the host), a tab without readable URL never, and none when the
    query is rejected or no tab has such a URL; [isAvailable] says
    whether there is one. *)
Theorem locator_first_match tabs tab :
  (_getChatGPTTab tabs = Some tab <->
   exists l1 l2, tabs = Some (l1 ++ tab :: l2) /\ isChatGPT tab = true
                 /\ Forall (fun t => isChatGPT t = false) l1)
  /\ (isChatGPT tab = true <->
      exists host pre post,
        In host hosts /\ url tab = Some (pre ++ host ++ post))
  /\ (isAvailable tabs = true <->
      exists l t, tabs = Some l /\ In t l /\ isChatGPT t = true).
Proof.
  split; [|split; [apply isChatGPT_spec|]].
  - destruct tabs as [l|]; simpl.
    + rewrite find_first. split.
      * intros (l1 & l2 & -> & H). by exists l1, l2.
      * intros (l1 & l2 & [= ->] & H). by exists l1, l2.
    + split; [done|]. by intros (l1 & l2 & [=] & _).
  - unfold isAvailable. destruct tabs as [l|]; simpl.
    + destruct (find isChatGPT l) as [t|] eqn:E.
      * split; [|done]. intros _. apply find_some in E as [H1 H2]. by exists l, t.
      * split; [done|]. intros (l' & t & [= <-] & Hin & Ht).
        by rewrite (find_none _ _ E t Hin) in Ht.
    + split; [done|]. by intros (l & t & [=] & _).
Qed.

(** X17. The prompts [sendPrompt] accepts are exactly the strings with
    at least one code unit that is not white space; anything else, a
    value that is no string or a string of white space only, is refused
    with the invalid-prompt error on an initialized instance, which it
    leaves unchanged. *)
Theorem accepted_prompts p :
  (invalidPrompt p = false <->
   exists s c, p = str s /\ In c s /\ isWhiteSpace c = false)
  /\ (forall o w, isInitialized w = true ->
        (invalidPrompt p = true -> sendPrompt p o w = (w, inl InvalidPrompt))
        /\ (invalidPrompt p = false ->
            snd (sendPrompt p o w) = inr (nextRequest w))).
Proof.
  split.
  - destruct (invalidPrompt p) eqn:E.
    + split; [done|]. intros (s & c & -> & Hin & Hc).
      pose proof (proj1 (invalidPrompt_spec _) E s eq_refl) as E'.
      apply JSMore.trim_nil in E'. rewrite List.Forall_forall in E'.
      rewrite (E' c Hin) in Hc. done.
    + split; [|done]. intros _.
      destruct p as [| |b|n|s|]; try (by unfold invalidPrompt in E; simpl in E;
        rewrite ?orb_true_r in E).
      assert (nonBlank s = true) as Hnb.
      { unfold nonBlank. apply Nat.ltb_lt.
        destruct (trim s) eqn:Et; [|simpl; lia].
        assert (invalidPrompt (str s) = true) as Hinv
          by (apply invalidPrompt_spec; by intros s' [= <-]).
        congruence. }
      apply JSMore.nonBlank_spec in Hnb as (c & Hin & Hc). by exists s, c.
  - intros o w Hi. split.
    + intros Hp. unfold sendPrompt. by rewrite Hi, Hp.
    + intros Hp. by apply sendPrompt_started.
Qed.

(** X18. The bookkeeping of every run. Whatever a program does with a
    new instance ([initialize], [sendPrompt], and the browser's timers,
    callbacks and messages in any order): the listener set holds no
    handler twice, and only handlers of unresolved requests no
    [resolve] or [reject] was called for; for every request [resolve]
    or [reject] is called at most once, and once it is called the
    handler is out of the set and the timer is cleared; the bus has at
    most one listener, exactly one once the instance is initialized. *)
Theorem bookkeeping l r :
  NoDup (responseListeners (acts l create))
  /\ busListeners (acts l create) <= 1
  /\ (isInitialized (acts l create) = true -> busListeners (acts l create) = 1)
  /\ settlements r (acts l create) <= 1
  /\ (r ∈ responseListeners (acts l create) ->
      exists q, requests (acts l create) !! r = Some q
                /\ resolved q = false /\ settled q = [])
  /\ (0 < settlements r (acts l create) ->
      (r ∉ responseListeners (acts l create))
      /\ (exists q, requests (acts l create) !! r = Some q
                    /\ resolved q = true /\ timer q = false)).
Proof.
  pose proof (reachable_wellFormed l) as Hw.
  pose proof Hw as (H1 & _ & _ & H4 & H5).
  destruct (settled_at_most_once l r) as [H6 H7].
  split; [done|]. split.
  { rewrite H4. destruct (messageListener (acts l create)); lia. }
  split; [by apply initialized_bus|]. split; [done|]. split; [|done].
  apply listeners_pending.
Qed.

End FacadeMore.

(** ** The popup *)

Module PopupLaws.
Import Facade FacadeFacts FacadeMore Popup.

(** *** What a callback does to a request *)

Lemma advances_refl q : advances q q.
Proof.
  split; [done|]. split; [done|]. exists [], [].
  rewrite !app_nil_r. repeat split; constructor.
Qed.

Lemma expected_seconds q q' c :
  seconds q' = seconds q -> expected q c -> expected q' c.
Proof. intros H. destruct c as [|[]]; simpl; try done. congruence. Qed.

Lemma advances_trans q1 q2 q3 :
  advances q1 q2 -> advances q2 q3 -> advances q1 q3.
Proof.
  intros (Hp & Hs & c1 & s1 & Hc1 & Hr1 & Fc1 & Fs1)
         (Hp' & Hs' & c2 & s2 & Hc2 & Hr2 & Fc2 & Fs2).
  split; [congruence|]. split; [congruence|].
  exists (c1 ++ c2), (s1 ++ s2).
  rewrite Hc2, Hc1, Hr2, Hr1, <- !(assoc_L (++)).
  split; [done|]. split; [done|]. split.
  - apply Forall_app. split; [done|].
    eapply Forall_impl; [exact Fc2|]. intros c. by apply expected_seconds.
  - by apply Forall_app.
Qed.

Lemma advances_call c q q' :
  advances q q' -> expected q c -> advances q (call c q').
Proof.
  intros (Hp & Hs & c1 & s1 & Hc1 & Hr1 & Fc1 & Fs1) He.
  split; [done|]. split; [done|]. exists (c1 ++ [c]), s1. cbn.
  rewrite Hc1, <- (assoc_L (++)). repeat split; try done.
  apply Forall_app. split; [done|]. by constructor.
Qed.

Lemma advances_report status q q' :
  advances q q' -> js status ∈ progressTexts -> advances q (report status q').
Proof.
  intros (Hp & Hs & c1 & s1 & Hc1 & Hr1 & Fc1 & Fs1) He.
  split; [done|]. split; [done|]. exists c1, (s1 ++ [js status]). cbn.
  rewrite Hr1, <- (assoc_L (++)). repeat split; try done.
  apply Forall_app. split; [done|]. by constructor.
Qed.

Lemma advances_markResolved q q' : advances q q' -> advances q (markResolved q').
Proof. done. Qed.

Lemma advances_clearTimeout q q' : advances q q' -> advances q (clearTimeout q').
Proof. done. Qed.

Lemma advances_atStage st q q' : advances q q' -> advances q (atStage st q').
Proof. done. Qed.

Ltac adv :=
  intros;
  repeat first
    [ apply advances_refl
    | simple apply advances_atStage
    | simple apply advances_clearTimeout
    | simple apply advances_markResolved
    | simple apply advances_call; [|done] ].

Lemma Advances_refl w : Advances w w.
Proof. intros r q Hq. exists q. split; [done | apply advances_refl]. Qed.

Lemma Advances_trans w1 w2 w3 : Advances w1 w2 -> Advances w2 w3 -> Advances w1 w3.
Proof.
  intros H12 H23 r q Hq. destruct (H12 r q Hq) as (q2 & Hq2 & Ha).
  destruct (H23 r q2 Hq2) as (q3 & Hq3 & Ha'). exists q3.
  split; [done|]. by eapply advances_trans.
Qed.

Lemma Advances_requests w w' : requests w' = requests w -> Advances w w'.
Proof. intros H r q Hq. exists q. rewrite H. split; [done | apply advances_refl]. Qed.

Lemma update_Advances r f w :
  (forall q, advances q (f q)) -> Advances w (update r f w).
Proof.
  intros Hf r' q Hq. destruct (decide (r = r')) as [->|Hne].
  - exists (f q). by rewrite lookup_update, Hq.
  - exists q. cbn. rewrite lookup_alter_ne by done. split; [done | apply advances_refl].
Qed.

Lemma delete_update_Advances r f w :
  (forall q, advances q (f q)) -> Advances w (deleteListener r (update r f w)).
Proof.
  intros Hf. eapply Advances_trans; [by apply update_Advances|].
  by apply Advances_requests.
Qed.

Lemma responseHandler_Advances r text w : Advances w (responseHandler r text w).
Proof.
  unfold responseHandler. repeat case_match; try apply Advances_refl.
  apply delete_update_Advances. adv.
Qed.

Lemma timeoutCallback_Advances r w : Advances w (timeoutCallback r w).
Proof.
  unfold timeoutCallback. repeat case_match; try apply Advances_refl.
  apply delete_update_Advances. adv.
Qed.

Lemma catchBlock_resolved r e w q :
  requests w !! r = Some q -> resolved q = true -> catchBlock r e w = w.
Proof. intros Hq Hr. unfold catchBlock. by rewrite Hq, Hr. Qed.

Lemma afterTabLookup_Advances r tabs w :
  Advances w (afterTabLookup r tabs None w).
Proof.
  unfold afterTabLookup. destruct (requests w !! r) as [q|] eqn:Hq;
    [|apply Advances_refl].
  destruct (_getChatGPTTab tabs) as [tab|].
  - eapply Advances_trans; [|by apply Advances_requests].
    apply update_Advances. intros q'. apply advances_atStage, advances_report.
    + apply advances_refl.
    + by left.
  - destruct (resolved q).
    + apply update_Advances. adv.
    + erewrite catchBlock_resolved.
      * apply delete_update_Advances. adv.
      * by rewrite lookup_deleteListener, lookup_update, Hq.
      * done.
Qed.

Lemma sendCallback_Advances r lastError w :
  Advances w (sendCallback r lastError w).
Proof.
  unfold sendCallback. repeat case_match; try apply Advances_refl.
  - apply update_Advances. adv.
  - apply delete_update_Advances. intros q'.
    adv.
  - apply update_Advances. intros q'. apply advances_atStage, advances_report.
    + apply advances_refl.
    + right. by left.
Qed.

Lemma forEachListener_Advances handlers text w :
  Advances w (forEachListener handlers text w).
Proof.
  revert w. induction handlers as [|h handlers IH]; intros w;
    [apply Advances_refl|].
  simpl. case_decide; [|apply IH].
  eapply Advances_trans; [apply responseHandler_Advances | apply IH].
Qed.

Lemma onMessage_Advances m w : Advances w (onMessage m w).
Proof.
  destruct m; try apply Advances_refl. apply forEachListener_Advances.
Qed.

Lemma step_Advances e w : noRaise e -> Advances w (step e w).
Proof.
  intros Hq. destruct e as [r|r tabs raised|r lastError|m]; simpl.
  - repeat case_match; try apply Advances_refl.
    eapply Advances_trans; [|apply timeoutCallback_Advances].
    apply update_Advances. adv.
  - destruct raised; [done|].
    repeat case_match; try apply Advances_refl. apply afterTabLookup_Advances.
  - repeat case_match; try apply Advances_refl. apply sendCallback_Advances.
  - induction (busListeners w) as [|n IH]; [apply Advances_refl|].
    simpl. eapply Advances_trans; [apply IH | apply onMessage_Advances].
Qed.

Lemma step_requests e w r :
  noRaise e ->
  match requests w !! r with
  | Some q => exists q', requests (step e w) !! r = Some q' /\ advances q q'
  | None => requests (step e w) !! r = None
  end.
Proof.
  intros He. destruct (requests w !! r) as [q|] eqn:Hq.
  - by apply step_Advances.
  - destruct (step_evolves e w) as (_ & _ & _ & _ & Hsame & _).
    apply eq_None_not_Some. rewrite Hsame, Hq. by intros [? [=]].
Qed.

Lemma noRaise_eventOf c : noRaise (eventOf c).
Proof. by destruct c. Qed.

(** The progress reports of one callback are progress texts. *)
Lemma reported_texts c w :
  Forall (fun status => status ∈ progressTexts)
    (reported c w (step (eventOf c) w)).
Proof.
  assert (forall r, Forall (fun status => status ∈ progressTexts)
            (drop (length (progressOf r w))
               (progressOf r (step (eventOf c) w)))) as H.
  { intros r. unfold progressOf.
    pose proof (step_requests (eventOf c) w r (noRaise_eventOf c)) as Hr.
    destruct (requests w !! r) as [q|].
    - destruct Hr as (q' & -> & _ & _ & calls & statuses & _ & -> & _ & Hs).
      by rewrite drop_app_length.
    - rewrite Hr. constructor. }
  destruct c; simpl; auto.
Qed.

(** The call that settles a promise in one callback. *)
Lemma settled_by_step c w r q s :
  requests w !! r = Some q -> promise r w = None ->
  promise r (step (eventOf c) w) = Some s ->
  expected q s.
Proof.
  intros Hq Hp Hs. unfold promise in *. rewrite Hq in Hp.
  pose proof (step_requests (eventOf c) w r (noRaise_eventOf c)) as Hr.
  rewrite Hq in Hr. destruct Hr as (q' & Hq' & _ & _ & calls & statuses & Hc & _ & Hf & _).
  rewrite Hq', Hc in Hs. destruct (settled q); [|done]. simpl in Hs.
  destruct calls as [|c0 calls]; [done|]. injection Hs as <-. by inversion Hf.
Qed.

Lemma acts_snoc l a w : acts (l ++ [a]) w = act a (acts l w).
Proof. unfold acts. by rewrite fold_left_app. Qed.

Lemma popup_run_snoc l i st : run (l ++ [i]) st = handle i (run l st).
Proof. unfold run. by rewrite fold_left_app. Qed.

Lemma popup_run_app l1 l2 st : run (l1 ++ l2) st = run l2 (run l1 st).
Proof. unfold run. by rewrite fold_left_app. Qed.

Lemma nonBlank_length s : nonBlank s = true -> 0 < length s.
Proof.
  intros (c & Hin & _)%JSMore.nonBlank_spec. destruct s; [done | simpl; lia].
Qed.

Lemma nonBlank_valid s : nonBlank s = true -> invalidPrompt (str s) = false.
Proof.
  intros H. destruct (invalidPrompt (str s)) eqn:E; [|done].
  pose proof (proj1 (invalidPrompt_spec _) E s eq_refl) as Ht.
  unfold nonBlank in H. by rewrite Ht in H.
Qed.

(** The progress reports only write the status line. *)
Lemma reports_status statuses u :
  let u' := fold_left (fun u status => onProgress status u) statuses u in
  promptInput u' = promptInput u /\ sendBtn u' = sendBtn u
  /\ randomBtn u' = randomBtn u /\ responseArea u' = responseArea u
  /\ responseText u' = responseText u.
Proof.
  revert u. induction statuses as [|status statuses IH]; intros u; [done|].
  simpl. destruct (IH (onProgress status u)) as (H1 & H2 & H3 & H4 & H5).
  by rewrite H1, H2, H3, H4, H5.
Qed.

Lemma reports_displayable statuses u :
  Forall (fun status => status ∈ progressTexts) statuses ->
  displayable (statusMsg u) ->
  displayable (statusMsg (fold_left (fun u status => onProgress status u) statuses u)).
Proof.
  revert u. induction statuses as [|status statuses IH]; intros u Hf Hd; [done|].
  inversion Hf as [|? ? Hin Hf']; subst. simpl. apply IH; [done|]. simpl.
  unfold progressTexts in Hin.
  apply elem_of_cons in Hin as [->|Hin]; [repeat constructor|].
  apply elem_of_cons in Hin as [->|Hin]; [repeat constructor|].
  by apply elem_of_nil in Hin.
Qed.

(** *** The invariants of the popup *)

Lemma load_sound page raised : sound (load page raised).
Proof.
  destruct raised; [done|]. unfold sound. cbn [load chatGPTAPI phase].
  split; [by exists [Initialize]|]. by repeat split.
Qed.

Lemma executePrompt_sound promptText st :
  sound st -> phase st = Idle -> sound (executePrompt promptText st).
Proof.
  unfold sound, executePrompt. intros Hs Hi.
  destruct (nonBlank promptText) eqn:Hn; simpl.
  - destruct (chatGPTAPI st) as [w|]; simpl; [|done].
    rewrite Hi in Hs. destruct Hs as (H1 & H2 & H3 & _). by repeat split.
  - done.
Qed.

Lemma afterAvailable_sound tabs st : sound st -> sound (afterAvailable tabs st).
Proof.
  unfold afterAvailable. intros Hs.
  destruct (phase st) as [| promptText | r] eqn:Hph; try done.
  destruct (chatGPTAPI st) as [w|] eqn:Hw; [|done].
  unfold sound in Hs. rewrite Hw, Hph in Hs.
  destruct Hs as ((l & Hl) & Hi & Hsec & Hnb).
  destruct (isAvailable tabs); simpl.
  - pose proof (nonBlank_valid _ Hnb) as Hv.
    unfold sendPrompt. rewrite Hi, Hv. cbn [negb].
    unfold sound. cbn [chatGPTAPI phase]. split; [|split; [|split]].
    + exists (l ++ [SendPrompt (str promptText) defaults]).
      rewrite acts_snoc, <- Hl. cbn [act]. unfold sendPrompt.
      by rewrite Hi, Hv.
    + done.
    + intros r q. cbn. intros Hq.
      destruct (decide (r = nextRequest w)) as [->|Hne].
      * rewrite lookup_insert_eq in Hq. by injection Hq as <-.
      * rewrite lookup_insert_ne in Hq by done. by eapply Hsec.
    + unfold promise. cbn. rewrite lookup_insert_eq. split; [by eexists | done].
  - unfold sound. cbn [chatGPTAPI phase]. split; [by exists l|]. by repeat split.
Qed.

Lemma browser_sound c st : sound st -> sound (browser c st).
Proof.
  unfold browser. intros Hs.
  destruct (chatGPTAPI st) as [w|] eqn:Hw; [|done].
  unfold sound in Hs. rewrite Hw in Hs.
  destruct Hs as ((l & Hl) & Hi & Hsec & Hph).
  assert ((exists l', step (eventOf c) w = acts l' create)
          /\ isInitialized (step (eventOf c) w) = true
          /\ (forall r q, requests (step (eventOf c) w) !! r = Some q ->
                seconds q = 300%Z)) as (H1 & H2 & H3).
  { split; [|split].
    - exists (l ++ [Browser (eventOf c)]). by rewrite acts_snoc, <- Hl.
    - destruct (step_evolves (eventOf c) w) as (-> & _). done.
    - intros r q' Hq'.
      pose proof (step_requests (eventOf c) w r (noRaise_eventOf c)) as Hr.
      destruct (requests w !! r) as [q|] eqn:Hq; [|congruence].
      destruct Hr as (q'' & Hq'' & _ & Hs & _).
      rewrite Hq' in Hq''. injection Hq'' as <-. rewrite Hs. by eapply Hsec. }
  destruct (phase st) as [| promptText | r] eqn:Ep.
  - unfold sound. cbn [chatGPTAPI phase]. by repeat split.
  - unfold sound. cbn [chatGPTAPI phase]. by repeat split.
  - destruct (promise r (step (eventOf c) w)) as [s|] eqn:Es;
      unfold sound; cbn [chatGPTAPI phase]; repeat split; try done.
    destruct Hph as [Hsome _].
    by apply (proj2 (proj1 (proj2 (proj2 (proj2 (proj2 (step_evolves (eventOf c) w))))) r)).
Qed.

Lemma handle_sound i st :
  sound st -> (sendBtn (ui st) = false -> phase st = Idle) ->
  (randomBtn (ui st) = false -> phase st = Idle) ->
  sound (handle i st).
Proof.
  intros Hs Hb Hr. destruct i as [value| |i|tabs|c]; simpl.
  - done.
  - destruct (sendBtn (ui st)) eqn:E; [done|]. apply executePrompt_sound; auto.
  - destruct (randomBtn (ui st)) eqn:E; [done|].
    destruct (randomPrompts !! i); [|done].
    apply executePrompt_sound; [done | simpl; auto].
  - by apply afterAvailable_sound.
  - by apply browser_sound.
Qed.

(** While a call is under way, both buttons are disabled and the
    response area is hidden, whatever the page showed at first. *)
Lemma handle_loading i st :
  (phase st <> Idle ->
   sendBtn (ui st) = true /\ randomBtn (ui st) = true /\ responseArea (ui st) = false) ->
  phase (handle i st) <> Idle ->
  sendBtn (ui (handle i st)) = true /\ randomBtn (ui (handle i st)) = true
  /\ responseArea (ui (handle i st)) = false.
Proof.
  intros Hl. destruct i as [value| |i|tabs|c]; simpl.
  - done.
  - destruct (sendBtn (ui st)) eqn:E.
    { intros Hp. destruct (Hl Hp) as (_ & ? & ?). by rewrite E. }
    unfold executePrompt. repeat case_match; simpl; try done.
    all: intros Hp; destruct (Hl Hp) as (H1 & _); congruence.
  - destruct (randomBtn (ui st)) eqn:E.
    { intros Hp. destruct (Hl Hp) as (? & _ & ?). by rewrite E. }
    destruct (randomPrompts !! i).
    2: { intros Hp. destruct (Hl Hp) as (_ & H1 & _). congruence. }
    unfold executePrompt. repeat case_match; simpl; try done.
    all: intros Hp; destruct (Hl Hp) as (_ & H1 & _); congruence.
  - unfold afterAvailable.
    destruct (phase st) as [| promptText | r] eqn:Ep; [done| |].
    2: { intros _. by apply Hl. }
    destruct (chatGPTAPI st) as [w|].
    2: { intros _. by apply Hl. }
    destruct (isAvailable tabs); simpl; [|done].
    destruct (sendPrompt _ _ _) as [w' [e|r]]; simpl; [done|].
    intros _. by apply Hl.
  - unfold browser. destruct (chatGPTAPI st) as [w|]; [|done].
    destruct (reports_status (reported c w (step (eventOf c) w)) (ui st))
      as (_ & H2 & H3 & H4 & _).
    destruct (phase st) as [| promptText | r] eqn:Ep; simpl.
    + done.
    + intros _. rewrite H2, H3, H4. by apply Hl.
    + destruct (promise r (step (eventOf c) w)); simpl; [done|].
      intros _. rewrite H2, H3, H4. by apply Hl.
Qed.

Lemma executePrompt_displayable promptText st :
  displayable (statusMsg (ui (executePrompt promptText st))).
Proof.
  unfold executePrompt. repeat case_match; simpl; repeat constructor.
Qed.

Lemma settle_displayable s q u :
  expected q s -> seconds q = 300%Z -> displayable (statusMsg (settle s u)).
Proof.
  intros He Hs. destruct s as [response|e]; simpl.
  - unfold afterResponse. destruct (nonBlank response) eqn:Hn; simpl.
    + by apply nonBlank_length.
    + repeat constructor.
  - destruct e; simpl in *; try done.
    + left. congruence.
    + right. by eexists.
Qed.

Lemma handle_displayable i st :
  sound st -> displayable (statusMsg (ui st)) ->
  displayable (statusMsg (ui (handle i st))).
Proof.
  intros Hs Hd. destruct i as [value| |i|tabs|c]; simpl.
  - done.
  - destruct (sendBtn (ui st)); [done | apply executePrompt_displayable].
  - destruct (randomBtn (ui st)); [done|].
    destruct (randomPrompts !! i); [apply executePrompt_displayable | done].
  - unfold afterAvailable.
    destruct (phase st) as [| promptText | r] eqn:Ep; try done.
    destruct (chatGPTAPI st) as [w|] eqn:Hw; [|done].
    unfold sound in Hs. rewrite Hw, Ep in Hs. destruct Hs as (_ & Hi & _ & Hnb).
    destruct (isAvailable tabs); simpl; [|repeat constructor].
    unfold sendPrompt. by rewrite Hi, (nonBlank_valid _ Hnb).
  - unfold browser. destruct (chatGPTAPI st) as [w|] eqn:Hw; [|done].
    pose proof (reports_displayable _ (ui st) (reported_texts c w) Hd) as Hu.
    destruct (phase st) as [| promptText | r] eqn:Ep; try done.
    destruct (promise r (step (eventOf c) w)) as [s|] eqn:Es; [|done].
    unfold sound in Hs. rewrite Hw, Ep in Hs.
    destruct Hs as (_ & _ & Hsec & [q Hq] & Hp). cbn [ui].
    apply (settle_displayable s q); [|by eapply Hsec].
    by apply (settled_by_step c w r).
Qed.

Lemma run_invariant page raised inputs :
  sound (run inputs (load page raised))
  /\ (phase (run inputs (load page raised)) <> Idle ->
      sendBtn (ui (run inputs (load page raised))) = true
      /\ randomBtn (ui (run inputs (load page raised))) = true
      /\ responseArea (ui (run inputs (load page raised))) = false)
  /\ displayable (statusMsg (ui (run inputs (load page raised)))).
Proof.
  induction inputs as [|i inputs IH] using rev_ind.
  - split; [apply load_sound|]. split.
    + by destruct raised.
    + destruct raised; repeat constructor.
  - rewrite popup_run_snoc. destruct IH as (Hs & Hl & Hd).
    split; [|split].
    + apply handle_sound; [done| |].
      * intros Hb. destruct (phase (run inputs (load page raised))); [done| |];
          destruct Hl as (H1 & _); congruence.
      * intros Hb. destruct (phase (run inputs (load page raised))); [done| |];
          destruct Hl as (_ & H1 & _); congruence.
    + by apply handle_loading.
    + by apply handle_displayable.
Qed.

Lemma executePrompt_tidy promptText st :
  tidy st -> sendBtn (ui st) = false -> tidy (executePrompt promptText st).
Proof.
  intros (H1 & H2 & H3) Hb. unfold executePrompt, tidy.
  repeat case_match; simpl;
    (split; [done|]);
    (split; [first [exact H2 | by split] | first [exact H3 | done]]).
Qed.

Ltac tidy_solve H2 Ha :=
  unfold tidy, caught; cbn [ui phase]; simpl; rewrite ?Ha;
  split; [done | split; [split; first [done | by intros _; apply H2] | done]].

Lemma handle_tidy i st : tidy st -> tidy (handle i st).
Proof.
  intros Ht. pose proof Ht as (H1 & H2 & H3).
  destruct i as [value| |i|tabs|c]; simpl.
  - done.
  - destruct (sendBtn (ui st)) eqn:E; [done | by apply executePrompt_tidy].
  - destruct (randomBtn (ui st)) eqn:E; [done|].
    destruct (randomPrompts !! i); [|done].
    apply executePrompt_tidy; [done | simpl; congruence].
  - unfold afterAvailable.
    destruct (phase st) as [| promptText | r] eqn:Ep; try done.
    destruct (chatGPTAPI st) as [w|] eqn:Hw; [|done].
    assert (responseArea (ui st) = false) as Ha.
    { destruct (responseArea (ui st)); [|done]. by destruct (H3 eq_refl). }
    destruct (isAvailable tabs); simpl.
    + destruct (sendPrompt _ _ _) as [w' [e|r]].
      * tidy_solve H2 Ha.
      * tidy_solve H2 Ha.
    + tidy_solve H2 Ha.
  - unfold browser. destruct (chatGPTAPI st) as [w|] eqn:Hw; [|done].
    destruct (reports_status (reported c w (step (eventOf c) w)) (ui st))
      as (_ & R2 & R3 & R4 & R5).
    set (u := fold_left _ _ _) in *.
    assert (tidy {| ui := u; chatGPTAPI := Some (step (eventOf c) w);
                    phase := phase st |}) as Hu.
    { unfold tidy. cbn [ui phase]. by rewrite R2, R3, R4, R5. }
    destruct (phase st) as [| promptText | r] eqn:Ep; try done.
    destruct (promise r (step (eventOf c) w)) as [s|]; [|done].
    assert (responseArea u = false) as Ha.
    { rewrite R4. destruct (responseArea (ui st)); [|done]. by destruct (H3 eq_refl). }
    destruct s as [response|e]; simpl.
    + unfold afterResponse. destruct (nonBlank response) eqn:Hn; simpl.
      * tidy_solve H2 Ha.
      * tidy_solve H2 Ha.
    + tidy_solve H2 Ha.
Qed.

(** X19. The popup's buttons. In a popup whose page starts with both
    buttons enabled and the response area hidden, whatever the user and
    the browser do: the two buttons are enabled or disabled together,
    and disabled exactly while a call of [executePrompt] is suspended at
    one of its two [await]s; the response area is shown only while no
    call is under way, and then with a response that is not blank; and
    the promise a suspended call awaits is not settled yet. *)
Theorem buttons_follow_the_call page raised inputs :
  sendBtn page = false -> randomBtn page = false -> responseArea page = false ->
  sendBtn (ui (run inputs (load page raised)))
  = randomBtn (ui (run inputs (load page raised)))
  /\ (sendBtn (ui (run inputs (load page raised))) = true <->
      phase (run inputs (load page raised)) <> Idle)
  /\ (responseArea (ui (run inputs (load page raised))) = true ->
      phase (run inputs (load page raised)) = Idle
      /\ nonBlank (responseText (ui (run inputs (load page raised)))) = true)
  /\ (forall r, phase (run inputs (load page raised)) = Waiting r ->
      exists w, chatGPTAPI (run inputs (load page raised)) = Some w
                /\ promise r w = None).
Proof.
  intros Hb Hr Ha.
  assert (tidy (run inputs (load page raised))) as (H1 & H2 & H3).
  { induction inputs as [|i inputs IH] using rev_ind.
    - unfold tidy. destruct raised; simpl; rewrite Hb, Hr, Ha; by repeat split.
    - rewrite popup_run_snoc. by apply handle_tidy. }
  split; [done|]. split; [done|]. split; [done|].
  intros r Hp. destruct (run_invariant page raised inputs) as (Hs & _).
  unfold sound in Hs. rewrite Hp in Hs.
  destruct (chatGPTAPI (run inputs (load page raised))) as [w|]; [|done].
  exists w. split; [done|]. apply Hs.
Qed.

Lemma buttons_follow_the_call_witness :
  sendBtn blankPage = false /\ randomBtn blankPage = false
  /\ responseArea blankPage = false
  /\ sendBtn (ui (run asked (load blankPage false)))
     = randomBtn (ui (run asked (load blankPage false)))
  /\ (sendBtn (ui (run asked (load blankPage false))) = true <->
      phase (run asked (load blankPage false)) <> Idle).
Proof.
  split; [reflexivity|]. split; [reflexivity|]. split; [reflexivity|].
  destruct (buttons_follow_the_call blankPage false asked eq_refl eq_refl eq_refl)
    as (H1 & H2 & _).
  split; [exact H1 | exact H2].
Defined.

(** X20. What the status line can show. After the handler has run, and
    whatever the user and the browser do then, the status line shows one
    of eight fixed texts (the script's own and the two progress texts of
    the class), "Response captured!" with a positive
    count of characters, or "Error:" with the message of a timeout after
    300 seconds or of a failed send. It never shows the message of the
    class's two guards (the popup's own guards come first), nor "ChatGPT
    tab not found": that error is created by [sendPrompt] but never
    passed to [reject]. *)
Theorem status_line page raised inputs :
  displayable (statusMsg (ui (run inputs (load page raised))))
  /\ statusMsg (ui (run inputs (load page raised))) <> errorMessage TabNotFound
  /\ statusMsg (ui (run inputs (load page raised))) <> errorMessage NotInitialized
  /\ statusMsg (ui (run inputs (load page raised))) <> errorMessage InvalidPrompt.
Proof.
  destruct (run_invariant page raised inputs) as (_ & _ & Hd).
  split; [done|].
  destruct (statusMsg (ui (run inputs (load page raised)))) as [s|n|e]; try done.
  simpl in Hd. repeat split; intros [= ->]; by destruct Hd as [|[m ?]].
Qed.

Lemma handle_locked i r st : locked r st -> locked r (handle i st).
Proof.
  intros (Hp & Hb & Hr & Ha & w & Hw & Hf).
  destruct i as [value| |i|tabs|c]; simpl.
  - unfold locked. simpl. eauto 10.
  - rewrite Hb. unfold locked. eauto 10.
  - rewrite Hr. unfold locked. eauto 10.
  - unfold afterAvailable. rewrite Hp. unfold locked. eauto 10.
  - unfold browser. rewrite Hw, Hp.
    pose proof (step_final (eventOf c) r [] w Hf) as Hf'.
    destruct (final_settlements _ _ _ Hf') as [_ Hn]. rewrite Hn. simpl.
    destruct (reports_status (reported c w (step (eventOf c) w)) (ui st))
      as (_ & R2 & R3 & R4 & _).
    unfold locked. cbn [ui phase chatGPTAPI]. rewrite R2, R3, R4. eauto 10.
Qed.

Lemma run_locked inputs r st : locked r st -> locked r (run inputs st).
Proof.
  revert st. induction inputs as [|i inputs IH]; intros st Hl; [done|].
  simpl. apply IH. by apply handle_locked.
Qed.

(** X21. A tab that goes away locks the popup. When [isAvailable()] has
    found a ChatGPT tab but the lookup of [sendPrompt] that follows
    finds none (the tab was closed or left ChatGPT in between), the call
    of [executePrompt] stays suspended whatever happens afterwards: no
    timeout, no captured response and no click ends it; both buttons
    stay disabled and the response area hidden, and neither [resolve]
    nor [reject] is ever called for the request. *)
Theorem lost_tab_locks_popup page inputs promptText tabs tabs' later :
  phase (run inputs (load page false)) = Checking promptText ->
  isAvailable tabs = true -> isAvailable tabs' = false ->
  exists r,
    phase (run (inputs ++ [TabsListed tabs]) (load page false)) = Waiting r
    /\ phase (run (inputs ++ TabsListed tabs :: Called (Tabs r tabs') :: later)
               (load page false)) = Waiting r
    /\ sendBtn (ui (run (inputs ++ TabsListed tabs :: Called (Tabs r tabs') :: later)
                      (load page false))) = true
    /\ randomBtn (ui (run (inputs ++ TabsListed tabs :: Called (Tabs r tabs') :: later)
                        (load page false))) = true
    /\ responseArea (ui (run (inputs ++ TabsListed tabs :: Called (Tabs r tabs') :: later)
                           (load page false))) = false
    /\ exists w,
         chatGPTAPI (run (inputs ++ TabsListed tabs :: Called (Tabs r tabs') :: later)
                       (load page false)) = Some w
         /\ settlements r w = 0.
Proof.
  intros Hp Ha Hn.
  destruct (run_invariant page false inputs) as (Hs & Hl & _).
  set (st := run inputs (load page false)) in *.
  unfold sound in Hs. rewrite Hp in Hs.
  destruct (chatGPTAPI st) as [w|] eqn:Hw; [|done].
  destruct Hs as (_ & Hi & _ & Hnb).
  pose proof (nonBlank_valid _ Hnb) as Hv.
  destruct Hl as (Hb & Hr & Har); [by rewrite Hp|].
  assert (_getChatGPTTab tabs' = None) as Hnone.
  { unfold isAvailable in Hn. by destruct (_getChatGPTTab tabs'). }
  exists (nextRequest w).
  assert (afterAvailable tabs st
          = {| ui := ui st;
               chatGPTAPI := Some (fst (sendPrompt (str promptText) defaults w));
               phase := Waiting (nextRequest w) |}) as Hafter.
  { unfold afterAvailable. rewrite Hp, Hw, Ha. cbn [negb].
    unfold sendPrompt. by rewrite Hi, Hv. }
  split.
  { rewrite popup_run_snoc. fold st. cbn [handle]. by rewrite Hafter. }
  rewrite popup_run_app. fold st. cbn [run fold_left handle].
  change (fold_left (fun st i => handle i st) later ?s) with (run later s).
  assert (locked (nextRequest w) (browser (Tabs (nextRequest w) tabs') (afterAvailable tabs st)))
    as Hlocked.
  { rewrite Hafter. unfold browser. cbn [chatGPTAPI phase ui eventOf].
    destruct (lookup_failure_swallowed (str promptText) defaults tabs' None w Hi Hv Hnone)
      as [Hf _].
    destruct (final_settlements _ _ _ Hf) as [_ Hpr]. rewrite Hpr. simpl.
    match goal with
    | |- locked _ {| ui := fold_left ?f ?l ?u; chatGPTAPI := _; phase := _ |} =>
        destruct (reports_status l u) as (_ & R2 & R3 & R4 & _)
    end.
    unfold locked. cbn [ui phase chatGPTAPI]. rewrite R2, R3, R4. eauto 10. }
  destruct (run_locked later _ _ Hlocked) as (H1 & H2 & H3 & H4 & w' & H5 & H6).
  split; [done|]. split; [done|]. split; [done|]. split; [done|].
  exists w'. split; [done|]. by destruct (final_settlements _ _ _ H6).
Qed.

Lemma lost_tab_locks_popup_witness :
  phase (run asking (load blankPage false)) = Checking (js "hi")
  /\ isAvailable (Some [chatTab]) = true
  /\ isAvailable (Some [otherTab]) = false
  /\ exists r,
       phase (run (asking ++ [TabsListed (Some [chatTab])]) (load blankPage false))
       = Waiting r
       /\ sendBtn
            (ui (run (asking ++ TabsListed (Some [chatTab])
                        :: Called (Tabs r (Some [otherTab]))
                        :: [Called (Timer r);
                            Called (Bus (CAPTURED_RESPONSE (js "late answer")));
                            ClickSend])
                   (load blankPage false)))
          = true.
Proof.
  split; [reflexivity|]. split; [reflexivity|]. split; [reflexivity|].
  destruct (lost_tab_locks_popup blankPage asking (js "hi") (Some [chatTab])
              (Some [otherTab])
              [Called (Timer 0);
               Called (Bus (CAPTURED_RESPONSE (js "late answer")));
               ClickSend]
              eq_refl eq_refl eq_refl) as (r & H1 & H2 & H3 & _).
  exists r. split; [exact H1|].
  assert (r = 0) as ->.
  { change (phase (run (asking ++ [TabsListed (Some [chatTab])]) (load blankPage false)))
      with (Waiting 0) in H1. by injection H1. }
  exact H3.
Defined.

(** The messages of a detector: none while it is live, one when it has
    released its handles, the timeout text if it has not completed. *)
Lemma detector_messages first later :
  (Detector.live (fst (Detector.waitForResponse first later))
   /\ snd (Detector.waitForResponse first later) = [])
  \/ (Detector.released (fst (Detector.waitForResponse first later))
      /\ exists text,
           snd (Detector.waitForResponse first later) = [CAPTURED_RESPONSE text]
           /\ (Detector.isComplete (fst (Detector.waitForResponse first later)) = false ->
               text = Detector.timeoutText)).
Proof.
  destruct (DetectorMore.waitForResponse_cases first later) as [(H1 & H2 & _)|
    (pre & t & doc & post & _ & H1 & _ & _ & _ & _ & H6 & H7)]; [by left|].
  right. rewrite H7. split; [done|].
  destruct (DetectorMore.check_step doc _ H1)
    as [(Hl & _)|[(_ & _ & Ho & _)|(_ & Hc & Ho & _)]].
  - by destruct (DetectorMore.live_not_released _ Hl H6).
  - eauto.
  - exists (Detector.responseText doc). split; [done|]. congruence.
Qed.

(** A captured response that arrives while the call's handler is in the
    listener set ends the call. *)
Lemma browser_response text r w st :
  sound st -> phase st = Waiting r -> chatGPTAPI st = Some w ->
  r ∈ responseListeners w ->
  browser (Bus (CAPTURED_RESPONSE text)) st
  = {| ui := afterResponse text (ui st);
       chatGPTAPI := Some (onMessage (CAPTURED_RESPONSE text) w);
       phase := Idle |}.
Proof.
  intros Hs Hp Hw Hin. unfold sound in Hs. rewrite Hw, Hp in Hs.
  destruct Hs as ((l & ->) & Hi & _).
  unfold browser. rewrite Hw, Hp. cbn [eventOf reported fold_left].
  rewrite (step_received_one _ _ (initialized_bus _ (reachable_wellFormed l) Hi)).
  destruct (listeners_pending l r Hin) as (q & Hq & Hr & Hse).
  destruct (forEachListener_pending (responseListeners (acts l create)) text
              (acts l create) r q Hin Hin Hq Hr) as [Hreq _].
  unfold promise. cbn [onMessage]. unfold _handleResponse. rewrite Hreq.
  cbn. by rewrite Hse.
Qed.

(** X22. From the detector to the popup. While [executePrompt] awaits a
    request whose handler is in the listener set, the messages of a
    detector run are delivered to the popup: a detector that is still
    watching has sent nothing and the popup is as it was; a detector
    that has released its handles has sent one text, which ends the
    call and enables both buttons. A text that is not blank is put into
    the response area, which is shown, under a "Response captured!"
    status with its length; a blank text gives the "Empty response"
    error and leaves the area hidden. The detector's timeout text takes
    the first way: a timeout of the detector is shown as a captured
    response of 40 characters, not as an error. *)
Theorem detector_to_popup page inputs r w first later :
  phase (run inputs (load page false)) = Waiting r ->
  chatGPTAPI (run inputs (load page false)) = Some w ->
  r ∈ responseListeners w ->
  (Detector.live (fst (Detector.waitForResponse first later))
   /\ run (inputs ++ deliver (snd (Detector.waitForResponse first later)))
        (load page false)
      = run inputs (load page false))
  \/ (Detector.released (fst (Detector.waitForResponse first later))
      /\ exists text,
           snd (Detector.waitForResponse first later) = [CAPTURED_RESPONSE text]
           /\ phase (run (inputs ++ deliver [CAPTURED_RESPONSE text]) (load page false))
              = Idle
           /\ ui (run (inputs ++ deliver [CAPTURED_RESPONSE text]) (load page false))
              = afterResponse text (ui (run inputs (load page false)))
           /\ sendBtn (afterResponse text (ui (run inputs (load page false)))) = false
           /\ randomBtn (afterResponse text (ui (run inputs (load page false)))) = false
           /\ (nonBlank text = true ->
               responseArea (afterResponse text (ui (run inputs (load page false))))
               = true
               /\ responseText (afterResponse text (ui (run inputs (load page false))))
                  = text
               /\ statusMsg (afterResponse text (ui (run inputs (load page false))))
                  = responseCaptured (length text)
               /\ statusError (afterResponse text (ui (run inputs (load page false))))
                  = false)
           /\ (nonBlank text = false ->
               responseArea (afterResponse text (ui (run inputs (load page false))))
               = false
               /\ statusMsg (afterResponse text (ui (run inputs (load page false))))
                  = literal (js "Error: Empty response received")
               /\ statusError (afterResponse text (ui (run inputs (load page false))))
                  = true)
           /\ (Detector.isComplete (fst (Detector.waitForResponse first later)) = false ->
               text = Detector.timeoutText
               /\ statusMsg (afterResponse text (ui (run inputs (load page false))))
                  = responseCaptured 40
               /\ statusError (afterResponse text (ui (run inputs (load page false))))
                  = false)).
Proof.
  intros Hp Hw Hin.
  destruct (run_invariant page false inputs) as (Hs & Hl & _).
  destruct Hl as (Hb & Hr & Har); [by rewrite Hp|].
  destruct (detector_messages first later) as [[H1 H2]|(H1 & text & H2 & H3)].
  - left. split; [done|]. rewrite H2. unfold deliver. simpl. by rewrite app_nil_r.
  - right. split; [done|]. exists text. split; [done|].
    change (deliver [CAPTURED_RESPONSE text])
      with [Called (Bus (CAPTURED_RESPONSE text))].
    rewrite popup_run_snoc. cbn [handle].
    rewrite (browser_response text r w _ Hs Hp Hw Hin). cbn [phase ui].
    split; [done|]. split; [done|].
    unfold afterResponse. split; [by destruct (nonBlank text)|].
    split; [by destruct (nonBlank text)|]. split; [|split].
    + intros ->. by simpl.
    + intros ->. cbn [negb setLoading setStatus responseArea statusMsg statusError].
      by rewrite Har.
    + intros ->%H3. by simpl.
Qed.

Lemma detector_to_popup_witness :
  phase (run asked (load blankPage false)) = Waiting 0
  /\ chatGPTAPI (run asked (load blankPage false)) = Some waiting
  /\ 0 ∈ responseListeners waiting
  /\ exists text,
       snd (Detector.waitForResponse Detector.streamingPage
              (Detector.stabilityRun ++ [(Detector.Mutation, Detector.answerPage)]))
       = [CAPTURED_RESPONSE text]
       /\ phase (run (asked ++ deliver [CAPTURED_RESPONSE text]) (load blankPage false))
          = Idle
       /\ ui (run (asked ++ deliver [CAPTURED_RESPONSE text]) (load blankPage false))
          = afterResponse text (ui (run asked (load blankPage false))).
Proof.
  assert (0 ∈ responseListeners waiting) as Hin by (vm_compute; constructor).
  split; [reflexivity|]. split; [reflexivity|]. split; [exact Hin|].
  destruct (detector_to_popup blankPage asked 0 waiting Detector.streamingPage
              (Detector.stabilityRun ++ [(Detector.Mutation, Detector.answerPage)])
              eq_refl eq_refl Hin)
    as [[(Hc & _) _]|(_ & text & H1 & H2 & H3 & _)].
  - vm_compute in Hc. discriminate Hc.
  - exists text. split; [exact H1|]. split; [exact H2 | exact H3].
Defined.

End PopupLaws.
